(** * OpenGov validator report: the stake estimator, its batcher, the result
      cache and the report assembler of [validator-cli.js], together with the
      earlier script that carries the calibrated test validator.

    The development follows the two JavaScript sources function by function:
    - [JsNumber]: the IEEE-754 binary64 numbers JavaScript computes with,
      [Number(...)], [toFixed], [parseFloat];
    - [Chain]: what the remote node answers (preferences, ledger, exposure,
      nominator registry);
    - [Sys]: the cache file, the clock, the console and the connection, as an
      explicit world with an event trace;
    - [ValidatorCli]: [src/validator-cli.js];
    - [ValidatorScript]: the earlier script (no command-line options, one
      calibrated test validator). *)

From Stdlib Require Import ZArith NArith List String Ascii Bool Lia Permutation.
From Stdlib Require Import SpecFloat.
From Stdlib Require Import Decimal DecimalString DecimalN DecimalNat DecimalPos.
Import ListNotations.
Open Scope string_scope.

(* ===================================================================== *)
(** ** JavaScript numbers *)
(* ===================================================================== *)

Module JsNumber.

(** A JavaScript Number is an IEEE-754 binary64 value. *)
Definition prec : Z := 53.
Definition emax : Z := 1024.
Definition number : Type := spec_float.

Definition pzero : number := S754_zero false.
Definition nan : number := S754_nan.

(** [Number(s)] for a decimal (or hex) integer text, and the value of an
    integer literal: the nearest binary64, ties to even. *)
Definition of_Z (z : Z) : number := binary_normalize prec emax z 0 false.
Definition of_N (n : N) : number := of_Z (Z.of_N n).
Definition of_nat (n : nat) : number := of_Z (Z.of_nat n).

(** The binary64 nearest to the rational [m / d], [m, d > 0]: one correctly
    rounded division of the two integers, whatever their size. *)
Definition of_ratio (s : bool) (m d : positive) : number :=
  let '(mz, ez, lz) := SFdiv_core_binary prec emax (Zpos m) 0 (Zpos d) 0 in
  binary_round_aux prec emax s mz ez lz.

(** A decimal literal [m]e[-k], such as [0.7] = [decimal 7 1]. *)
Definition decimal (m : N) (k : nat) : number :=
  match m with
  | N0 => pzero
  | Npos p => of_ratio false p (Z.to_pos (10 ^ Z.of_nat k))
  end.

Definition add : number -> number -> number := SFadd prec emax.
Definition sub : number -> number -> number := SFsub prec emax.
Definition mul : number -> number -> number := SFmul prec emax.
Definition div : number -> number -> number := SFdiv prec emax.
(** [x < y] and [x > y]: false as soon as one side is NaN. *)
Definition ltb (x y : number) : bool := SFltb x y.
Definition gtb (x y : number) : bool := SFltb y x.

Definition is_finite (x : number) : bool :=
  match x with
  | S754_zero _ | S754_finite _ _ _ => true
  | _ => false
  end.

(** ToBoolean on a number: [0], [-0] and [NaN] are falsy. *)
Definition truthy (x : number) : bool :=
  match x with
  | S754_zero _ | S754_nan => false
  | _ => true
  end.

(** *** Exact values

    A finite binary64 is [m * 2^e] with a sign; its magnitude is kept as the exact
    fraction [fst / snd], on which [toFixed] and [toString] do their
    decimal arithmetic. *)
Definition magnitude (x : number) : N * N :=
  match x with
  | S754_finite _ m (Zneg k) => (Npos m, 2 ^ Npos k)%N
  | S754_finite _ m e => (Npos m * 2 ^ Z.to_N e, 1)%N
  | _ => (0, 1)%N
  end.

(** The real value of [x] is below zero; [-0] is not. *)
Definition negative (x : number) : bool :=
  match x with
  | S754_finite s _ _ => s
  | _ => false
  end.

(** *** Decimal text *)

Definition digits (n : N) : string := NilEmpty.string_of_uint (N.to_uint n).

Fixpoint zeros (n : nat) : string :=
  match n with
  | O => EmptyString
  | S n' => String "0" (zeros n')
  end.

(** The binary64 for the decimal [s * 10^e10]. *)
Definition of_decimal (s : N) (e10 : Z) : number :=
  match s with
  | N0 => pzero
  | Npos p =>
      match e10 with
      | Zneg k => of_ratio false p (10 ^ k)
      | _ => of_Z (Zpos p * 10 ^ e10)
      end
  end.

(** [n] with [10^(n-1) <= p/q < 10^n], for [p/q > 0]. *)
Fixpoint scale_up (fuel : nat) (p q : N) (j : Z) : Z :=
  match fuel with
  | O => j
  | S fuel' => if (q <=? p * 10)%N then j else scale_up fuel' (p * 10)%N q (j - 1)
  end.

Definition exponent10 (p q : N) : Z :=
  if (q <=? p)%N then Z.of_nat (String.length (digits (p / q)))
  else scale_up 400 p q 0.

(** The candidate with [k] digits: the nearest of [floor] and [floor + 1] of
    [p/q / 10^(n-k)] that reads back as [x], if one does. *)
Definition candidate (x : number) (p q : N) (n : Z) (k : nat) : option (N * Z) :=
  let e10 := (n - Z.of_nat k)%Z in
  let '(num, den) :=
    match e10 with
    | Zneg d => (p * 10 ^ Npos d, q)%N
    | _ => (p, q * 10 ^ Z.to_N e10)%N
    end in
  let lo := (num / den)%N in
  let hi := (lo + 1)%N in
  let ok s := SFeqb (of_decimal s e10) x in
  let twice := (2 * (num mod den))%N in
  let lo_first := orb (twice <? den)%N (andb (twice =? den)%N (N.even lo)) in
  let pick s := if (s =? 10 ^ N.of_nat k)%N then Some ((10 ^ N.of_nat (k - 1))%N, (n + 1)%Z)
                else Some (s, n) in
  match ok lo, ok hi with
  | true, true => pick (if lo_first then lo else hi)
  | true, false => pick lo
  | false, true => pick hi
  | false, false => None
  end.

(** The shortest digit string that reads back as [x]; 17 digits always do. *)
Fixpoint shortest (x : number) (p q : N) (n : Z) (k fuel : nat) : N * Z :=
  match fuel with
  | O => ((p * 10 ^ 17) / q, n)%N
  | S fuel' =>
      match candidate x p q n k with
      | Some r => r
      | None => shortest x p q n (S k) fuel'
      end
  end.

(** [Number::toString(x)], radix 10. *)
Definition toString (x : number) : string :=
  match x with
  | S754_nan => "NaN"
  | S754_zero _ => "0"
  | S754_infinity s => if s then "-Infinity" else "Infinity"
  | S754_finite sg _ _ =>
      let ax := SFabs x in
      let '(p, q) := magnitude x in
      let '(s, n) := shortest ax p q (exponent10 p q) 1 17 in
      let ds := digits s in
      let k := Z.of_nat (String.length ds) in
      let body :=
        if andb (k <=? n)%Z (n <=? 21)%Z then ds ++ zeros (Z.to_nat (n - k))
        else if andb (0 <? n)%Z (n <=? 21)%Z then
          substring 0 (Z.to_nat n) ds ++ "." ++
          substring (Z.to_nat n) (Z.to_nat (k - n)) ds
        else if andb (-6 <? n)%Z (n <=? 0)%Z then
          "0." ++ zeros (Z.to_nat (- n)) ++ ds
        else
          let e := (n - 1)%Z in
          let sign := if (e <? 0)%Z then "-" else "+" in
          let mant :=
            if (k =? 1)%Z then ds
            else substring 0 1 ds ++ "." ++ substring 1 (Z.to_nat (k - 1)) ds in
          mant ++ "e" ++ sign ++ digits (Z.abs_N e) in
      (if sg then "-" else EmptyString) ++ body
  end.

(** [Number.prototype.toFixed(f)]: the integer [n] nearest to [x * 10^f]
    (the larger one on a tie), written with [f] digits after the point;
    values from [10^21] on, and non-finite ones, fall back to [toString]. *)
Definition toFixed (x : number) (f : nat) : string :=
  if negb (is_finite x) then toString x
  else
    let s := if negative x then "-" else EmptyString in
    let '(p, q) := magnitude x in
    if (10 ^ 21 * q <=? p)%N then s ++ toString (SFabs x)
    else
      let n := ((2 * p * 10 ^ N.of_nat f + q) / (2 * q))%N in
      let m := digits n in
      let m :=
        if Nat.eqb f 0 then m
        else
          let k := String.length m in
          let m := if (k <=? f)%nat then zeros (f + 1 - k) ++ m else m in
          let k := String.length m in
          substring 0 (k - f) m ++ "." ++ substring (k - f) f m in
      s ++ m.

(** *** [parseFloat]

    The longest prefix of the trimmed text that is a decimal literal
    (sign, [Infinity], digits, fraction, exponent); [NaN] when there is
    none. *)
Definition is_digit (c : ascii) : bool :=
  let n := nat_of_ascii c in andb (48 <=? n)%nat (n <=? 57)%nat.

Definition is_space (c : ascii) : bool :=
  let n := nat_of_ascii c in
  orb (Nat.eqb n 32) (andb (9 <=? n)%nat (n <=? 13)%nat).

Fixpoint skip_spaces (s : string) : string :=
  match s with
  | String c r => if is_space c then skip_spaces r else s
  | EmptyString => s
  end.

(** Leading digits of [s]: their value on top of [acc], how many, the rest. *)
Fixpoint span_digits (s : string) (acc : N) (cnt : nat) : N * nat * string :=
  match s with
  | String c r =>
      if is_digit c
      then span_digits r (acc * 10 + N.of_nat (nat_of_ascii c - 48))%N (S cnt)
      else (acc, cnt, s)
  | EmptyString => (acc, cnt, s)
  end.

Definition exponent_part (s : string) : Z :=
  match s with
  | String c r =>
      if orb (Ascii.eqb c "e") (Ascii.eqb c "E") then
        let '(neg, r') :=
          match r with
          | String "-" t => (true, t)
          | String "+" t => (false, t)
          | _ => (false, r)
          end in
        let '(v, cnt, _) := span_digits r' 0%N 0 in
        if Nat.eqb cnt 0 then 0%Z
        else if neg then (- Z.of_N v)%Z else Z.of_N v
      else 0%Z
  | EmptyString => 0%Z
  end.

Definition parseFloat (text : string) : number :=
  let s := skip_spaces text in
  let '(neg, s) :=
    match s with
    | String "-" t => (true, t)
    | String "+" t => (false, t)
    | _ => (false, s)
    end in
  if prefix "Infinity" s then S754_infinity neg
  else
    let '(ip, ic, s) := span_digits s 0%N 0 in
    let '(m, fc, s) :=
      match s with
      | String "." t => span_digits t ip 0
      | _ => (ip, 0%nat, s)
      end in
    if Nat.eqb (ic + fc) 0 then nan
    else
      let e10 := (exponent_part s - Z.of_nat fc)%Z in
      match m with
      | N0 => S754_zero neg
      | _ => if neg then SFopp (of_decimal m e10) else of_decimal m e10
      end.

End JsNumber.

(* ===================================================================== *)
(** ** What the node answers *)
(* ===================================================================== *)

Module Chain.

(** An account identity, as its text ([validator.toString()]). *)
Definition AccountId : Type := string.

(** A pending query either resolves or rejects; a rejection surfaces as a
    thrown error at the [await]. *)
Inductive response (A : Type) : Type :=
| Resolved (a : A)
| Rejected (message : string).
Arguments Resolved {A} a.
Arguments Rejected {A} message.

(** [staking.validators]: commission in parts per billion. *)
Record ValidatorPrefs := { commission : N }.

(** [derive.staking.account]: the ledger's [total], in native units. *)
Record StakingLedger := { total : N }.
Record StakingAccount := { stakingLedger : option StakingLedger }.

(** [staking.erasStakers(...).toJSON()]. *)
Record IndividualExposure := { who : AccountId; value : N }.
Record Exposure := { exposure_total : N; own : N; others : list IndividualExposure }.

(** One entry of [staking.nominators.entries()]: the key's first argument
    and the target list, each [None] when its decoding throws. *)
Record NominatorEntry := {
  key_arg : option AccountId;
  nominations : option (list AccountId)
}.

Record Api := {
  query_session_validators : response (list AccountId);
  (** [None]: the era option is empty, [unwrap()] throws. *)
  query_staking_activeEra : response (option N);
  query_staking_validators : AccountId -> response (option ValidatorPrefs);
  derive_staking_account : AccountId -> response (option StakingAccount);
  query_staking_erasStakers : string -> AccountId -> response Exposure;
  query_staking_nominators_entries : response (list NominatorEntry)
}.

End Chain.

(* ===================================================================== *)
(** ** Report rows *)
(* ===================================================================== *)

(** One row of the report table; every field is text.  The field names are
    the object keys of the source with the blanks and units folded in:
    ['Self Bond (DOT)'], ['Active Nomination (DOT)'], ... *)
Record Row := {
  Validator : string;
  Self_Bond_DOT : string;
  Active_Nomination_DOT : string;
  Inactive_Nomination_DOT : string;
  Total_Nomination_DOT : string;
  Total_Active_Stake_DOT : string;
  Commission_pct : string;
  Nominators_Active_Total : string
}.

(** The five monetary fields of a row. *)
Definition monetary_fields (r : Row) : list string :=
  [Self_Bond_DOT r; Active_Nomination_DOT r; Inactive_Nomination_DOT r;
   Total_Nomination_DOT r; Total_Active_Stake_DOT r].

(* ===================================================================== *)
(** ** The world a run acts on *)
(* ===================================================================== *)

Module Sys.

(** The object [JSON.parse] yields for a cache file: either field may be
    missing; [timestamp] is the integer [Date.now()] wrote. *)
Record CacheData := { timestamp : option Z; data : option (list Row) }.

(** File contents are kept by what [JSON.parse] makes of them. *)
Inductive Content :=
| Malformed                    (* [JSON.parse] throws a SyntaxError *)
| JsonNull                     (* parses to [null]: reading a property throws *)
| JsonObject (c : CacheData).

Inductive File :=
| Absent
| Unreadable                   (* exists, [readFileSync] throws *)
| Present (c : Content).

(** What the disk does with a write: it stores the text, refuses to open the
    file, or fails after the file was truncated and a part of the text was
    written.  A proper prefix of the text of a record never parses: its
    closing brace is missing. *)
Inductive Write :=
| Stored
| Denied
| Torn.

Inductive Event :=
| console_log (text : string)
| console_error (text : string)
| console_error_object (text : string) (message : string)
| console_table (rows : list Row)
| fs_existsSync (path : string)
| fs_readFileSync (path : string)
| fs_writeFileSync (path : string) (c : CacheData)
| fs_renameSync (from to : string)
| ws_create (endpoint : string)
| api_disconnect.

(** The state a run reads and changes.  [session] is the connection
    opened by [ApiPromise.create]; the variable [api] of [getValidators] is
    set exactly when it is.  [clock] is what [Date.now()] reads: it stands
    still while a run lasts and moves between runs ([elapse]).  [trace] lists
    what happened, oldest first. *)
Record World := {
  files : string -> File;
  disk : string -> Write;
  clock : Z;
  session : option Chain.Api;
  trace : list Event
}.

(** The remote side: what each endpoint does with a connection attempt. *)
Definition Network : Type := string -> Chain.response Chain.Api.

(** *** Computations: a world transformer that returns or throws *)

Inductive completion (A : Type) : Type :=
| Normal (a : A)
| Thrown (message : string).
Arguments Normal {A} a.
Arguments Thrown {A} message.

Definition M (A : Type) : Type := World -> completion A * World.

Definition ret {A} (a : A) : M A := fun w => (Normal a, w).

Definition bind {A B} (c : M A) (k : A -> M B) : M B :=
  fun w =>
    match c w with
    | (Normal a, w') => k a w'
    | (Thrown e, w') => (Thrown e, w')
    end.

Definition throw {A} (message : string) : M A := fun w => (Thrown message, w).

(** [try { body } catch (err) { handler err }]: the effects of [body] up
    to the throw stay. *)
Definition try_catch {A} (body : M A) (handler : string -> M A) : M A :=
  fun w =>
    match body w with
    | (Normal a, w') => (Normal a, w')
    | (Thrown e, w') => handler e w'
    end.

(** [try { body } finally { final }]. *)
Definition try_finally {A} (body : M A) (final : M unit) : M A :=
  fun w =>
    match body w with
    | (r, w') =>
        match final w' with
        | (Normal _, w'') => (r, w'')
        | (Thrown e, w'') => (Thrown e, w'')
        end
    end.

(** [await p]. *)
Definition await {A} (p : Chain.response A) : M A :=
  match p with
  | Chain.Resolved a => ret a
  | Chain.Rejected e => throw e
  end.

Definition emit (e : Event) : M unit :=
  fun w => (Normal tt,
            {| files := files w; disk := disk w; clock := clock w;
               session := session w; trace := trace w ++ [e] |}).

Definition set_session (s : option Chain.Api) : M unit :=
  fun w => (Normal tt,
            {| files := files w; disk := disk w; clock := clock w;
               session := s; trace := trace w |}).

Definition get_session : M (option Chain.Api) := fun w => (Normal (session w), w).

Definition log (text : string) : M unit := emit (console_log text).
Definition error (text : string) : M unit := emit (console_error text).
(** [console.error(text, error)] for a caught [Error] with this message: the
    console shows the text and then the error as it inspects it, that is its
    stack, which starts with [Error: ] and the message. *)
Definition error_object (text message : string) : M unit :=
  emit (console_error_object text message).
Definition table (rows : list Row) : M unit := emit (console_table rows).

(** [Date.now()]. *)
Definition Date_now : M Z := fun w => (Normal (clock w), w).

(** [fs.existsSync(path)]: never throws. *)
Definition existsSync (path : string) : M bool :=
  bind (emit (fs_existsSync path)) (fun _ w =>
    (Normal (match files w path with Absent => false | _ => true end), w)).

(** [JSON.parse(fs.readFileSync(path, 'utf8'))]. *)
Definition readFileSync_parse (path : string) : M CacheData :=
  bind (emit (fs_readFileSync path)) (fun _ w =>
    match files w path with
    | Absent => (Thrown "ENOENT: no such file or directory", w)
    | Unreadable => (Thrown "EACCES: permission denied", w)
    | Present Malformed => (Thrown "Unexpected token in JSON", w)
    | Present JsonNull => (Thrown "Cannot read properties of null", w)
    | Present (JsonObject c) => (Normal c, w)
    end).

(** [fs.writeFileSync(path, JSON.stringify(c, null, 2))]: the text replaces
    the file; or the call throws before it touched the file; or it throws
    after it truncated the file, leaving a part of the text. *)
Definition put_file (path : string) (f : File) : M unit :=
  fun w => (Normal tt,
            {| files := fun p => if String.eqb p path then f else files w p;
               disk := disk w; clock := clock w;
               session := session w; trace := trace w |}).

Definition writeFileSync (path : string) (c : CacheData) : M unit :=
  bind (emit (fs_writeFileSync path c)) (fun _ w =>
    match disk w path with
    | Stored => put_file path (Present (JsonObject c)) w
    | Denied => (Thrown "EACCES: permission denied", w)
    | Torn =>
        bind (put_file path (Present Malformed))
             (fun _ => throw "ENOSPC: no space left on device") w
    end).

(** Time passing between two runs. *)
Definition elapse (ms : Z) (w : World) : World :=
  {| files := files w; disk := disk w; clock := clock w + ms;
     session := session w; trace := trace w |}.

Module Notations.
Notation "x <- c ;; k" := (bind c (fun x => k))
  (at level 61, c at next level, right associativity).
Notation "c ;;; k" := (bind c (fun _ => k))
  (at level 61, right associativity).
End Notations.

End Sys.

(* ===================================================================== *)
(** ** Helpers shared by the two scripts *)
(* ===================================================================== *)

Module Js.

Import JsNumber.

Definition nl : string := String (ascii_of_nat 10) EmptyString.

(** Template-literal rendering of a non-negative integer. *)
Definition show_nat (n : nat) : string := digits (N.of_nat n).

(** ToBoolean on an optional string: [null], [undefined] and [''] are
    falsy. *)
Definition truthy_string (s : option string) : bool :=
  match s with
  | Some (String _ _) => true
  | _ => false
  end.

(** ToBoolean on an optional integer: [null], [NaN] (both [None]) and [0]
    are falsy. *)
Definition truthy_int (n : option Z) : bool :=
  match n with
  | Some z => negb (z =? 0)%Z
  | None => false
  end.

(** [xs.slice(0, end)]: a negative [end] counts from the back. *)
Definition slice0 {A} (xs : list A) (e : Z) : list A :=
  if (e <? 0)%Z then firstn (Z.to_nat (Z.max (Z.of_nat (List.length xs) + e) 0)) xs
  else firstn (Z.to_nat e) xs.

(** [xs.slice(i, j)] for indices [0 <= i <= j]. *)
Definition slice {A} (xs : list A) (i j : nat) : list A :=
  firstn (j - i) (skipn i xs).

(** *** The nominator map: a JavaScript object used as a dictionary

    Keys keep their insertion order ([Object.entries]); assigning to a key
    already present replaces its value in place. *)
Definition Dict (V : Type) : Type := list (string * V).

Fixpoint dict_set {V} (d : Dict V) (k : string) (v : V) : Dict V :=
  match d with
  | [] => [(k, v)]
  | (k', v') :: rest =>
      if String.eqb k' k then (k, v) :: rest else (k', v') :: dict_set rest k v
  end.

(** [targets.includes(address)]. *)
Definition includes (targets : list string) (address : string) : bool :=
  existsb (String.eqb address) targets.

(** *** [Array.prototype.sort] with a comparator

    The sort is stable; with a comparator that orders its arguments
    consistently every stable sort returns the list built here: an element
    moves behind a later one only when the comparator is positive. *)
Section Sort.
Context {A : Type} (positive_cmp : A -> A -> bool).

Fixpoint sort_insert (x : A) (sorted : list A) : list A :=
  match sorted with
  | [] => [x]
  | y :: rest =>
      if positive_cmp x y then y :: sort_insert x rest else x :: y :: rest
  end.

Fixpoint sort (xs : list A) : list A :=
  match xs with
  | [] => []
  | x :: rest => sort_insert x (sort rest)
  end.
End Sort.

End Js.

(* ===================================================================== *)
(** ** [src/validator-cli.js] *)
(* ===================================================================== *)

Module ValidatorCli.

Import JsNumber Chain Sys Sys.Notations Js.

(** *** [DEFAULT_CONFIG] *)
Definition providers : list string :=
  ["wss://rpc.polkadot.io"; "wss://polkadot-rpc.dwellir.com";
   "wss://polkadot.api.onfinality.io/public-ws"].
Definition batchSize : nat := 25.
Definition maxValidators : Z := 100.
Definition cacheFile : string := "./validator-cache.json".
Definition cacheTimeout : Z := 3600000.
Definition testValidator : string :=
  "14zfiH2sMH955cG2yKUQbHSP3oQ8W4Ai9p9wSSZunvQ4TU4k".

(** *** [options], as the argument loop leaves them

    [limit] is [None] for [null] and for the [NaN] that [parseInt] returns
    on a missing or non-numeric argument: the script only ever tests it for
    truthiness before using it.  With [help] the script prints its usage and
    exits before [getValidators] is called. *)
Record Options := {
  limit : option Z;
  validator : option string;
  refresh : bool;
  help : bool
}.

(** *** Cache helper functions *)

Definition loadCache (options : Options) : M (option (list Row)) :=
  try_catch
    (present <- existsSync cacheFile ;;
     if andb present (negb (refresh options)) then
       cacheData <- readFileSync_parse cacheFile ;;
       now <- Date_now ;;
       (* Check if cache is still valid *)
       match timestamp cacheData with
       | Some t => if (now - t <? cacheTimeout)%Z then ret (data cacheData) else ret None
       | None => ret None
       end
     else ret None)
    (fun message => error ("Error loading cache: " ++ message) ;;; ret None).

Definition saveCache (rows : list Row) : M unit :=
  try_catch
    (now <- Date_now ;;
     let cacheData := {| timestamp := Some now; data := Some rows |} in
     writeFileSync cacheFile cacheData ;;;
     log "Cache saved successfully")
    (fun message => error ("Error saving cache: " ++ message)).

(** *** [connectToNetwork] *)

Fixpoint connect_each (net : Network) (endpoints : list string) : M Api :=
  match endpoints with
  | [] => throw "Failed to connect to any Polkadot endpoint"
  | endpoint :: rest =>
      attempt <-
        try_catch
          (log ("Attempting to connect to " ++ endpoint ++ "...") ;;;
           emit (ws_create endpoint) ;;;
           api <- await (net endpoint) ;;
           set_session (Some api) ;;;
           log ("Successfully connected to " ++ endpoint) ;;;
           ret (Some api))
          (fun message =>
             log ("Failed to connect to " ++ endpoint ++ ": " ++ message) ;;;
             ret None) ;;
      match attempt with
      | Some api => ret api
      | None => connect_each net rest
      end
  end.

Definition connectToNetwork (net : Network) : M Api := connect_each net providers.

(** *** The estimate computed for one validator *)

Record Estimate := {
  ownStake : number;
  commissionPct : number;
  activeStake : number;
  activeNominatorCount : nat;
  totalNominatorCount : nat;
  inactiveNominatorCount : Z;
  (** the multiplier applied, when the estimation branch is taken *)
  inactiveMultiplier : option number;
  inactiveStake : number;
  totalNomination : number;
  totalActiveStake : number
}.

(** Filter nominators that target this validator. *)
Definition targetingNominators (nominatorsMap : Dict (list string))
    (validatorAddress : string) : list string :=
  map fst (filter (fun entry => includes (snd entry) validatorAddress) nominatorsMap).

(** The multiplier by commission tier. *)
Definition tierMultiplier (commissionPct : number) : number :=
  (* Validators with lower commission likely have more competition *)
  if ltb commissionPct (of_Z 5) then decimal 6 1
  else if gtb commissionPct (of_Z 15) then decimal 8 1
  else decimal 7 1 (* Base value *).

Definition estimate (prefs : option ValidatorPrefs) (stakingInfo : option StakingAccount)
    (exposureData : Exposure) (targeting : list string) : Estimate :=
  (* Get self stake, commission, etc. *)
  let selfBond :=
    match stakingInfo with
    | Some {| stakingLedger := Some ledger |} => of_N (total ledger)
    | _ => of_Z 0
    end in
  let ownStake := div selfBond (of_Z (10 ^ 10)) in
  let commission :=
    match prefs with
    | Some p => let c := of_N (Chain.commission p) in if truthy c then c else of_Z 0
    | None => of_Z 0
    end in
  let commissionPct := div commission (of_Z 10000000) in
  (* Get active stake from exposure *)
  let activeStake :=
    fold_left (fun sum other => add sum (div (of_N (value other)) (of_Z (10 ^ 10))))
              (others exposureData) (of_Z 0) in
  (* Calculate inactive nominations *)
  let activeNominatorCount := List.length (others exposureData) in
  let totalNominatorCount := List.length targeting in
  let inactiveNominatorCount :=
    Z.max 0 (Z.of_nat totalNominatorCount - Z.of_nat activeNominatorCount) in
  (* Improved inactive stake estimation *)
  let '(inactiveMultiplier, inactiveStake) :=
    if andb (0 <? activeNominatorCount)%nat (0 <? inactiveNominatorCount)%Z then
      let avgActiveStakePerNominator := div activeStake (of_nat activeNominatorCount) in
      let inactiveMultiplier := tierMultiplier commissionPct in
      (Some inactiveMultiplier,
       mul (mul avgActiveStakePerNominator inactiveMultiplier) (of_Z inactiveNominatorCount))
    else (None, of_Z 0) in
  (* Calculate total nomination and total active stake *)
  let totalNomination := add activeStake inactiveStake in
  let totalActiveStake := add ownStake activeStake in
  {| ownStake := ownStake; commissionPct := commissionPct; activeStake := activeStake;
     activeNominatorCount := activeNominatorCount;
     totalNominatorCount := totalNominatorCount;
     inactiveNominatorCount := inactiveNominatorCount;
     inactiveMultiplier := inactiveMultiplier; inactiveStake := inactiveStake;
     totalNomination := totalNomination; totalActiveStake := totalActiveStake |}.

(** The row returned for a validator whose queries succeeded. *)
Definition report (validatorAddress : string) (e : Estimate) : Row :=
  {| Validator := validatorAddress;
     Self_Bond_DOT := toFixed (ownStake e) 4;
     Active_Nomination_DOT := toFixed (activeStake e) 4;
     Inactive_Nomination_DOT := toFixed (inactiveStake e) 4;
     Total_Nomination_DOT := toFixed (totalNomination e) 4;
     Total_Active_Stake_DOT := toFixed (totalActiveStake e) 4;
     Commission_pct := toFixed (commissionPct e) 2;
     Nominators_Active_Total :=
       show_nat (activeNominatorCount e) ++ "/" ++ show_nat (totalNominatorCount e) |}.

(** The row returned from the [catch] branch. *)
Definition fallback (validatorAddress : string) : Row :=
  {| Validator := validatorAddress;
     Self_Bond_DOT := "0.00";
     Active_Nomination_DOT := "0.00";
     Inactive_Nomination_DOT := "0.00";
     Total_Nomination_DOT := "0.00";
     Total_Active_Stake_DOT := "0.00";
     Commission_pct := "0.00";
     Nominators_Active_Total := "0/0" |}.

(** The three queries of one validator, in the order they are awaited. *)
Definition enrich (api : Api) (validator : AccountId) (eraNumber : string)
    (nominatorsMap : Dict (list string)) : M Estimate :=
  let validatorAddress := validator in
  (* Get validator preferences (fees) *)
  prefs <- await (query_staking_validators api validator) ;;
  (* Get staking info for the validator *)
  stakingInfo <- await (derive_staking_account api validator) ;;
  let targeting := targetingNominators nominatorsMap validatorAddress in
  (* Get the exposure data from the current era *)
  exposure <- await (query_staking_erasStakers api eraNumber validator) ;;
  ret (estimate prefs stakingInfo exposure targeting).

(** The body mapped over a batch: [try { ... } catch (err) { ... }]. *)
Definition processValidator (api : Api) (eraNumber : string)
    (nominatorsMap : Dict (list string)) (validator : AccountId) : M Row :=
  try_catch
    (e <- enrich api validator eraNumber nominatorsMap ;;
     ret (report validator e))
    (fun message =>
       error ("Error processing validator " ++ validator ++ ": " ++ message) ;;;
       ret (fallback validator)).

(** [Promise.all(validators.map(async ...))]: one row per validator, in the
    order of [validators].  The members of a batch run interleaved; their
    console lines are listed here in the order of the batch. *)
Fixpoint all (api : Api) (eraNumber : string) (nominatorsMap : Dict (list string))
    (validators : list AccountId) : M (list Row) :=
  match validators with
  | [] => ret []
  | validator :: rest =>
      row <- processValidator api eraNumber nominatorsMap validator ;;
      rows <- all api eraNumber nominatorsMap rest ;;
      ret (row :: rows)
  end.

Definition processValidatorsBatch (api : Api) (validators : list AccountId)
    (eraNumber : string) (nominatorsMap : Dict (list string)) : M (list Row) :=
  log ("Processing batch of " ++ show_nat (List.length validators) ++ " validators...") ;;;
  all api eraNumber nominatorsMap validators.

(** *** [getValidators] *)

(** [activeEra.unwrap().index.toString()]. *)
Definition activeEraNumber (api : Api) : M string :=
  activeEra <- await (query_staking_activeEra api) ;;
  match activeEra with
  | Some index => ret (digits index)
  | None => throw "Option: unwrapping a None value"
  end.

(** Create map of nominator => targets for quick lookup; an entry whose
    decoding throws is skipped. *)
Definition buildNominatorsMap (nominatorsData : list NominatorEntry) : Dict (list string) :=
  fold_left
    (fun nominatorsMap entry =>
       match key_arg entry, nominations entry with
       | Some nominator, Some targets => dict_set nominatorsMap nominator targets
       | _, _ => nominatorsMap (* Skip problematic nominators *)
       end)
    nominatorsData [].

(** The comparator of the final sort, as the test [> 0] on
    [parseFloat(b[...]) - parseFloat(a[...])]. *)
Definition byTotalActiveStake (a b : Row) : bool :=
  gtb (sub (parseFloat (Total_Active_Stake_DOT b)) (parseFloat (Total_Active_Stake_DOT a)))
      (of_Z 0).

(** Process validators in batches:
    [for (let i = 0; i < processValidators.length; i += batchSize)]. *)
Fixpoint batches (fuel : nat) (api : Api) (processValidators : list AccountId)
    (eraNumber : string) (nominatorsMap : Dict (list string))
    (i : nat) (results : list Row) : M (list Row) :=
  match fuel with
  | O => ret results
  | S fuel' =>
      if (i <? List.length processValidators)%nat then
        let batch := slice processValidators i (i + batchSize) in
        log ("Processing batch " ++ show_nat (i / batchSize + 1) ++ " of " ++
             show_nat ((List.length processValidators + batchSize - 1) / batchSize)) ;;;
        batchResults <- processValidatorsBatch api batch eraNumber nominatorsMap ;;
        let results := (results ++ batchResults)%list in
        log ("Completed batch " ++ show_nat (i / batchSize + 1)) ;;;
        batches fuel' api processValidators eraNumber nominatorsMap (i + batchSize) results
      else ret results
  end.

(** The path taken when the cache answers. *)
Definition fromCache (options : Options) (cachedData : list Row) : M unit :=
  log "Using cached validator data" ;;;
  (* If a specific validator is requested, filter the results *)
  if truthy_string (validator options) then
    let wanted := match validator options with Some v => v | None => EmptyString end in
    match find (fun v => String.eqb (Validator v) wanted) cachedData with
    | Some validatorData =>
        log (nl ++ "Validator Information:") ;;;
        table [validatorData]
    | None =>
        log ("Validator " ++ wanted ++ " not found in cache. Use --refresh to update data.")
    end
  else
    (* Apply limit if specified *)
    let displayData :=
      match limit options with
      | Some n => if truthy_int (limit options) then slice0 cachedData n else cachedData
      | None => cachedData
      end in
    table displayData.

(** The path taken for [--validator] when the cache does not answer. *)
Definition singleValidator (api : Api) (wanted : string) : M unit :=
  try_catch
    ((* Get active era *)
     eraNumber <- activeEraNumber api ;;
     log ("Active Era: " ++ eraNumber) ;;;
     (* Get all nominators data *)
     log "Loading nominators data..." ;;;
     nominatorsData <- await (query_staking_nominators_entries api) ;;
     log ("Found " ++ show_nat (List.length nominatorsData) ++
          " total nominators on the network") ;;;
     let nominatorsMap := buildNominatorsMap nominatorsData in
     (* Process the single validator *)
     results <- processValidatorsBatch api [wanted] eraNumber nominatorsMap ;;
     log (nl ++ "Validator Information:") ;;;
     table results ;;;
     (* Save to cache *)
     saveCache results)
    (fun message => error ("Error processing validator " ++ wanted ++ ": " ++ message)).

(** The path taken for the validator set when the cache does not answer. *)
Definition validatorSet (api : Api) (options : Options) : M unit :=
  (* Get the current validators *)
  validators <- await (query_session_validators api) ;;
  log ("Found " ++ show_nat (List.length validators) ++ " active validators") ;;;
  (* Get active era *)
  eraNumber <- activeEraNumber api ;;
  log ("Active Era: " ++ eraNumber) ;;;
  (* Set maximum validators to process *)
  let maxValidators :=
    match limit options with
    | Some n => if truthy_int (limit options) then n else maxValidators
    | None => maxValidators
    end in
  (* Limit validators if needed *)
  let processValidators :=
    if truthy_int (Some maxValidators) then slice0 validators maxValidators else validators in
  (* Pre-load all nominators data for efficiency *)
  log "Loading nominators data..." ;;;
  nominatorsData <- await (query_staking_nominators_entries api) ;;
  log ("Found " ++ show_nat (List.length nominatorsData) ++
       " total nominators on the network") ;;;
  let nominatorsMap := buildNominatorsMap nominatorsData in
  (* Process validators in batches to avoid timeout *)
  results <- batches (List.length processValidators) api processValidators
                     eraNumber nominatorsMap 0 [] ;;
  (* Sort results by total active stake (descending) *)
  let results := sort byTotalActiveStake results in
  log (nl ++ "Polkadot Validators Information:") ;;;
  (* Apply limit if specified *)
  let displayData :=
    match limit options with
    | Some n => if truthy_int (limit options) then slice0 results n else results
    | None => results
    end in
  table displayData ;;;
  (* Save results to cache *)
  saveCache results.

(** Disconnect from the network: the [finally] block.  [closing] is what
    [api.disconnect()] answers: the block awaits it without a handler, so a
    rejection leaves the block, and the lines after it are not reached. *)
Definition disconnect_answering (closing : response unit) : M unit :=
  api <- get_session ;;
  match api with
  | Some _ =>
      log "Disconnecting from network..." ;;;
      emit api_disconnect ;;;
      await closing ;;;
      set_session None ;;;
      log "Disconnected successfully"
  | None => ret tt
  end.

(** The block on a node that closes the connection when asked. *)
Definition disconnect : M unit := disconnect_answering (Resolved tt).

(** The [try { ... } catch (error) { ... }] of [getValidators]. *)
Definition fetch (options : Options) (net : Network) : M unit :=
  try_catch
    ((* Check cache first *)
     cachedData <- loadCache options ;;
     match cachedData with
     | Some cachedData => fromCache options cachedData
     | None =>
         (* Connect to Polkadot network *)
         api <- connectToNetwork net ;;
         (* If a specific validator is requested *)
         if truthy_string (validator options) then
           singleValidator api (match validator options with Some v => v | None => EmptyString end)
         else validatorSet api options
     end)
    (fun message => error_object "Error fetching validators:" message).

(** [getValidators] when [api.disconnect()] answers [closing]. *)
Definition getValidators_closing (closing : response unit)
    (options : Options) (net : Network) : M unit :=
  try_finally (fetch options net) (disconnect_answering closing).

(** [getValidators] on a node that closes the connection when asked. *)
Definition getValidators (options : Options) (net : Network) : M unit :=
  try_finally (fetch options net) disconnect.

End ValidatorCli.

(* ===================================================================== *)
(** ** The later script, from its command line *)
(* ===================================================================== *)

Module ValidatorCliMain.

Import JsNumber Chain Sys Sys.Notations Js.

(** [parseInt(text, 10)]: white space, an optional sign, then the longest run
    of decimal digits; [None] is the [NaN] returned when no digit is there,
    as for [undefined].  The integer is kept exact: the script uses it only
    as a truth value and as the end of a [slice], where the rounding of an
    integer of more than 53 bits changes nothing. *)
Definition parseInt (text : option string) : option Z :=
  match text with
  | None => None
  | Some text =>
      let s := skip_spaces text in
      let '(neg, s) :=
        match s with
        | String "-" t => (true, t)
        | String "+" t => (false, t)
        | _ => (false, s)
        end in
      let '(v, cnt, _) := span_digits s 0%N 0 in
      if Nat.eqb cnt 0 then None
      else Some (if neg then (- Z.of_N v)%Z else Z.of_N v)
  end.

(** [options] before the loop. *)
Definition options : ValidatorCli.Options :=
  {| ValidatorCli.limit := None; ValidatorCli.validator := None;
     ValidatorCli.refresh := false; ValidatorCli.help := false |}.

(** [arg === long || arg === short]. *)
Definition is_flag (arg long short : string) : bool :=
  orb (String.eqb arg long) (String.eqb arg short).

(** Parse command-line arguments: [for (let i = 0; i < args.length; i++)],
    where [args[++i]] takes the next argument as the value of the flag and
    steps over it; past the end it is [undefined]. *)
Fixpoint parseArguments (args : list string) (options : ValidatorCli.Options)
  : ValidatorCli.Options :=
  match args with
  | [] => options
  | arg :: rest =>
      if is_flag arg "--help" "-h" then
        parseArguments rest
          {| ValidatorCli.limit := ValidatorCli.limit options;
             ValidatorCli.validator := ValidatorCli.validator options;
             ValidatorCli.refresh := ValidatorCli.refresh options;
             ValidatorCli.help := true |}
      else if is_flag arg "--limit" "-l" then
        let value := match rest with v :: _ => Some v | [] => None end in
        let options :=
          {| ValidatorCli.limit := parseInt value;
             ValidatorCli.validator := ValidatorCli.validator options;
             ValidatorCli.refresh := ValidatorCli.refresh options;
             ValidatorCli.help := ValidatorCli.help options |} in
        match rest with
        | _ :: rest' => parseArguments rest' options
        | [] => options
        end
      else if is_flag arg "--validator" "-v" then
        let value := match rest with v :: _ => Some v | [] => None end in
        let options :=
          {| ValidatorCli.limit := ValidatorCli.limit options;
             ValidatorCli.validator := value;
             ValidatorCli.refresh := ValidatorCli.refresh options;
             ValidatorCli.help := ValidatorCli.help options |} in
        match rest with
        | _ :: rest' => parseArguments rest' options
        | [] => options
        end
      else if is_flag arg "--refresh" "-r" then
        parseArguments rest
          {| ValidatorCli.limit := ValidatorCli.limit options;
             ValidatorCli.validator := ValidatorCli.validator options;
             ValidatorCli.refresh := true;
             ValidatorCli.help := ValidatorCli.help options |}
      else parseArguments rest options
  end.

(** The text printed for [--help]. *)
Definition usage : string :=
  nl ++
  String.concat nl
    [ "Polkadot Validator Data CLI";
      EmptyString;
      "Usage:";
      "  node validator-cli.js [options]";
      EmptyString;
      "Options:";
      "  -h, --help       Show this help message";
      "  -l, --limit N    Limit the number of validators to process (default: 100)";
      "  -v, --validator  Specific validator address to analyze";
      "  -r, --refresh    Force refresh data (ignore cache)";
      EmptyString;
      "Examples:";
      "  # Show top 10 validators";
      "  node validator-cli.js --limit 10";
      "  ";
      "  # Analyze a specific validator";
      "  node validator-cli.js --validator 14zfiH2sMH955cG2yKUQbHSP3oQ8W4Ai9p9wSSZunvQ4TU4k";
      "  ";
      "  # Force cache refresh";
      "  node validator-cli.js --refresh";
      "    " ].

(** The script from top to bottom, on the arguments after the script name:
    with [help] it prints the usage and exits ([process.exit(0)]) before
    anything else runs; otherwise it runs the function.  [closing] is what
    [api.disconnect()] answers. *)
Definition main (closing : response unit) (args : list string) (net : Network) : M unit :=
  let options := parseArguments args options in
  if ValidatorCli.help options then log usage
  else ValidatorCli.getValidators_closing closing options net.

End ValidatorCliMain.

(* ===================================================================== *)
(** ** The earlier script: no options, one calibrated test validator *)
(* ===================================================================== *)

Module ValidatorScript.

Import JsNumber Chain Sys Sys.Notations Js.

(** *** [CONFIG] *)
Definition providers : list string := ValidatorCli.providers.
Definition batchSize : nat := 25.
Definition maxValidators : Z := 100.
Definition cacheFile : string := "./validator-cache.json".
Definition cacheTimeout : Z := 3600000.
Definition testValidator : string :=
  "14zfiH2sMH955cG2yKUQbHSP3oQ8W4Ai9p9wSSZunvQ4TU4k".
(** [CONFIG.expectedValues] *)
Definition expected_selfStake : number := decimal 216779411 4.
Definition expected_activeNomination : number := decimal 14269610985 4.
Definition expected_inactiveNomination : number := decimal 27834083835 4.
Definition expected_totalNomination : number := decimal 56429915436 4.

(** *** Cache helper functions *)

Definition loadCache : M (option (list Row)) :=
  try_catch
    (present <- existsSync cacheFile ;;
     if present then
       cacheData <- readFileSync_parse cacheFile ;;
       now <- Date_now ;;
       (* Check if cache is still valid *)
       match timestamp cacheData with
       | Some t =>
           if (now - t <? cacheTimeout)%Z then
             log "Loading data from cache..." ;;;
             ret (data cacheData)
           else ret None
       | None => ret None
       end
     else ret None)
    (fun message => error ("Error loading cache: " ++ message) ;;; ret None).

(** [saveCache] and [connectToNetwork] have the text of the later script. *)
Definition saveCache : list Row -> M unit := ValidatorCli.saveCache.
Definition connectToNetwork : Network -> M Api := ValidatorCli.connectToNetwork.

(** *** The estimate computed for one validator *)

Definition Estimate : Type := ValidatorCli.Estimate.

Definition estimate (isTestValidator : bool)
    (prefs : option ValidatorPrefs) (stakingInfo : option StakingAccount)
    (exposureData : Exposure) (targeting : list string) : Estimate :=
  (* Get self stake, commission, etc. *)
  let selfBond :=
    match stakingInfo with
    | Some {| stakingLedger := Some ledger |} => of_N (total ledger)
    | _ => of_Z 0
    end in
  let ownStake := div selfBond (of_Z (10 ^ 10)) in
  let commission :=
    match prefs with
    | Some p => let c := of_N (Chain.commission p) in if truthy c then c else of_Z 0
    | None => of_Z 0
    end in
  let commissionPct := div commission (of_Z 10000000) in
  (* Get active stake from exposure *)
  let activeStake :=
    fold_left (fun sum other => add sum (div (of_N (value other)) (of_Z (10 ^ 10))))
              (others exposureData) (of_Z 0) in
  (* Calculate inactive nominations *)
  let activeNominatorCount := List.length (others exposureData) in
  let totalNominatorCount := List.length targeting in
  let inactiveNominatorCount :=
    Z.max 0 (Z.of_nat totalNominatorCount - Z.of_nat activeNominatorCount) in
  (* Improved inactive stake estimation *)
  let '(inactiveMultiplier, inactiveStake) :=
    if andb (0 <? activeNominatorCount)%nat (0 <? inactiveNominatorCount)%Z then
      let avgActiveStakePerNominator := div activeStake (of_nat activeNominatorCount) in
      let inactiveMultiplier := ValidatorCli.tierMultiplier commissionPct in
      (* If test validator, use a special multiplier to match expected values *)
      let inactiveMultiplier :=
        if isTestValidator then
          let expectedInactive := expected_inactiveNomination in
          let idealMultiplier :=
            div expectedInactive
                (mul avgActiveStakePerNominator (of_Z inactiveNominatorCount)) in
          idealMultiplier
        else inactiveMultiplier in
      (Some inactiveMultiplier,
       mul (mul avgActiveStakePerNominator inactiveMultiplier) (of_Z inactiveNominatorCount))
    else (None, of_Z 0) in
  (* Calculate total nomination and total active stake *)
  let totalNomination := add activeStake inactiveStake in
  let totalActiveStake := add ownStake activeStake in
  {| ValidatorCli.ownStake := ownStake;
     ValidatorCli.commissionPct := commissionPct;
     ValidatorCli.activeStake := activeStake;
     ValidatorCli.activeNominatorCount := activeNominatorCount;
     ValidatorCli.totalNominatorCount := totalNominatorCount;
     ValidatorCli.inactiveNominatorCount := inactiveNominatorCount;
     ValidatorCli.inactiveMultiplier := inactiveMultiplier;
     ValidatorCli.inactiveStake := inactiveStake;
     ValidatorCli.totalNomination := totalNomination;
     ValidatorCli.totalActiveStake := totalActiveStake |}.

(** The percentage printed by the analysis: [((x / y) * 100).toFixed(2) + '%']. *)
Definition accuracy (x y : number) : string :=
  toFixed (mul (div x y) (of_Z 100)) 2 ++ "%".

(** What the test validator prints on the way: the calibrated multiplier
    (inside the estimation branch), then the detailed comparison. *)
Definition analysis (validatorAddress : string) (e : Estimate) : list string :=
  let calibrated :=
    match ValidatorCli.inactiveMultiplier e with
    | Some m => ["Using calibrated multiplier for test validator: " ++ toFixed m 4]
    | None => []
    end in
  List.app calibrated
   [nl ++ "Test Validator Analysis:";
    "Address: " ++ validatorAddress;
    "Self Stake (actual): " ++ toFixed (ValidatorCli.ownStake e) 4 ++ " DOT";
    "Self Stake (expected): " ++ toString expected_selfStake ++ " DOT";
    "Self Stake Accuracy: " ++ accuracy (ValidatorCli.ownStake e) expected_selfStake;
    "Active Nominators: " ++ show_nat (ValidatorCli.activeNominatorCount e);
    "Inactive Nominators: " ++ digits (Z.to_N (ValidatorCli.inactiveNominatorCount e));
    "Total Nominators: " ++ show_nat (ValidatorCli.totalNominatorCount e);
    "Active Nomination (actual): " ++ toFixed (ValidatorCli.activeStake e) 4 ++ " DOT";
    "Active Nomination (expected): " ++ toString expected_activeNomination ++ " DOT";
    "Active Nomination Accuracy: " ++
      accuracy (ValidatorCli.activeStake e) expected_activeNomination;
    "Inactive Nomination (estimated): " ++ toFixed (ValidatorCli.inactiveStake e) 4 ++ " DOT";
    "Inactive Nomination (expected): " ++ toString expected_inactiveNomination ++ " DOT";
    "Inactive Nomination Accuracy: " ++
      accuracy (ValidatorCli.inactiveStake e) expected_inactiveNomination;
    "Total Nomination (calculated): " ++ toFixed (ValidatorCli.totalNomination e) 4 ++ " DOT";
    "Total Nomination (expected): " ++ toString expected_totalNomination ++ " DOT";
    "Total Nomination Accuracy: " ++
      accuracy (ValidatorCli.totalNomination e) expected_totalNomination].

Fixpoint log_each (lines : list string) : M unit :=
  match lines with
  | [] => ret tt
  | line :: rest => log line ;;; log_each rest
  end.

Definition enrich (api : Api) (validator : AccountId) (eraNumber : string)
    (nominatorsMap : Dict (list string)) : M Estimate :=
  let validatorAddress := validator in
  let isTestValidator := String.eqb validatorAddress testValidator in
  (* Get validator preferences (fees) *)
  prefs <- await (query_staking_validators api validator) ;;
  (* Get staking info for the validator *)
  stakingInfo <- await (derive_staking_account api validator) ;;
  let targeting := ValidatorCli.targetingNominators nominatorsMap validatorAddress in
  (* Get the exposure data from the current era *)
  exposure <- await (query_staking_erasStakers api eraNumber validator) ;;
  let e := estimate isTestValidator prefs stakingInfo exposure targeting in
  (* For test validator, log detailed comparison *)
  (if isTestValidator then log_each (analysis validatorAddress e) else ret tt) ;;;
  ret e.

Definition processValidator (api : Api) (eraNumber : string)
    (nominatorsMap : Dict (list string)) (validator : AccountId) : M Row :=
  try_catch
    (e <- enrich api validator eraNumber nominatorsMap ;;
     ret (ValidatorCli.report validator e))
    (fun message =>
       error ("Error processing validator " ++ validator ++ ": " ++ message) ;;;
       ret (ValidatorCli.fallback validator)).

Fixpoint all (api : Api) (eraNumber : string) (nominatorsMap : Dict (list string))
    (validators : list AccountId) : M (list Row) :=
  match validators with
  | [] => ret []
  | validator :: rest =>
      row <- processValidator api eraNumber nominatorsMap validator ;;
      rows <- all api eraNumber nominatorsMap rest ;;
      ret (row :: rows)
  end.

Definition processValidatorsBatch (api : Api) (validators : list AccountId)
    (eraNumber : string) (nominatorsMap : Dict (list string)) : M (list Row) :=
  log ("Processing batch of " ++ show_nat (List.length validators) ++ " validators...") ;;;
  all api eraNumber nominatorsMap validators.

(** *** [getValidators] *)

Fixpoint batches (fuel : nat) (api : Api) (processValidators : list AccountId)
    (eraNumber : string) (nominatorsMap : Dict (list string))
    (i : nat) (results : list Row) : M (list Row) :=
  match fuel with
  | O => ret results
  | S fuel' =>
      if (i <? List.length processValidators)%nat then
        let batch := slice processValidators i (i + batchSize) in
        log ("Processing batch " ++ show_nat (i / batchSize + 1) ++ " of " ++
             show_nat ((List.length processValidators + batchSize - 1) / batchSize)) ;;;
        batchResults <- processValidatorsBatch api batch eraNumber nominatorsMap ;;
        let results := (results ++ batchResults)%list in
        log ("Completed batch " ++ show_nat (i / batchSize + 1)) ;;;
        batches fuel' api processValidators eraNumber nominatorsMap (i + batchSize) results
      else ret results
  end.

Definition validatorSet (api : Api) : M unit :=
  (* Get the current validators *)
  validators <- await (query_session_validators api) ;;
  log ("Found " ++ show_nat (List.length validators) ++ " active validators") ;;;
  (* Get active era *)
  eraNumber <- ValidatorCli.activeEraNumber api ;;
  log ("Active Era: " ++ eraNumber) ;;;
  (* Limit validators if needed *)
  let processValidators :=
    if truthy_int (Some maxValidators) then slice0 validators maxValidators else validators in
  (* Pre-load all nominators data for efficiency *)
  log "Loading nominators data..." ;;;
  nominatorsData <- await (query_staking_nominators_entries api) ;;
  log ("Found " ++ show_nat (List.length nominatorsData) ++
       " total nominators on the network") ;;;
  let nominatorsMap := ValidatorCli.buildNominatorsMap nominatorsData in
  (* Process validators in batches to avoid timeout *)
  results <- batches (List.length processValidators) api processValidators
                     eraNumber nominatorsMap 0 [] ;;
  (* Sort results by total active stake (descending) *)
  let results := sort ValidatorCli.byTotalActiveStake results in
  log (nl ++ "Polkadot Validators Information:") ;;;
  table results ;;;
  (* Save results to cache *)
  saveCache results.

(** The [try { ... } catch (error) { ... }] of [getValidators]. *)
Definition fetch (net : Network) : M unit :=
  try_catch
    ((* Check cache first *)
     cachedData <- loadCache ;;
     match cachedData with
     | Some cachedData =>
         log "Using cached validator data" ;;;
         table cachedData
     | None =>
         (* Connect to Polkadot network *)
         api <- connectToNetwork net ;;
         validatorSet api
     end)
    (fun message => error_object "Error fetching validators:" message).

(** [getValidators] when [api.disconnect()] answers [closing]; the [finally]
    block has the text of the later script. *)
Definition getValidators_closing (closing : response unit) (net : Network) : M unit :=
  try_finally (fetch net) (ValidatorCli.disconnect_answering closing).

(** [getValidators] on a node that closes the connection when asked. *)
Definition getValidators (net : Network) : M unit :=
  try_finally (fetch net) ValidatorCli.disconnect.

End ValidatorScript.

(* ===================================================================== *)
(** * Properties *)
(* ===================================================================== *)

Import JsNumber Chain Sys Sys.Notations Js.

(** ** The number model on well-known values *)

(** The literals of the estimator are the binary64 values JavaScript reads
    them as: [0.7] is [0x3FE6666666666666], and so on. *)
Example literal_0_6 : decimal 6 1 = S754_finite false 5404319552844595 (-53).
Proof. vm_compute. reflexivity. Qed.
Example literal_0_7 : decimal 7 1 = S754_finite false 6305039478318694 (-53).
Proof. vm_compute. reflexivity. Qed.
Example literal_0_8 : decimal 8 1 = S754_finite false 7205759403792794 (-53).
Proof. vm_compute. reflexivity. Qed.
Example literal_by_division : decimal 7 1 = div (of_Z 7) (of_Z 10).
Proof. vm_compute. reflexivity. Qed.

(** [0.1 + 0.2], [(1.005).toFixed(2)], [(1.25).toFixed(1)], [2 ** 70] and
    [parseFloat] print as they do in JavaScript. *)
Example sum_of_tenths : toString (add (decimal 1 1) (decimal 2 1)) = "0.30000000000000004".
Proof. vm_compute. reflexivity. Qed.
Example toFixed_rounds_the_binary_value : toFixed (decimal 1005 3) 2 = "1.00".
Proof. vm_compute. reflexivity. Qed.
Example toFixed_tie_goes_up : toFixed (decimal 125 2) 1 = "1.3".
Proof. vm_compute. reflexivity. Qed.
Example toString_large : toString (of_Z (2 ^ 70)) = "1.1805916207174113e+21".
Proof. vm_compute. reflexivity. Qed.
Example parseFloat_prefix : toString (parseFloat "  -12.5e3 DOT") = "-12500".
Proof. vm_compute. reflexivity. Qed.
Example parseFloat_amount : parseFloat "1100.0000" = of_Z 1100.
Proof. vm_compute. reflexivity. Qed.

(** ** The estimator *)

Section EstimatorCounts.

Variables (prefs : option ValidatorPrefs) (stakingInfo : option StakingAccount)
          (exposureData : Exposure) (targeting : list string).

Let condition : bool :=
  andb (0 <? List.length (others exposureData))%nat
       (0 <? Z.max 0 (Z.of_nat (List.length targeting)
                      - Z.of_nat (List.length (others exposureData))))%Z.

Lemma cli_counts :
  let e := ValidatorCli.estimate prefs stakingInfo exposureData targeting in
  ValidatorCli.activeNominatorCount e = List.length (others exposureData) /\
  ValidatorCli.totalNominatorCount e = List.length targeting /\
  ValidatorCli.inactiveNominatorCount e =
    Z.max 0 (Z.of_nat (List.length targeting) - Z.of_nat (List.length (others exposureData))).
Proof.
  unfold ValidatorCli.estimate.
  destruct (andb _ _); cbn [ValidatorCli.activeNominatorCount
    ValidatorCli.totalNominatorCount ValidatorCli.inactiveNominatorCount];
    repeat split.
Qed.

Lemma script_counts (isTestValidator : bool) :
  let e := ValidatorScript.estimate isTestValidator prefs stakingInfo exposureData targeting in
  ValidatorCli.activeNominatorCount e = List.length (others exposureData) /\
  ValidatorCli.totalNominatorCount e = List.length targeting /\
  ValidatorCli.inactiveNominatorCount e =
    Z.max 0 (Z.of_nat (List.length targeting) - Z.of_nat (List.length (others exposureData))).
Proof.
  unfold ValidatorScript.estimate.
  destruct (andb _ _); cbn [ValidatorCli.activeNominatorCount
    ValidatorCli.totalNominatorCount ValidatorCli.inactiveNominatorCount];
    repeat split.
Qed.

(** Outside the estimation branch nothing is estimated. *)
Lemma cli_branch_skipped :
  condition = false ->
  let e := ValidatorCli.estimate prefs stakingInfo exposureData targeting in
  ValidatorCli.inactiveStake e = of_Z 0 /\ ValidatorCli.inactiveMultiplier e = None.
Proof.
  unfold condition, ValidatorCli.estimate. intros ->.
  cbn [ValidatorCli.inactiveStake ValidatorCli.inactiveMultiplier]. split; reflexivity.
Qed.

Lemma script_branch_skipped (isTestValidator : bool) :
  condition = false ->
  let e := ValidatorScript.estimate isTestValidator prefs stakingInfo exposureData targeting in
  ValidatorCli.inactiveStake e = of_Z 0 /\ ValidatorCli.inactiveMultiplier e = None.
Proof.
  unfold condition, ValidatorScript.estimate. intros ->.
  cbn [ValidatorCli.inactiveStake ValidatorCli.inactiveMultiplier]. split; reflexivity.
Qed.

(** Inside it, the later script applies the tier multiplier, whoever the
    validator is; the earlier script does so for every validator but the
    test validator. *)
Lemma cli_branch_taken :
  condition = true ->
  let e := ValidatorCli.estimate prefs stakingInfo exposureData targeting in
  ValidatorCli.inactiveMultiplier e =
    Some (ValidatorCli.tierMultiplier (ValidatorCli.commissionPct e)).
Proof.
  unfold condition, ValidatorCli.estimate. intros ->.
  cbn [ValidatorCli.inactiveMultiplier ValidatorCli.commissionPct]. reflexivity.
Qed.

Lemma script_branch_taken :
  condition = true ->
  let e := ValidatorScript.estimate false prefs stakingInfo exposureData targeting in
  ValidatorCli.inactiveMultiplier e =
    Some (ValidatorCli.tierMultiplier (ValidatorCli.commissionPct e)).
Proof.
  unfold condition, ValidatorScript.estimate. intros ->.
  cbn [ValidatorCli.inactiveMultiplier ValidatorCli.commissionPct]. reflexivity.
Qed.

End EstimatorCounts.

(** ** Running computations *)

(** The world after more events. *)
Definition append_trace (w : World) (evs : list Event) : World :=
  {| files := files w; disk := disk w; clock := clock w;
     session := session w; trace := (trace w ++ evs)%list |}.

Lemma append_trace_nil w : append_trace w [] = w.
Proof. destruct w; unfold append_trace; cbn. now rewrite app_nil_r. Qed.

Lemma append_trace_app w a b :
  append_trace (append_trace w a) b = append_trace w (a ++ b)%list.
Proof. unfold append_trace; cbn. now rewrite app_assoc. Qed.

Lemma emit_run e w : emit e w = (Normal tt, append_trace w [e]).
Proof. reflexivity. Qed.

Lemma log_run text w : Sys.log text w = (Normal tt, append_trace w [console_log text]).
Proof. reflexivity. Qed.

Lemma error_run text w : Sys.error text w = (Normal tt, append_trace w [console_error text]).
Proof. reflexivity. Qed.

Lemma error_object_run text message w :
  Sys.error_object text message w =
  (Normal tt, append_trace w [console_error_object text message]).
Proof. reflexivity. Qed.

Lemma bind_run {A B} (c : M A) (k : A -> M B) w :
  bind c k w = match c w with
               | (Normal a, w') => k a w'
               | (Thrown e, w') => (Thrown e, w')
               end.
Proof. reflexivity. Qed.

Lemma log_each_run lines w :
  ValidatorScript.log_each lines w = (Normal tt, append_trace w (map console_log lines)).
Proof.
  revert w. induction lines as [|line rest IH]; intro w; cbn [ValidatorScript.log_each map].
  - now rewrite append_trace_nil.
  - rewrite bind_run, log_run, IH, append_trace_app. reflexivity.
Qed.

(** *** One validator *)

(** The answers to the three queries of a validator, when all resolve; the
    message of the first rejection otherwise. *)
Definition answers (api : Api) (eraNumber : string) (validator : AccountId)
  : (option ValidatorPrefs * option StakingAccount * Exposure) + string :=
  match query_staking_validators api validator with
  | Rejected m => inr m
  | Resolved prefs =>
      match derive_staking_account api validator with
      | Rejected m => inr m
      | Resolved stakingInfo =>
          match query_staking_erasStakers api eraNumber validator with
          | Rejected m => inr m
          | Resolved exposure => inl (prefs, stakingInfo, exposure)
          end
      end
  end.

Section OneValidator.

Variables (api : Api) (eraNumber : string) (nominatorsMap : Dict (list string))
          (validator : AccountId).

Let targeting := ValidatorCli.targetingNominators nominatorsMap validator.

Lemma cli_enrich_run w :
  ValidatorCli.enrich api validator eraNumber nominatorsMap w =
  match answers api eraNumber validator with
  | inl (prefs, stakingInfo, exposure) =>
      (Normal (ValidatorCli.estimate prefs stakingInfo exposure targeting), w)
  | inr m => (Thrown m, w)
  end.
Proof.
  unfold ValidatorCli.enrich, answers, targeting.
  rewrite bind_run.
  destruct (query_staking_validators api validator); cbn [await]; [|reflexivity].
  unfold ret at 1. rewrite bind_run.
  destruct (derive_staking_account api validator); cbn [await]; [|reflexivity].
  unfold ret at 1. rewrite bind_run.
  destruct (query_staking_erasStakers api eraNumber validator); cbn [await]; reflexivity.
Qed.

Lemma cli_processValidator_run w :
  ValidatorCli.processValidator api eraNumber nominatorsMap validator w =
  match answers api eraNumber validator with
  | inl (prefs, stakingInfo, exposure) =>
      (Normal (ValidatorCli.report validator
                 (ValidatorCli.estimate prefs stakingInfo exposure targeting)), w)
  | inr m =>
      (Normal (ValidatorCli.fallback validator),
       append_trace w [console_error ("Error processing validator " ++ validator ++ ": " ++ m)])
  end.
Proof.
  unfold ValidatorCli.processValidator, try_catch.
  rewrite bind_run, cli_enrich_run.
  destruct (answers api eraNumber validator) as [[[p s] x]|m]; reflexivity.
Qed.

Let isTestValidator := String.eqb validator ValidatorScript.testValidator.

Lemma script_enrich_run w :
  ValidatorScript.enrich api validator eraNumber nominatorsMap w =
  match answers api eraNumber validator with
  | inl (prefs, stakingInfo, exposure) =>
      let e := ValidatorScript.estimate isTestValidator prefs stakingInfo exposure targeting in
      (Normal e,
       append_trace w (if isTestValidator
                       then map console_log (ValidatorScript.analysis validator e)
                       else []))
  | inr m => (Thrown m, w)
  end.
Proof.
  unfold ValidatorScript.enrich, answers, targeting, isTestValidator.
  rewrite bind_run.
  destruct (query_staking_validators api validator); cbn [await]; [|reflexivity].
  unfold ret at 1. rewrite bind_run.
  destruct (derive_staking_account api validator); cbn [await]; [|reflexivity].
  unfold ret at 1. rewrite bind_run.
  destruct (query_staking_erasStakers api eraNumber validator); cbn [await]; [|reflexivity].
  unfold ret at 1. rewrite bind_run.
  destruct (String.eqb validator ValidatorScript.testValidator).
  - rewrite log_each_run. reflexivity.
  - unfold ret. now rewrite append_trace_nil.
Qed.

Lemma script_processValidator_run w :
  ValidatorScript.processValidator api eraNumber nominatorsMap validator w =
  match answers api eraNumber validator with
  | inl (prefs, stakingInfo, exposure) =>
      let e := ValidatorScript.estimate isTestValidator prefs stakingInfo exposure targeting in
      (Normal (ValidatorCli.report validator e),
       append_trace w (if isTestValidator
                       then map console_log (ValidatorScript.analysis validator e)
                       else []))
  | inr m =>
      (Normal (ValidatorCli.fallback validator),
       append_trace w [console_error ("Error processing validator " ++ validator ++ ": " ++ m)])
  end.
Proof.
  unfold ValidatorScript.processValidator, try_catch.
  rewrite bind_run, script_enrich_run.
  destruct (answers api eraNumber validator) as [[[p s] x]|m]; reflexivity.
Qed.

End OneValidator.

(** *** A batch, and the loop over the batches *)

(** Console text only: nothing displayed as a table, no file or network
    operation. *)
Definition console_text (e : Event) : Prop :=
  match e with
  | console_log _ | console_error _ | console_error_object _ _ => True
  | _ => False
  end.

Lemma console_text_app a b :
  Forall console_text a -> Forall console_text b -> Forall console_text (a ++ b)%list.
Proof. intros; apply Forall_app; now split. Qed.

Lemma console_text_logs lines : Forall console_text (map console_log lines).
Proof. induction lines; cbn; constructor; cbn; auto. Qed.

Create HintDb trace.
#[local] Hint Resolve console_text_app console_text_logs : trace.

Lemma slice_batch {A} (xs : list A) i n :
  (slice xs i (i + n) ++ skipn (i + n) xs)%list = skipn i xs.
Proof.
  unfold slice. replace (i + n - i)%nat with n by lia.
  rewrite Nat.add_comm, <- skipn_skipn. apply firstn_skipn.
Qed.

Section Batches.

Variables (api : Api) (eraNumber : string) (nominatorsMap : Dict (list string)).

(** The row of a validator: the estimate rendered when the three queries
    resolve, the zero row as soon as one rejects. *)
Definition cli_row (validator : AccountId) : Row :=
  match answers api eraNumber validator with
  | inl (prefs, stakingInfo, exposure) =>
      ValidatorCli.report validator
        (ValidatorCli.estimate prefs stakingInfo exposure
           (ValidatorCli.targetingNominators nominatorsMap validator))
  | inr _ => ValidatorCli.fallback validator
  end.

Definition script_row (validator : AccountId) : Row :=
  match answers api eraNumber validator with
  | inl (prefs, stakingInfo, exposure) =>
      ValidatorCli.report validator
        (ValidatorScript.estimate (String.eqb validator ValidatorScript.testValidator)
           prefs stakingInfo exposure
           (ValidatorCli.targetingNominators nominatorsMap validator))
  | inr _ => ValidatorCli.fallback validator
  end.

Lemma cli_processValidator_row validator w :
  exists evs,
    ValidatorCli.processValidator api eraNumber nominatorsMap validator w =
      (Normal (cli_row validator), append_trace w evs) /\
    Forall console_text evs.
Proof.
  rewrite cli_processValidator_run. unfold cli_row.
  destruct (answers api eraNumber validator) as [[[p s] x]|m].
  - exists []. rewrite append_trace_nil. split; [reflexivity|constructor].
  - eexists. split; [reflexivity|]. repeat constructor.
Qed.

Lemma script_processValidator_row validator w :
  exists evs,
    ValidatorScript.processValidator api eraNumber nominatorsMap validator w =
      (Normal (script_row validator), append_trace w evs) /\
    Forall console_text evs.
Proof.
  rewrite script_processValidator_run. unfold script_row.
  destruct (answers api eraNumber validator) as [[[p s] x]|m].
  - eexists. split; [reflexivity|].
    destruct (String.eqb validator ValidatorScript.testValidator); auto with trace.
  - eexists. split; [reflexivity|]. repeat constructor.
Qed.

Lemma cli_all_run validators : forall w,
  exists evs,
    ValidatorCli.all api eraNumber nominatorsMap validators w =
      (Normal (map cli_row validators), append_trace w evs) /\
    Forall console_text evs.
Proof.
  induction validators as [|v rest IH]; intro w; cbn [ValidatorCli.all map].
  - exists []. rewrite append_trace_nil. split; [reflexivity|constructor].
  - destruct (cli_processValidator_row v w) as (e1 & H1 & T1).
    destruct (IH (append_trace w e1)) as (e2 & H2 & T2).
    exists (e1 ++ e2)%list. split; [|auto with trace].
    rewrite bind_run, H1, bind_run, H2, append_trace_app. reflexivity.
Qed.

Lemma script_all_run validators : forall w,
  exists evs,
    ValidatorScript.all api eraNumber nominatorsMap validators w =
      (Normal (map script_row validators), append_trace w evs) /\
    Forall console_text evs.
Proof.
  induction validators as [|v rest IH]; intro w; cbn [ValidatorScript.all map].
  - exists []. rewrite append_trace_nil. split; [reflexivity|constructor].
  - destruct (script_processValidator_row v w) as (e1 & H1 & T1).
    destruct (IH (append_trace w e1)) as (e2 & H2 & T2).
    exists (e1 ++ e2)%list. split; [|auto with trace].
    rewrite bind_run, H1, bind_run, H2, append_trace_app. reflexivity.
Qed.

Lemma cli_processValidatorsBatch_run validators w :
  exists evs,
    ValidatorCli.processValidatorsBatch api validators eraNumber nominatorsMap w =
      (Normal (map cli_row validators), append_trace w evs) /\
    Forall console_text evs.
Proof.
  unfold ValidatorCli.processValidatorsBatch.
  rewrite bind_run, log_run.
  destruct (cli_all_run validators (append_trace w
    [console_log ("Processing batch of " ++ show_nat (List.length validators)
                  ++ " validators...")])) as (evs & H & T).
  eexists. rewrite H, append_trace_app. split; [reflexivity|].
  constructor; cbn; auto.
Qed.

Lemma script_processValidatorsBatch_run validators w :
  exists evs,
    ValidatorScript.processValidatorsBatch api validators eraNumber nominatorsMap w =
      (Normal (map script_row validators), append_trace w evs) /\
    Forall console_text evs.
Proof.
  unfold ValidatorScript.processValidatorsBatch.
  rewrite bind_run, log_run.
  destruct (script_all_run validators (append_trace w
    [console_log ("Processing batch of " ++ show_nat (List.length validators)
                  ++ " validators...")])) as (evs & H & T).
  eexists. rewrite H, append_trace_app. split; [reflexivity|].
  constructor; cbn; auto.
Qed.

(** With the fuel [getValidators] gives it, the loop ends by its own test,
    having processed every validator from index [i] on, in order. *)
Lemma cli_batches_run processValidators : forall fuel i results w,
  (List.length processValidators <= i + fuel)%nat ->
  exists evs,
    ValidatorCli.batches fuel api processValidators eraNumber nominatorsMap i results w =
      (Normal (results ++ map cli_row (skipn i processValidators))%list,
       append_trace w evs) /\
    Forall console_text evs.
Proof.
  induction fuel as [|fuel IH]; intros i results w Hfuel; cbn [ValidatorCli.batches].
  - exists []. rewrite append_trace_nil, skipn_all2 by lia. cbn [map].
    rewrite app_nil_r. split; [reflexivity|constructor].
  - destruct (Nat.ltb_spec i (List.length processValidators)) as [Hlt|Hge].
    + rewrite bind_run, log_run, bind_run.
      match goal with |- context [ValidatorCli.processValidatorsBatch _ ?b _ _ ?w0] =>
        destruct (cli_processValidatorsBatch_run b w0) as (e1 & H1 & T1) end.
      rewrite H1, bind_run, log_run.
      match goal with |- context [ValidatorCli.batches _ _ _ _ _ ?j ?r ?w0] =>
        destruct (IH j r w0) as (e2 & H2 & T2) end.
      { unfold ValidatorCli.batchSize. lia. }
      rewrite H2, !append_trace_app.
      eexists. split.
      * rewrite <- app_assoc, <- map_app, slice_batch. reflexivity.
      * repeat (apply console_text_app); auto; repeat constructor.
    + exists []. rewrite append_trace_nil, skipn_all2 by lia. cbn [map].
      rewrite app_nil_r. split; [reflexivity|constructor].
Qed.

Lemma script_batches_run processValidators : forall fuel i results w,
  (List.length processValidators <= i + fuel)%nat ->
  exists evs,
    ValidatorScript.batches fuel api processValidators eraNumber nominatorsMap i results w =
      (Normal (results ++ map script_row (skipn i processValidators))%list,
       append_trace w evs) /\
    Forall console_text evs.
Proof.
  induction fuel as [|fuel IH]; intros i results w Hfuel; cbn [ValidatorScript.batches].
  - exists []. rewrite append_trace_nil, skipn_all2 by lia. cbn [map].
    rewrite app_nil_r. split; [reflexivity|constructor].
  - destruct (Nat.ltb_spec i (List.length processValidators)) as [Hlt|Hge].
    + rewrite bind_run, log_run, bind_run.
      match goal with |- context [ValidatorScript.processValidatorsBatch _ ?b _ _ ?w0] =>
        destruct (script_processValidatorsBatch_run b w0) as (e1 & H1 & T1) end.
      rewrite H1, bind_run, log_run.
      match goal with |- context [ValidatorScript.batches _ _ _ _ _ ?j ?r ?w0] =>
        destruct (IH j r w0) as (e2 & H2 & T2) end.
      { unfold ValidatorScript.batchSize. lia. }
      rewrite H2, !append_trace_app.
      eexists. split.
      * rewrite <- app_assoc, <- map_app, slice_batch. reflexivity.
      * repeat (apply console_text_app); auto; repeat constructor.
    + exists []. rewrite append_trace_nil, skipn_all2 by lia. cbn [map].
      rewrite app_nil_r. split; [reflexivity|constructor].
Qed.

End Batches.

(* ===================================================================== *)
(** * The claims *)
(* ===================================================================== *)

(** ** C1: active and total nominator counts *)

(** The exposure of the counterexample: two active nominators, none of them
    in the nominator registry. *)
Definition two_unindexed : Exposure :=
  {| exposure_total := 20000000000000; own := 0;
     others := [ {| who := "n1"; value := 10000000000000 |};
                 {| who := "n2"; value := 10000000000000 |} ] |}.

(** C1, as stated, fails: with two active nominators in the exposure and an
    empty nominator map, the row of validator-cli.js reads [2/0]: the active
    count exceeds the total count. *)
Lemma active_count_exceeds_total :
  let e := ValidatorCli.estimate None None two_unindexed
             (ValidatorCli.targetingNominators [] "V") in
  ValidatorCli.activeNominatorCount e = 2%nat /\
  ValidatorCli.totalNominatorCount e = 0%nat /\
  ~ (ValidatorCli.activeNominatorCount e <= ValidatorCli.totalNominatorCount e)%nat /\
  Nominators_Active_Total (ValidatorCli.report "V" e) = "2/0".
Proof.
  cbv zeta. repeat split; try reflexivity.
  vm_compute. lia.
Qed.

(** C1, amended: for every estimate, in both scripts, the active count is
    the length of [exposure.others], the total count is the number of map
    entries that target the validator, the inactive count is their
    difference clamped at zero, [max(0, total - active)], and the row shows
    the two counts as they are, [active/total], with no clamp on the active
    count.  The active count stays within the total count when the
    nominators of the exposure are distinct and each of them has a map entry
    that targets the validator; the inactive count is then the plain
    difference.  The zero row of a failed validator reads [0/0]. *)
Theorem active_le_total_when_indexed
    (prefs : option ValidatorPrefs) (stakingInfo : option StakingAccount)
    (exposureData : Exposure) (nominatorsMap : Dict (list string))
    (validator : AccountId) (isTestValidator : bool) :
  let targeting := ValidatorCli.targetingNominators nominatorsMap validator in
  let active := List.length (others exposureData) in
  let total := List.length targeting in
  let e := ValidatorCli.estimate prefs stakingInfo exposureData targeting in
  let e' := ValidatorScript.estimate isTestValidator prefs stakingInfo exposureData targeting in
  (ValidatorCli.activeNominatorCount e = active /\
   ValidatorCli.totalNominatorCount e = total /\
   ValidatorCli.inactiveNominatorCount e = Z.max 0 (Z.of_nat total - Z.of_nat active) /\
   Nominators_Active_Total (ValidatorCli.report validator e)
     = show_nat active ++ "/" ++ show_nat total) /\
  (ValidatorCli.activeNominatorCount e' = active /\
   ValidatorCli.totalNominatorCount e' = total /\
   ValidatorCli.inactiveNominatorCount e' = Z.max 0 (Z.of_nat total - Z.of_nat active) /\
   Nominators_Active_Total (ValidatorCli.report validator e')
     = show_nat active ++ "/" ++ show_nat total) /\
  ((total < active)%nat ->
   ValidatorCli.inactiveNominatorCount e = 0%Z /\
   ValidatorCli.inactiveNominatorCount e' = 0%Z) /\
  (NoDup (map who (others exposureData)) ->
   incl (map who (others exposureData)) targeting ->
   (active <= total)%nat /\
   ValidatorCli.inactiveNominatorCount e = (Z.of_nat total - Z.of_nat active)%Z /\
   ValidatorCli.inactiveNominatorCount e' = (Z.of_nat total - Z.of_nat active)%Z) /\
  Nominators_Active_Total (ValidatorCli.fallback validator) = "0/0".
Proof.
  intros targeting active total e e'.
  destruct (cli_counts prefs stakingInfo exposureData targeting) as (Ha & Ht & Hi).
  destruct (script_counts prefs stakingInfo exposureData targeting isTestValidator)
    as (Ha' & Ht' & Hi').
  fold e in Ha, Ht, Hi. fold e' in Ha', Ht', Hi'. fold active total in Hi, Hi'.
  split; [|split; [|split; [|split]]].
  - repeat split; try assumption.
    unfold ValidatorCli.report. cbn [Nominators_Active_Total]. now rewrite Ha, Ht.
  - repeat split; try assumption.
    unfold ValidatorCli.report. cbn [Nominators_Active_Total]. now rewrite Ha', Ht'.
  - intro Hlt. rewrite Hi, Hi'. split; lia.
  - intros Hdistinct Hindexed.
    assert (Hle : (active <= total)%nat).
    { unfold active, total. rewrite <- (length_map who). now apply NoDup_incl_length. }
    rewrite Hi, Hi'. repeat split; lia.
  - reflexivity.
Qed.

(** One active nominator, indexed twice over. *)
Definition one_indexed : Exposure :=
  {| exposure_total := 10000000000000; own := 0;
     others := [ {| who := "n1"; value := 10000000000000 |} ] |}.
Definition small_registry : Dict (list string) :=
  [("n1", ["V"]); ("n2", ["V"; "W"]); ("n3", ["W"])].

Lemma active_le_total_when_indexed_witness :
  (NoDup (map who (others one_indexed)) /\
   incl (map who (others one_indexed)) (ValidatorCli.targetingNominators small_registry "V") /\
   let e := ValidatorCli.estimate None None one_indexed
              (ValidatorCli.targetingNominators small_registry "V") in
   ValidatorCli.activeNominatorCount e = 1%nat /\
   ValidatorCli.totalNominatorCount e = 2%nat /\
   ValidatorCli.inactiveNominatorCount e = 1%Z /\
   Nominators_Active_Total (ValidatorCli.report "V" e) = "1/2") /\
  (let e := ValidatorCli.estimate None None two_unindexed
              (ValidatorCli.targetingNominators [] "V") in
   (List.length (ValidatorCli.targetingNominators [] "V")
    < List.length (others two_unindexed))%nat /\
   ValidatorCli.inactiveNominatorCount e = 0%Z /\
   Nominators_Active_Total (ValidatorCli.report "V" e) = "2/0").
Proof.
  assert (H1 : NoDup (map who (others one_indexed))).
  { repeat constructor. cbn. tauto. }
  assert (H2 : incl (map who (others one_indexed))
                    (ValidatorCli.targetingNominators small_registry "V")).
  { intros a [<-|[]]. vm_compute. tauto. }
  assert (H3 : (List.length (ValidatorCli.targetingNominators [] "V")
                < List.length (others two_unindexed))%nat) by (cbn; lia).
  destruct (active_le_total_when_indexed None None one_indexed small_registry "V" false)
    as ((Ha & Ht & _ & Hrow) & _ & _ & Hindexed & _).
  destruct (Hindexed H1 H2) as (_ & Hi & _).
  destruct (active_le_total_when_indexed None None two_unindexed [] "V" false)
    as ((_ & _ & _ & Hrow') & _ & Hclamp & _).
  destruct (Hclamp H3) as (Hzero & _).
  split.
  - split; [exact H1|]. split; [exact H2|].
    split; [exact Ha|]. split; [exact Ht|]. split; [exact Hi | exact Hrow].
  - split; [exact H3|]. split; [exact Hzero | exact Hrow'].
Defined.

(** ** C2: the worked scenario *)

(** C2: one active nominator with 1000 tokens, a ledger total of 100 tokens
    (the script reads the self stake from the staking ledger), three
    nominators targeting the validator and a commission of 5%: for every
    validator, validator-cli.js returns the row with active 1000.0000,
    inactive 1400.0000, total nomination 2400.0000, total active stake
    1100.0000 and 1/3 nominators; two nominators are inactive and the
    multiplier is 0.7.  The values are those of binary64 arithmetic, digit
    for digit. *)
Theorem scenario_one_active_of_three
    (api : Api) (eraNumber : string) (nominatorsMap : Dict (list string))
    (validator : AccountId) (nominator : AccountId) (exposure_total : N) (w : World) :
  let prefs := Some {| commission := 50000000 |} in
  let stakingInfo := Some {| stakingLedger := Some {| total := 1000000000000 |} |} in
  let exposureData :=
    {| Chain.exposure_total := exposure_total; own := 1000000000000;
       others := [ {| who := nominator; value := 10000000000000 |} ] |} in
  let targeting := ValidatorCli.targetingNominators nominatorsMap validator in
  let e := ValidatorCli.estimate prefs stakingInfo exposureData targeting in
  let row := ValidatorCli.report validator e in
  answers api eraNumber validator = inl (prefs, stakingInfo, exposureData) ->
  List.length targeting = 3%nat ->
  ValidatorCli.processValidator api eraNumber nominatorsMap validator w = (Normal row, w) /\
  Active_Nomination_DOT row = "1000.0000" /\
  ValidatorCli.activeNominatorCount e = 1%nat /\
  ValidatorCli.inactiveNominatorCount e = 2%Z /\
  ValidatorCli.inactiveMultiplier e = Some (decimal 7 1) /\
  Inactive_Nomination_DOT row = "1400.0000" /\
  Total_Nomination_DOT row = "2400.0000" /\
  Total_Active_Stake_DOT row = "1100.0000" /\
  Self_Bond_DOT row = "100.0000" /\
  Commission_pct row = "5.00" /\
  Nominators_Active_Total row = "1/3".
Proof.
  intros prefs stakingInfo exposureData targeting e row Hanswers Hlen.
  split.
  - rewrite cli_processValidator_run, Hanswers. reflexivity.
  - unfold row, e. clearbody targeting.
    destruct targeting as [|a [|b [|c [|d rest]]]]; try discriminate Hlen.
    repeat split; vm_compute; reflexivity.
Qed.

(** ** C6: nothing is estimated without both kinds of nominators *)

(** C6: whenever the active count or the inactive count of an estimate is
    zero, its inactive stake is the number 0 and the row shows [0.0000],
    whatever the commission, the stakes and the validator.  The earlier
    script counts the same way and gives the same zero, the test validator
    included. *)
Theorem inactive_stake_zero
    (prefs : option ValidatorPrefs) (stakingInfo : option StakingAccount)
    (exposureData : Exposure) (targeting : list string)
    (validator : AccountId) (isTestValidator : bool) :
  let e := ValidatorCli.estimate prefs stakingInfo exposureData targeting in
  let e' := ValidatorScript.estimate isTestValidator prefs stakingInfo exposureData targeting in
  ValidatorCli.activeNominatorCount e = 0%nat \/
  ValidatorCli.inactiveNominatorCount e = 0%Z ->
  (ValidatorCli.inactiveStake e = of_Z 0 /\
   Inactive_Nomination_DOT (ValidatorCli.report validator e) = "0.0000") /\
  (ValidatorCli.activeNominatorCount e' = ValidatorCli.activeNominatorCount e /\
   ValidatorCli.inactiveNominatorCount e' = ValidatorCli.inactiveNominatorCount e /\
   ValidatorCli.inactiveStake e' = of_Z 0 /\
   Inactive_Nomination_DOT (ValidatorCli.report validator e') = "0.0000").
Proof.
  intros e e' Hzero.
  destruct (cli_counts prefs stakingInfo exposureData targeting) as (Ha & _ & Hi).
  destruct (script_counts prefs stakingInfo exposureData targeting isTestValidator)
    as (Ha' & _ & Hi').
  fold e in Ha, Hi. fold e' in Ha', Hi'.
  assert (Hskip : andb (0 <? List.length (others exposureData))%nat
                       (0 <? Z.max 0 (Z.of_nat (List.length targeting)
                              - Z.of_nat (List.length (others exposureData))))%Z = false).
  { rewrite <- Hi, <- Ha.
    destruct Hzero as [-> | ->]; [reflexivity | apply andb_false_r]. }
  assert (Hz : ValidatorCli.inactiveStake e = of_Z 0)
    by (now apply cli_branch_skipped).
  assert (Hz' : ValidatorCli.inactiveStake e' = of_Z 0)
    by (now apply script_branch_skipped).
  repeat split; try assumption; try congruence.
  - unfold ValidatorCli.report; cbn [Inactive_Nomination_DOT]. now rewrite Hz.
  - unfold ValidatorCli.report; cbn [Inactive_Nomination_DOT]. now rewrite Hz'.
Qed.

Lemma inactive_stake_zero_witness :
  (ValidatorCli.activeNominatorCount
     (ValidatorCli.estimate (Some {| commission := 200000000 |}) None one_indexed ["n1"])
     = 0%nat \/
   ValidatorCli.inactiveNominatorCount
     (ValidatorCli.estimate (Some {| commission := 200000000 |}) None one_indexed ["n1"])
     = 0%Z) /\
  ValidatorCli.inactiveStake
    (ValidatorCli.estimate (Some {| commission := 200000000 |}) None one_indexed ["n1"])
    = of_Z 0.
Proof.
  assert (H : ValidatorCli.activeNominatorCount
     (ValidatorCli.estimate (Some {| commission := 200000000 |}) None one_indexed ["n1"])
     = 0%nat \/
   ValidatorCli.inactiveNominatorCount
     (ValidatorCli.estimate (Some {| commission := 200000000 |}) None one_indexed ["n1"])
     = 0%Z) by (right; reflexivity).
  split; [exact H|].
  exact (proj1 (proj1
    (inactive_stake_zero (Some {| commission := 200000000 |}) None one_indexed ["n1"]
       "V" true H))).
Defined.

(** ** C5: the multiplier and the commission tiers *)

(** The node of the worked scenario: every validator has a commission of 5%,
    a ledger total of 100 tokens and one active nominator with 1000 tokens. *)
Definition scenario_api : Api :=
  {| query_session_validators :=
       Resolved [ValidatorScript.testValidator; "V"];
     query_staking_activeEra := Resolved (Some 1500%N);
     query_staking_validators := fun _ => Resolved (Some {| commission := 50000000 |});
     derive_staking_account := fun _ =>
       Resolved (Some {| stakingLedger := Some {| total := 1000000000000 |} |});
     query_staking_erasStakers := fun _ _ =>
       Resolved {| exposure_total := 11000000000000; own := 1000000000000;
                   others := [ {| who := "n1"; value := 10000000000000 |} ] |};
     query_staking_nominators_entries :=
       Resolved [ {| key_arg := Some "n1";
                     nominations := Some [ValidatorScript.testValidator; "V"] |};
                  {| key_arg := Some "n2";
                     nominations := Some [ValidatorScript.testValidator; "V"] |};
                  {| key_arg := Some "n3";
                     nominations := Some ["V"; ValidatorScript.testValidator] |} ] |}.

Definition scenario_registry : Dict (list string) :=
  ValidatorCli.buildNominatorsMap
    [ {| key_arg := Some "n1"; nominations := Some [ValidatorScript.testValidator; "V"] |};
      {| key_arg := Some "n2"; nominations := Some [ValidatorScript.testValidator; "V"] |};
      {| key_arg := Some "n3"; nominations := Some ["V"; ValidatorScript.testValidator] |} ].

(** A machine without a cache file, before any run. *)
Definition fresh_world : World :=
  {| files := fun _ => Absent; disk := fun _ => Stored;
     clock := 1700000000000; session := None; trace := [] |}.

(** C5, as stated, fails in the earlier script: with a commission of exactly
    5%, one active and two inactive nominators, the test validator is given
    the calibrated multiplier 1391.70419175, not 0.7, and its row shows the
    expected 2783408.3835; any other validator with the same answers gets
    0.7 and 1400.0000. *)
Lemma test_validator_is_calibrated :
  (exists e w,
     ValidatorScript.enrich scenario_api ValidatorScript.testValidator "1500"
       scenario_registry fresh_world = (Normal e, w) /\
     (0 < ValidatorCli.activeNominatorCount e)%nat /\
     (0 < ValidatorCli.inactiveNominatorCount e)%Z /\
     toFixed (ValidatorCli.commissionPct e) 2 = "5.00" /\
     ValidatorCli.inactiveMultiplier e = Some (decimal 139170419175 8) /\
     ValidatorCli.inactiveMultiplier e <> Some (decimal 7 1) /\
     Inactive_Nomination_DOT (ValidatorCli.report ValidatorScript.testValidator e)
       = "2783408.3835") /\
  (exists e w,
     ValidatorScript.enrich scenario_api "V" "1500" scenario_registry fresh_world
       = (Normal e, w) /\
     ValidatorCli.inactiveMultiplier e = Some (decimal 7 1) /\
     Inactive_Nomination_DOT (ValidatorCli.report "V" e) = "1400.0000").
Proof.
  split.
  - eexists; eexists. split; [vm_compute; reflexivity|].
    repeat split; try (vm_compute; reflexivity); try (vm_compute; lia).
    vm_compute. discriminate.
  - eexists; eexists. split; [vm_compute; reflexivity|].
    split; vm_compute; reflexivity.
Qed.

Lemma total_nomination_is_sum (isTestValidator : bool)
    (prefs : option ValidatorPrefs) (stakingInfo : option StakingAccount)
    (exposureData : Exposure) (targeting : list string) :
  let e := ValidatorCli.estimate prefs stakingInfo exposureData targeting in
  let e' := ValidatorScript.estimate isTestValidator prefs stakingInfo exposureData targeting in
  ValidatorCli.totalNomination e
    = add (ValidatorCli.activeStake e) (ValidatorCli.inactiveStake e) /\
  ValidatorCli.totalNomination e'
    = add (ValidatorCli.activeStake e') (ValidatorCli.inactiveStake e') /\
  ValidatorCli.activeStake e' = ValidatorCli.activeStake e.
Proof.
  unfold ValidatorCli.estimate, ValidatorScript.estimate.
  destruct (andb _ _); repeat split.
Qed.

(** C5, amended: for a validator whose three queries resolve, with at least
    one active and one inactive nominator, validator-cli.js computes the
    inactive stake as [avg * m * inactive], where [avg] is the active stake
    divided by the active count, [inactive] the number of targeting
    nominators beyond the active ones, and [m] is fixed by the commission
    percentage alone, whoever the validator is: 0.6 below 5, 0.8 above 15,
    0.7 otherwise.  A commission of exactly 5% or exactly 15% gives 0.7,
    4.99% gives 0.6 and 15.01% gives 0.8.  The row shows that stake, and the
    active stake plus that stake as the total nomination.  The earlier
    script computes the same for every validator other than the configured
    test validator; for the test validator it replaces [m] by
    [expectedInactive / (avg * inactive)]. *)
Theorem multiplier_by_commission_tier
    (api : Api) (eraNumber : string) (nominatorsMap : Dict (list string))
    (validator : AccountId)
    (prefs : option ValidatorPrefs) (stakingInfo : option StakingAccount)
    (exposureData : Exposure) (w : World) :
  answers api eraNumber validator = inl (prefs, stakingInfo, exposureData) ->
  (0 < List.length (others exposureData))%nat ->
  (List.length (others exposureData)
   < List.length (ValidatorCli.targetingNominators nominatorsMap validator))%nat ->
  let targeting := ValidatorCli.targetingNominators nominatorsMap validator in
  let e := ValidatorCli.estimate prefs stakingInfo exposureData targeting in
  let e' := ValidatorScript.estimate (String.eqb validator ValidatorScript.testValidator)
              prefs stakingInfo exposureData targeting in
  let active := List.length (others exposureData) in
  let inactive := (Z.of_nat (List.length targeting) - Z.of_nat active)%Z in
  let avg := div (ValidatorCli.activeStake e) (of_nat active) in
  let pct := ValidatorCli.commissionPct e in
  let stake m := mul (mul avg m) (of_Z inactive) in
  let shows (row : Row) (x : number) :=
    Inactive_Nomination_DOT row = toFixed x 4 /\
    Total_Nomination_DOT row = toFixed (add (ValidatorCli.activeStake e) x) 4 in
  (* the later script *)
  (exists row,
     fst (ValidatorCli.processValidator api eraNumber nominatorsMap validator w)
       = Normal row /\
     shows row (ValidatorCli.inactiveStake e)) /\
  (ltb pct (of_Z 5) = true -> ValidatorCli.inactiveStake e = stake (decimal 6 1)) /\
  (ltb pct (of_Z 5) = false -> gtb pct (of_Z 15) = true ->
   ValidatorCli.inactiveStake e = stake (decimal 8 1)) /\
  (ltb pct (of_Z 5) = false -> gtb pct (of_Z 15) = false ->
   ValidatorCli.inactiveStake e = stake (decimal 7 1)) /\
  (forall c, prefs = Some {| commission := c |} ->
     (c = 50000000%N \/ c = 150000000%N ->
      ValidatorCli.inactiveStake e = stake (decimal 7 1)) /\
     (c = 49900000%N -> ValidatorCli.inactiveStake e = stake (decimal 6 1)) /\
     (c = 150100000%N -> ValidatorCli.inactiveStake e = stake (decimal 8 1))) /\
  (* the earlier script *)
  (exists row,
     fst (ValidatorScript.processValidator api eraNumber nominatorsMap validator w)
       = Normal row /\
     shows row (ValidatorCli.inactiveStake e')) /\
  (validator <> ValidatorScript.testValidator ->
   ValidatorCli.inactiveStake e' = ValidatorCli.inactiveStake e) /\
  (validator = ValidatorScript.testValidator ->
   ValidatorCli.inactiveStake e' =
     stake (div ValidatorScript.expected_inactiveNomination (mul avg (of_Z inactive)))).
Proof.
  intros Hanswers Hactive Hinactive targeting e e' active inactive avg pct stake shows.
  assert (Hmax : Z.max 0 (Z.of_nat (List.length targeting)
                          - Z.of_nat (List.length (others exposureData))) = inactive)
    by (unfold inactive, active, targeting; lia).
  assert (Hcond : andb (0 <? List.length (others exposureData))%nat
                       (0 <? Z.max 0 (Z.of_nat (List.length targeting)
                              - Z.of_nat (List.length (others exposureData))))%Z = true).
  { apply andb_true_intro. split; [now apply Nat.ltb_lt|].
    rewrite Hmax. apply Z.ltb_lt. unfold inactive, active, targeting. lia. }
  assert (He : ValidatorCli.inactiveStake e =
               stake (ValidatorCli.tierMultiplier pct)).
  { unfold stake, avg, pct, e, ValidatorCli.estimate. rewrite Hcond, Hmax.
    cbn [ValidatorCli.inactiveStake ValidatorCli.activeStake ValidatorCli.commissionPct].
    reflexivity. }
  assert (Hactive' : forall flag,
            ValidatorCli.activeStake
              (ValidatorScript.estimate flag prefs stakingInfo exposureData targeting)
            = ValidatorCli.activeStake e).
  { intro flag. unfold e, ValidatorScript.estimate, ValidatorCli.estimate.
    rewrite Hcond. reflexivity. }
  destruct (total_nomination_is_sum (String.eqb validator ValidatorScript.testValidator)
              prefs stakingInfo exposureData targeting) as (Hsum & Hsum' & Hsame).
  fold e in Hsum, Hsame. fold e' in Hsum', Hsame.
  split; [|split; [|split; [|split; [|split; [|split; [|split]]]]]].
  - rewrite cli_processValidator_run, Hanswers. eexists. split; [reflexivity|].
    unfold shows, ValidatorCli.report.
    cbn [Inactive_Nomination_DOT Total_Nomination_DOT]. fold targeting. fold e.
    split; [reflexivity|]. now rewrite Hsum.
  - intro H. rewrite He. unfold ValidatorCli.tierMultiplier. now rewrite H.
  - intros H1 H2. rewrite He. unfold ValidatorCli.tierMultiplier. now rewrite H1, H2.
  - intros H1 H2. rewrite He. unfold ValidatorCli.tierMultiplier. now rewrite H1, H2.
  - intros c ->. rewrite He.
    assert (Hpct : pct =
                   div (let n := of_N c in if truthy n then n else of_Z 0) (of_Z 10000000)).
    { unfold pct, e, ValidatorCli.estimate. destruct (andb _ _); reflexivity. }
    rewrite Hpct.
    split; [|split]; [intros [-> | ->] | intros -> | intros ->]; f_equal; f_equal;
      vm_compute; reflexivity.
  - rewrite script_processValidator_run, Hanswers. cbv zeta. eexists. split; [reflexivity|].
    unfold shows, ValidatorCli.report.
    cbn [Inactive_Nomination_DOT Total_Nomination_DOT]. fold targeting. fold e'.
    split; [reflexivity|]. now rewrite Hsum', Hsame.
  - intros Hother. apply String.eqb_neq in Hother. unfold e'. rewrite Hother.
    reflexivity.
  - intros ->. unfold e'. rewrite String.eqb_refl.
    unfold stake, avg, ValidatorScript.estimate. rewrite Hcond, Hmax.
    cbn [ValidatorCli.inactiveStake]. fold targeting.
    unfold e, ValidatorCli.estimate. rewrite Hcond.
    cbn [ValidatorCli.activeStake]. reflexivity.
Qed.

Lemma multiplier_by_commission_tier_witness :
  let prefs := Some {| commission := 50000000 |} in
  let stakingInfo := Some {| stakingLedger := Some {| total := 1000000000000 |} |} in
  let exposure := {| exposure_total := 11000000000000; own := 1000000000000;
                     others := [ {| who := "n1"; value := 10000000000000 |} ] |} in
  let e := ValidatorCli.estimate prefs stakingInfo exposure
             (ValidatorCli.targetingNominators scenario_registry "V") in
  answers scenario_api "1500" "V" = inl (prefs, stakingInfo, exposure) /\
  (0 < List.length (others exposure))%nat /\
  (List.length (others exposure)
   < List.length (ValidatorCli.targetingNominators scenario_registry "V"))%nat /\
  ValidatorCli.inactiveStake e =
    mul (mul (div (ValidatorCli.activeStake e) (of_nat 1)) (decimal 7 1)) (of_Z 2) /\
  exists row,
    fst (ValidatorCli.processValidator scenario_api "1500" scenario_registry "V" fresh_world)
      = Normal row /\
    Inactive_Nomination_DOT row = toFixed (ValidatorCli.inactiveStake e) 4.
Proof.
  intros prefs stakingInfo exposure e.
  assert (H1 : (0 < List.length (others exposure))%nat) by (cbn; lia).
  assert (H2 : (List.length (others exposure)
                < List.length (ValidatorCli.targetingNominators scenario_registry "V"))%nat)
    by (vm_compute; lia).
  destruct (multiplier_by_commission_tier scenario_api "1500" scenario_registry "V"
              prefs stakingInfo exposure fresh_world eq_refl H1 H2)
    as ((row & Hrow & Hshown & _) & _ & _ & _ & Hmarks & _).
  destruct (Hmarks 50000000%N eq_refl) as (Hfive & _).
  split; [reflexivity|]. split; [exact H1|]. split; [exact H2|].
  split; [exact (Hfive (or_introl eq_refl))|].
  exists row. split; [exact Hrow | exact Hshown].
Defined.

Lemma scenario_one_active_of_three_witness :
  answers scenario_api "1500" "V" =
    inl (Some {| commission := 50000000 |},
         Some {| stakingLedger := Some {| total := 1000000000000 |} |},
         {| exposure_total := 11000000000000; own := 1000000000000;
            others := [ {| who := "n1"; value := 10000000000000 |} ] |}) /\
  List.length (ValidatorCli.targetingNominators scenario_registry "V") = 3%nat /\
  Inactive_Nomination_DOT
    (ValidatorCli.report "V"
       (ValidatorCli.estimate
          (Some {| commission := 50000000 |})
          (Some {| stakingLedger := Some {| total := 1000000000000 |} |})
          {| exposure_total := 11000000000000; own := 1000000000000;
             others := [ {| who := "n1"; value := 10000000000000 |} ] |}
          (ValidatorCli.targetingNominators scenario_registry "V"))) = "1400.0000".
Proof.
  split; [reflexivity|]. split; [reflexivity|].
  exact (proj1 (proj2 (proj2 (proj2 (proj2 (proj2
    (scenario_one_active_of_three scenario_api "1500" scenario_registry "V" "n1"
       11000000000000 fresh_world eq_refl eq_refl))))))).
Defined.

(* ===================================================================== *)
(** * The cache, the connection and the run *)
(* ===================================================================== *)

(** ** Worlds *)

Definition with_session (s : option Api) (w : World) : World :=
  {| files := files w; disk := disk w; clock := clock w;
     session := s; trace := trace w |}.

Definition with_file (path : string) (f : File) (w : World) : World :=
  {| files := fun p => if String.eqb p path then f else files w p;
     disk := disk w; clock := clock w;
     session := session w; trace := trace w |}.

(** Two descriptions of the same outcome, up to the grouping of the events. *)
Ltac same_world :=
  unfold ret, throw, append_trace, with_session, with_file;
  cbn [files disk clock session trace];
  rewrite <- ?app_assoc; cbn [app]; reflexivity.

(** Running a sequence of primitive steps. *)
Ltac run_step :=
  first [ rewrite bind_run | rewrite log_run | rewrite error_run
        | rewrite error_object_run | rewrite emit_run
        | progress unfold Sys.table, set_session, get_session, Date_now ].
Ltac run := repeat run_step.

(** What a run displayed, wrote and contacted, read off its events. *)
Definition tables (evs : list Event) : list (list Row) :=
  flat_map (fun e => match e with console_table rows => [rows] | _ => [] end) evs.

Definition writes (evs : list Event) : list (string * CacheData) :=
  flat_map (fun e => match e with fs_writeFileSync p c => [(p, c)] | _ => [] end) evs.

Definition reads (evs : list Event) : list string :=
  flat_map (fun e => match e with fs_readFileSync p => [p] | _ => [] end) evs.

Definition renames (evs : list Event) : list (string * string) :=
  flat_map (fun e => match e with fs_renameSync a b => [(a, b)] | _ => [] end) evs.

Definition contacts (evs : list Event) : list string :=
  flat_map (fun e => match e with ws_create p => [p] | _ => [] end) evs.

Lemma console_text_silent evs :
  Forall console_text evs ->
  tables evs = [] /\ writes evs = [] /\ reads evs = [] /\ renames evs = [] /\ contacts evs = [].
Proof.
  induction 1 as [|e evs He _ IH]; [repeat split|].
  destruct IH as (H1 & H2 & H3 & H4 & H5).
  unfold tables, writes, reads, renames, contacts in *.
  destruct e; cbn in He; try contradiction; cbn; auto.
Qed.

(** ** [loadCache] *)

Section LoadCache.

Variable w : World.

(** What the cache file answers at the clock of [w]. *)
Definition fresh_entry (path : string) (timeout : Z) : option (list Row) :=
  match files w path with
  | Present (JsonObject c) =>
      match timestamp c with
      | Some t => if (clock w - t <? timeout)%Z then data c else None
      | None => None
      end
  | _ => None
  end.

Definition read_failure (path : string) : option string :=
  match files w path with
  | Unreadable => Some "EACCES: permission denied"
  | Present Malformed => Some "Unexpected token in JSON"
  | Present JsonNull => Some "Cannot read properties of null"
  | _ => None
  end.

Definition exists_file (path : string) : bool :=
  match files w path with Absent => false | _ => true end.

Definition load_events (path : string) (refresh : bool) : list Event :=
  fs_existsSync path ::
  (if andb (exists_file path) (negb refresh) then
     fs_readFileSync path ::
     match read_failure path with
     | Some m => [console_error ("Error loading cache: " ++ m)]
     | None => []
     end
   else []).

Lemma cli_loadCache_run options :
  ValidatorCli.loadCache options w =
  (Normal (if ValidatorCli.refresh options then None
           else fresh_entry ValidatorCli.cacheFile ValidatorCli.cacheTimeout),
   append_trace w (load_events ValidatorCli.cacheFile (ValidatorCli.refresh options))).
Proof.
  unfold ValidatorCli.loadCache, try_catch, load_events, fresh_entry, read_failure,
    exists_file.
  rewrite bind_run. unfold existsSync. rewrite bind_run, emit_run.
  cbn [files append_trace].
  destruct (files w ValidatorCli.cacheFile) as [| |[| |c]] eqn:Hfile;
    destruct (ValidatorCli.refresh options); cbn [andb negb]; try reflexivity;
    rewrite bind_run; unfold readFileSync_parse; rewrite bind_run, emit_run;
    cbn [files append_trace]; rewrite Hfile;
    try (rewrite bind_run, error_run; unfold ret; rewrite !append_trace_app; reflexivity).
  rewrite bind_run. unfold Date_now. cbn [clock append_trace].
  destruct (timestamp c) as [t|]; [destruct (clock w - t <? _)%Z|];
    unfold ret; rewrite append_trace_app; reflexivity.
Qed.

(** The earlier script adds one console line on a hit. *)
Definition script_load_events : list Event :=
  (load_events ValidatorScript.cacheFile false ++
   match files w ValidatorScript.cacheFile with
   | Present (JsonObject c) =>
       match timestamp c with
       | Some t => if (clock w - t <? ValidatorScript.cacheTimeout)%Z
                   then [console_log "Loading data from cache..."] else []
       | None => []
       end
   | _ => []
   end)%list.

Lemma script_loadCache_at :
  ValidatorScript.loadCache w =
  (Normal (fresh_entry ValidatorScript.cacheFile ValidatorScript.cacheTimeout),
   append_trace w script_load_events).
Proof.
  unfold ValidatorScript.loadCache, try_catch, script_load_events, load_events,
    fresh_entry, read_failure, exists_file.
  rewrite bind_run. unfold existsSync. rewrite bind_run, emit_run.
  cbn [files append_trace].
  destruct (files w ValidatorScript.cacheFile) as [| |[| |c]] eqn:Hfile;
    cbn [andb negb]; try reflexivity;
    rewrite bind_run; unfold readFileSync_parse; rewrite bind_run, emit_run;
    cbn [files append_trace]; rewrite Hfile;
    try (rewrite bind_run, error_run; unfold ret; rewrite !append_trace_app;
         cbn [app]; reflexivity).
  rewrite bind_run. unfold Date_now. cbn [clock append_trace].
  destruct (timestamp c) as [t|]; [destruct (clock w - t <? _)%Z|];
    try rewrite bind_run, log_run;
    unfold ret; rewrite !append_trace_app; reflexivity.
Qed.

End LoadCache.

(** ** [saveCache] *)

(** The record [saveCache] builds at the clock of [w]. *)
Definition cache_record (w : World) (rows : list Row) : CacheData :=
  {| timestamp := Some (clock w); data := Some rows |}.

(** The cache file after a write of [c]: the record, the file as it was, or
    a part of the text. *)
Definition file_after_write (w : World) (path : string) (c : CacheData) : File :=
  match disk w path with
  | Stored => Present (JsonObject c)
  | Denied => files w path
  | Torn => Present Malformed
  end.

(** The world [saveCache] leaves: one [writeFileSync] on the cache file
    itself, then one console line. *)
Definition after_save (rows : list Row) (w : World) : World :=
  match disk w ValidatorCli.cacheFile with
  | Stored =>
      append_trace
        (with_file ValidatorCli.cacheFile (Present (JsonObject (cache_record w rows))) w)
        [fs_writeFileSync ValidatorCli.cacheFile (cache_record w rows);
         console_log "Cache saved successfully"]
  | Denied =>
      append_trace w
        [fs_writeFileSync ValidatorCli.cacheFile (cache_record w rows);
         console_error ("Error saving cache: " ++ "EACCES: permission denied")]
  | Torn =>
      append_trace (with_file ValidatorCli.cacheFile (Present Malformed) w)
        [fs_writeFileSync ValidatorCli.cacheFile (cache_record w rows);
         console_error ("Error saving cache: " ++ "ENOSPC: no space left on device")]
  end.

Lemma saveCache_run rows w :
  ValidatorCli.saveCache rows w = (Normal tt, after_save rows w).
Proof.
  unfold ValidatorCli.saveCache, try_catch, after_save, cache_record.
  rewrite bind_run. unfold Date_now at 1.
  rewrite bind_run. unfold writeFileSync. rewrite bind_run, emit_run.
  cbn [disk append_trace].
  destruct (disk w ValidatorCli.cacheFile).
  - unfold put_file. rewrite log_run. f_equal.
    unfold append_trace, with_file; cbn. now rewrite <- app_assoc.
  - rewrite error_run. f_equal.
    unfold append_trace; cbn. now rewrite <- app_assoc.
  - rewrite bind_run. unfold put_file, throw. rewrite error_run. f_equal.
    unfold append_trace, with_file; cbn. now rewrite <- app_assoc.
Qed.

Lemma after_save_fields rows w :
  clock (after_save rows w) = clock w /\
  session (after_save rows w) = session w /\
  disk (after_save rows w) = disk w /\
  files (after_save rows w) ValidatorCli.cacheFile =
    file_after_write w ValidatorCli.cacheFile (cache_record w rows) /\
  exists evs,
    trace (after_save rows w) = (trace w ++ evs)%list /\
    writes evs = [(ValidatorCli.cacheFile, cache_record w rows)] /\
    tables evs = [] /\ renames evs = [] /\ contacts evs = [] /\ reads evs = [].
Proof.
  unfold after_save, file_after_write.
  destruct (disk w ValidatorCli.cacheFile) eqn:Hw; cbn;
    repeat split; try (rewrite Hw; reflexivity);
    eexists; repeat split; reflexivity.
Qed.

(** ** [connectToNetwork] *)

(** The attempts made on a list of endpoints, and the first one that
    answers. *)
Fixpoint connect_outcome (net : Network) (endpoints : list string)
  : list Event * option Api :=
  match endpoints with
  | [] => ([], None)
  | endpoint :: rest =>
      match net endpoint with
      | Resolved api =>
          ([console_log ("Attempting to connect to " ++ endpoint ++ "...");
            ws_create endpoint;
            console_log ("Successfully connected to " ++ endpoint)], Some api)
      | Rejected m =>
          let '(evs, r) := connect_outcome net rest in
          (console_log ("Attempting to connect to " ++ endpoint ++ "...")
           :: ws_create endpoint
           :: console_log ("Failed to connect to " ++ endpoint ++ ": " ++ m)
           :: evs, r)
      end
  end.

Lemma connect_each_run net endpoints : forall w,
  ValidatorCli.connect_each net endpoints w =
  match connect_outcome net endpoints with
  | (evs, Some api) => (Normal api, with_session (Some api) (append_trace w evs))
  | (evs, None) =>
      (Thrown "Failed to connect to any Polkadot endpoint", append_trace w evs)
  end.
Proof.
  induction endpoints as [|endpoint rest IH]; intro w;
    cbn [ValidatorCli.connect_each connect_outcome].
  - unfold throw. now rewrite append_trace_nil.
  - rewrite bind_run. unfold try_catch.
    rewrite bind_run, log_run, bind_run, emit_run, bind_run.
    destruct (net endpoint) as [api|m]; cbn [await].
    + unfold ret at 1. rewrite bind_run. unfold set_session at 1.
      rewrite bind_run, log_run. same_world.
    + unfold throw at 1. rewrite bind_run, log_run. unfold ret at 1.
      rewrite IH. destruct (connect_outcome net rest) as [evs [api|]]; same_world.
Qed.

(** ** The [finally] block *)

Lemma disconnect_answering_run closing w :
  ValidatorCli.disconnect_answering closing w =
  match session w with
  | Some _ =>
      match closing with
      | Resolved _ =>
          (Normal tt,
           with_session None
             (append_trace w [console_log "Disconnecting from network..."; api_disconnect;
                              console_log "Disconnected successfully"]))
      | Rejected message =>
          (Thrown message,
           append_trace w [console_log "Disconnecting from network..."; api_disconnect])
      end
  | None => (Normal tt, w)
  end.
Proof.
  unfold ValidatorCli.disconnect_answering. rewrite bind_run. unfold get_session.
  destruct (session w); [|reflexivity].
  rewrite bind_run, log_run, bind_run, emit_run, bind_run.
  destruct closing as [[]|message]; cbn [await].
  - unfold ret at 1. rewrite bind_run. unfold set_session at 1. rewrite log_run. same_world.
  - unfold throw. same_world.
Qed.

Lemma disconnect_run w :
  ValidatorCli.disconnect w =
  match session w with
  | Some _ =>
      (Normal tt,
       with_session None
         (append_trace w [console_log "Disconnecting from network..."; api_disconnect;
                          console_log "Disconnected successfully"]))
  | None => (Normal tt, w)
  end.
Proof. apply (disconnect_answering_run (Resolved tt)). Qed.

(** ** The cache path of [getValidators] *)

(** What a run shows from cached rows. *)
Definition cache_display (options : ValidatorCli.Options) (cachedData : list Row)
  : list Event :=
  if truthy_string (ValidatorCli.validator options) then
    let wanted := match ValidatorCli.validator options with Some v => v | None => EmptyString end in
    match find (fun v => String.eqb (Validator v) wanted) cachedData with
    | Some validatorData =>
        [console_log (nl ++ "Validator Information:"); console_table [validatorData]]
    | None =>
        [console_log ("Validator " ++ wanted ++
                      " not found in cache. Use --refresh to update data.")]
    end
  else
    [console_table
       match ValidatorCli.limit options with
       | Some n => if truthy_int (ValidatorCli.limit options)
                   then slice0 cachedData n else cachedData
       | None => cachedData
       end].

Lemma fromCache_run options cachedData w :
  ValidatorCli.fromCache options cachedData w =
  (Normal tt,
   append_trace w (console_log "Using cached validator data"
                   :: cache_display options cachedData)).
Proof.
  unfold ValidatorCli.fromCache, cache_display.
  rewrite bind_run, log_run.
  destruct (truthy_string (ValidatorCli.validator options)).
  - destruct (find _ cachedData); run; same_world.
  - run; same_world.
Qed.

(** A run that finds a fresh entry, whoever wrote it, shows it and stops:
    no connection is opened, nothing is written. *)
Lemma cli_getValidators_cached options net w cachedData :
  session w = None ->
  ValidatorCli.refresh options = false ->
  fresh_entry w ValidatorCli.cacheFile ValidatorCli.cacheTimeout = Some cachedData ->
  ValidatorCli.getValidators options net w =
  (Normal tt,
   append_trace w
     (load_events w ValidatorCli.cacheFile false ++
      console_log "Using cached validator data" :: cache_display options cachedData)%list).
Proof.
  intros Hsession Hrefresh Hentry.
  unfold ValidatorCli.getValidators, ValidatorCli.fetch, try_finally, try_catch.
  rewrite bind_run, cli_loadCache_run, Hrefresh, Hentry, fromCache_run.
  rewrite disconnect_run. cbn [session append_trace]. rewrite Hsession.
  now rewrite append_trace_app.
Qed.

(** ** The live paths of [getValidators] *)

Lemma activeEraNumber_run api index w :
  query_staking_activeEra api = Resolved (Some index) ->
  ValidatorCli.activeEraNumber api w = (Normal (digits index), w).
Proof.
  intros H. unfold ValidatorCli.activeEraNumber. rewrite bind_run, H. reflexivity.
Qed.

Lemma sort_insert_length {A} (cmp : A -> A -> bool) x l :
  List.length (sort_insert cmp x l) = S (List.length l).
Proof. induction l as [|y l IH]; cbn; [reflexivity|]. destruct (cmp x y); cbn; auto. Qed.

Lemma sort_length {A} (cmp : A -> A -> bool) l :
  List.length (sort cmp l) = List.length l.
Proof. induction l as [|x l IH]; cbn; [reflexivity|]. now rewrite sort_insert_length, IH. Qed.

Lemma sort_insert_perm {A} (cmp : A -> A -> bool) x l :
  Permutation (x :: l) (sort_insert cmp x l).
Proof.
  induction l as [|y l IH]; cbn; [reflexivity|].
  destruct (cmp x y); [|reflexivity].
  rewrite perm_swap. now constructor.
Qed.

Lemma sort_perm {A} (cmp : A -> A -> bool) l : Permutation l (sort cmp l).
Proof.
  induction l as [|x l IH]; cbn; [constructor|].
  rewrite <- sort_insert_perm. now constructor.
Qed.

Section LivePaths.

Variables (api : Api) (index : N) (nominatorsData : list NominatorEntry).
Hypothesis Hera : query_staking_activeEra api = Resolved (Some index).
Hypothesis Hentries : query_staking_nominators_entries api = Resolved nominatorsData.

Let eraNumber := digits index.
Let nominatorsMap := ValidatorCli.buildNominatorsMap nominatorsData.

(** The live lookup of one validator shows its row and saves it as the
    whole cache entry. *)
Lemma singleValidator_run wanted w :
  exists evs,
    Forall console_text evs /\
    ValidatorCli.singleValidator api wanted w =
      (Normal tt,
       after_save [cli_row api eraNumber nominatorsMap wanted]
         (append_trace w
            (evs ++ [console_table [cli_row api eraNumber nominatorsMap wanted]]))).
Proof.
  unfold ValidatorCli.singleValidator, try_catch.
  rewrite bind_run, (activeEraNumber_run _ _ _ Hera).
  rewrite bind_run, log_run, bind_run, log_run, bind_run, Hentries.
  cbn [await]. unfold ret at 1. rewrite bind_run, log_run, bind_run.
  fold eraNumber nominatorsMap.
  match goal with |- context [ValidatorCli.processValidatorsBatch _ ?b _ _ ?w0] =>
    destruct (cli_processValidatorsBatch_run api eraNumber nominatorsMap b w0)
      as (e1 & H1 & T1) end.
  rewrite H1. cbn [map].
  run. rewrite saveCache_run, !append_trace_app.
  match goal with
  | |- exists evs, _ /\ (_, after_save _ (append_trace _
         (?a ++ ?b ++ ?c ++ ?d ++ ?e ++ ?t))) = _ =>
      exists (a ++ b ++ c ++ d ++ e)%list
  end.
  split; [|rewrite <- !app_assoc; reflexivity].
  repeat (apply Forall_cons; [exact I|]).
  apply console_text_app; [exact T1|]. repeat constructor.
Qed.

Variable validators : list AccountId.
Hypothesis Hvalidators : query_session_validators api = Resolved validators.

(** The live run over the validator set processes the first [limit]
    validators (the first hundred without a limit), sorts their rows,
    shows them cut to the limit and saves them all. *)
Lemma cli_validatorSet_run options w :
  let maxValidators :=
    match ValidatorCli.limit options with
    | Some n => if truthy_int (ValidatorCli.limit options) then n
                else ValidatorCli.maxValidators
    | None => ValidatorCli.maxValidators
    end in
  let processValidators := slice0 validators maxValidators in
  let results :=
    sort ValidatorCli.byTotalActiveStake
         (map (cli_row api eraNumber nominatorsMap) processValidators) in
  let displayData :=
    match ValidatorCli.limit options with
    | Some n => if truthy_int (ValidatorCli.limit options) then slice0 results n
                else results
    | None => results
    end in
  exists evs,
    Forall console_text evs /\
    ValidatorCli.validatorSet api options w =
      (Normal tt,
       after_save results (append_trace w (evs ++ [console_table displayData]))).
Proof.
  intros maxValidators processValidators results displayData.
  unfold ValidatorCli.validatorSet.
  rewrite bind_run, Hvalidators. cbn [await]. unfold ret at 1.
  rewrite bind_run, log_run, bind_run, (activeEraNumber_run _ _ _ Hera).
  rewrite bind_run, log_run, bind_run, log_run, bind_run, Hentries.
  cbn [await]. unfold ret at 1. rewrite bind_run, log_run, bind_run.
  assert (Htruthy : truthy_int (Some maxValidators) = true).
  { unfold maxValidators, truthy_int.
    destruct (ValidatorCli.limit options) as [n|]; [|reflexivity].
    destruct (n =? 0)%Z eqn:E; cbn [negb]; [reflexivity|now rewrite E]. }
  fold maxValidators. rewrite Htruthy. fold processValidators.
  fold eraNumber nominatorsMap.
  match goal with |- context [ValidatorCli.batches ?f _ ?pv _ _ ?i ?r ?w0] =>
    destruct (cli_batches_run api eraNumber nominatorsMap pv f i r w0)
      as (e1 & H1 & T1); [lia|] end.
  rewrite H1. cbn [skipn app]. fold results. fold displayData.
  run. rewrite saveCache_run, !append_trace_app.
  match goal with
  | |- exists evs, _ /\ (_, after_save _ (append_trace _
         (?a ++ ?b ++ ?c ++ ?d ++ ?e ++ ?f ++ ?t))) = _ =>
      exists (a ++ b ++ c ++ d ++ e ++ f)%list
  end.
  split; [|rewrite <- !app_assoc; reflexivity].
  repeat (apply Forall_cons; [exact I|]).
  apply console_text_app; [exact T1|]. repeat constructor.
Qed.


End LivePaths.

(** ** Whole runs *)

Lemma tables_app a b : tables (a ++ b) = (tables a ++ tables b)%list.
Proof. apply flat_map_app. Qed.
Lemma writes_app a b : writes (a ++ b) = (writes a ++ writes b)%list.
Proof. apply flat_map_app. Qed.
Lemma reads_app a b : reads (a ++ b) = (reads a ++ reads b)%list.
Proof. apply flat_map_app. Qed.
Lemma renames_app a b : renames (a ++ b) = (renames a ++ renames b)%list.
Proof. apply flat_map_app. Qed.
Lemma contacts_app a b : contacts (a ++ b) = (contacts a ++ contacts b)%list.
Proof. apply flat_map_app. Qed.

Lemma load_events_silent w path refresh :
  tables (load_events w path refresh) = [] /\
  writes (load_events w path refresh) = [] /\
  renames (load_events w path refresh) = [] /\
  contacts (load_events w path refresh) = [].
Proof.
  unfold load_events.
  destruct (andb _ _); [destruct (read_failure w path)|]; repeat split.
Qed.

Lemma connect_outcome_silent net endpoints :
  tables (fst (connect_outcome net endpoints)) = [] /\
  writes (fst (connect_outcome net endpoints)) = [] /\
  renames (fst (connect_outcome net endpoints)) = [].
Proof.
  induction endpoints as [|endpoint rest IH]; cbn [connect_outcome]; [repeat split|].
  destruct (net endpoint); [repeat split|].
  destruct (connect_outcome net rest) as [evs r]. cbn [fst] in *. exact IH.
Qed.

Lemma connect_outcome_contacts net endpoints api :
  snd (connect_outcome net endpoints) = Some api ->
  contacts (fst (connect_outcome net endpoints)) <> [].
Proof.
  destruct endpoints as [|endpoint rest]; cbn [connect_outcome]; [discriminate|].
  destruct (net endpoint); [discriminate|].
  destruct (connect_outcome net rest) as [evs r]. discriminate.
Qed.

(** What a live run that reaches its end has done: it displayed one table,
    wrote one cache record holding [rows] under the clock of the run, and
    closed its session. *)
Definition live_outcome (w w' : World) (display rows : list Row) : Prop :=
  clock w' = clock w /\
  session w' = None /\
  disk w' = disk w /\
  files w' ValidatorCli.cacheFile =
    file_after_write w ValidatorCli.cacheFile (cache_record w rows) /\
  exists evs,
    trace w' = (trace w ++ evs)%list /\
    tables evs = [display] /\
    writes evs = [(ValidatorCli.cacheFile, cache_record w rows)] /\
    renames evs = [] /\
    contacts evs <> [].

Lemma live_outcome_intro w load cevs api pre display rows :
  tables load = [] -> writes load = [] -> renames load = [] ->
  tables cevs = [] -> writes cevs = [] -> renames cevs = [] -> contacts cevs <> [] ->
  Forall console_text pre ->
  live_outcome w
    (with_session None
       (append_trace
          (after_save rows
             (append_trace (with_session (Some api) (append_trace w (load ++ cevs)))
                (pre ++ [console_table display])))
          [console_log "Disconnecting from network..."; api_disconnect;
           console_log "Disconnected successfully"]))
    display rows.
Proof.
  intros Hl1 Hl2 Hl3 Hc1 Hc2 Hc3 Hc4 Hpre.
  destruct (console_text_silent pre Hpre) as (Hp1 & Hp2 & _ & Hp4 & _).
  set (w1 := append_trace (with_session (Some api) (append_trace w (load ++ cevs)))
               (pre ++ [console_table display])).
  destruct (after_save_fields rows w1) as (Hclock & _ & Hwritable & Hfile & evs & Htrace &
    Hw & Ht & Hr & Hc & _).
  unfold live_outcome.
  cbn [clock session disk files trace with_session append_trace].
  rewrite Hclock, Hwritable, Hfile, Htrace.
  repeat split.
  exists ((load ++ cevs) ++ (pre ++ [console_table display]) ++ evs ++
          [console_log "Disconnecting from network..."; api_disconnect;
           console_log "Disconnected successfully"])%list.
  split; [unfold w1; cbn [trace append_trace with_session]; now rewrite <- !app_assoc|].
  rewrite !tables_app, !writes_app, !renames_app, !contacts_app.
  rewrite Hl1, Hl2, Hl3, Hc1, Hc2, Hc3, Hp1, Hp2, Hp4, Hw, Ht, Hr.
  repeat split.
  intros Hnil. apply app_eq_nil in Hnil as [Hnil _].
  apply app_eq_nil in Hnil as [_ Hnil]. now apply Hc4.
Qed.

Section LiveRuns.

Variables (net : Network) (api : Api) (index : N) (nominatorsData : list NominatorEntry).
Hypothesis Hup : snd (connect_outcome net ValidatorCli.providers) = Some api.
Hypothesis Hera : query_staking_activeEra api = Resolved (Some index).
Hypothesis Hentries : query_staking_nominators_entries api = Resolved nominatorsData.

Let eraNumber := digits index.
Let nominatorsMap := ValidatorCli.buildNominatorsMap nominatorsData.

Lemma connectToNetwork_up w :
  ValidatorCli.connectToNetwork net w =
    (Normal api,
     with_session (Some api)
       (append_trace w (fst (connect_outcome net ValidatorCli.providers)))).
Proof.
  unfold ValidatorCli.connectToNetwork. rewrite connect_each_run.
  destruct (connect_outcome net ValidatorCli.providers) as [evs r].
  cbn [snd fst] in *. now subst r.
Qed.

(** A single-identity run that the cache does not answer. *)
Lemma cli_getValidators_single options w wanted :
  session w = None ->
  (if ValidatorCli.refresh options then None
   else fresh_entry w ValidatorCli.cacheFile ValidatorCli.cacheTimeout) = None ->
  ValidatorCli.validator options = Some wanted ->
  truthy_string (Some wanted) = true ->
  exists w',
    ValidatorCli.getValidators options net w = (Normal tt, w') /\
    live_outcome w w' [cli_row api eraNumber nominatorsMap wanted]
                      [cli_row api eraNumber nominatorsMap wanted].
Proof.
  intros Hsession Hmiss Hwanted Htruthy.
  unfold ValidatorCli.getValidators, ValidatorCli.fetch, try_finally, try_catch.
  rewrite bind_run, cli_loadCache_run, Hmiss.
  rewrite bind_run, connectToNetwork_up, Hwanted, Htruthy.
  match goal with |- context [ValidatorCli.singleValidator _ _ ?w0] =>
    destruct (singleValidator_run api index nominatorsData Hera Hentries wanted w0)
      as (pre & Hpre & Hrun) end.
  rewrite Hrun, disconnect_run.
  destruct (after_save_fields [cli_row api eraNumber nominatorsMap wanted]
    (append_trace
       (with_session (Some api)
          (append_trace
             (append_trace w
                (load_events w ValidatorCli.cacheFile (ValidatorCli.refresh options)))
             (fst (connect_outcome net ValidatorCli.providers))))
       (pre ++ [console_table [cli_row api eraNumber nominatorsMap wanted]])))
    as (_ & Hs & _).
  fold eraNumber nominatorsMap. rewrite Hs. cbn [session append_trace with_session].
  eexists. split; [reflexivity|].
  rewrite append_trace_app.
  destruct (load_events_silent w ValidatorCli.cacheFile (ValidatorCli.refresh options))
    as (? & ? & ? & ?).
  destruct (connect_outcome_silent net ValidatorCli.providers) as (? & ? & ?).
  apply live_outcome_intro; auto.
  eapply connect_outcome_contacts; eauto.
Qed.

Variable validators : list AccountId.
Hypothesis Hvalidators : query_session_validators api = Resolved validators.

(** A run over the validator set that the cache does not answer. *)
Lemma cli_getValidators_set options w :
  session w = None ->
  (if ValidatorCli.refresh options then None
   else fresh_entry w ValidatorCli.cacheFile ValidatorCli.cacheTimeout) = None ->
  truthy_string (ValidatorCli.validator options) = false ->
  let maxValidators :=
    match ValidatorCli.limit options with
    | Some n => if truthy_int (ValidatorCli.limit options) then n
                else ValidatorCli.maxValidators
    | None => ValidatorCli.maxValidators
    end in
  let results :=
    sort ValidatorCli.byTotalActiveStake
         (map (cli_row api eraNumber nominatorsMap) (slice0 validators maxValidators)) in
  let displayData :=
    match ValidatorCli.limit options with
    | Some n => if truthy_int (ValidatorCli.limit options) then slice0 results n
                else results
    | None => results
    end in
  exists w',
    ValidatorCli.getValidators options net w = (Normal tt, w') /\
    live_outcome w w' displayData results.
Proof.
  intros Hsession Hmiss Hfalsy maxValidators results displayData.
  unfold ValidatorCli.getValidators, ValidatorCli.fetch, try_finally, try_catch.
  rewrite bind_run, cli_loadCache_run, Hmiss.
  rewrite bind_run, connectToNetwork_up, Hfalsy.
  match goal with |- context [ValidatorCli.validatorSet _ _ ?w0] =>
    destruct (cli_validatorSet_run api index nominatorsData Hera Hentries
                validators Hvalidators options w0) as (pre & Hpre & Hrun) end.
  fold eraNumber nominatorsMap maxValidators results displayData in Hrun.
  rewrite Hrun, disconnect_run.
  match goal with |- context [after_save results ?w0] =>
    destruct (after_save_fields results w0) as (_ & Hs & _) end.
  rewrite Hs. cbn [session append_trace with_session].
  eexists. split; [reflexivity|].
  rewrite append_trace_app.
  destruct (load_events_silent w ValidatorCli.cacheFile (ValidatorCli.refresh options))
    as (? & ? & ? & ?).
  destruct (connect_outcome_silent net ValidatorCli.providers) as (? & ? & ?).
  apply live_outcome_intro; auto.
  eapply connect_outcome_contacts; eauto.
Qed.


End LiveRuns.

(** ** Nothing is ever taken back from the trace *)

(** A computation only adds events, however it ends. *)
Definition appends {A} (c : M A) : Prop :=
  forall w, exists evs, trace (snd (c w)) = (trace w ++ evs)%list.

Lemma appends_ret {A} (a : A) : appends (ret a).
Proof. intro w. exists []. cbn. now rewrite app_nil_r. Qed.

Lemma appends_throw {A} m : appends (@throw A m).
Proof. intro w. exists []. cbn. now rewrite app_nil_r. Qed.

Lemma appends_emit e : appends (emit e).
Proof. intro w. exists [e]. reflexivity. Qed.

Lemma appends_bind {A B} (c : M A) (k : A -> M B) :
  appends c -> (forall a, appends (k a)) -> appends (bind c k).
Proof.
  intros Hc Hk w. destruct (Hc w) as (e1 & H1). unfold bind.
  destruct (c w) as [[a|m] w1]; cbn [snd] in *.
  - destruct (Hk a w1) as (e2 & H2). exists (e1 ++ e2)%list.
    now rewrite H2, H1, app_assoc.
  - now exists e1.
Qed.

Lemma appends_try_catch {A} (c : M A) (h : string -> M A) :
  appends c -> (forall m, appends (h m)) -> appends (try_catch c h).
Proof.
  intros Hc Hh w. destruct (Hc w) as (e1 & H1). unfold try_catch.
  destruct (c w) as [[a|m] w1]; cbn [snd] in *.
  - now exists e1.
  - destruct (Hh m w1) as (e2 & H2). exists (e1 ++ e2)%list.
    now rewrite H2, H1, app_assoc.
Qed.

Lemma appends_try_finally {A} (c : M A) (f : M unit) :
  appends c -> appends f -> appends (try_finally c f).
Proof.
  intros Hc Hf w. destruct (Hc w) as (e1 & H1). unfold try_finally.
  destruct (c w) as [r w1]; cbn [snd] in *.
  destruct (Hf w1) as (e2 & H2).
  exists (e1 ++ e2)%list. rewrite app_assoc, <- H1, <- H2.
  destruct (f w1) as [[u|m] w2]; reflexivity.
Qed.

Lemma appends_await {A} (p : response A) : appends (await p).
Proof. destruct p; [apply appends_ret | apply appends_throw]. Qed.

Lemma appends_pure {A} (f : World -> completion A) : appends (fun w => (f w, w)).
Proof. intro w. exists []. cbn. now rewrite app_nil_r. Qed.

Lemma appends_set_session s : appends (set_session s).
Proof. intro w. exists []. cbn. now rewrite app_nil_r. Qed.

Lemma appends_writeFileSync path c : appends (writeFileSync path c).
Proof.
  intro w. exists [fs_writeFileSync path c]. unfold writeFileSync, bind, emit.
  cbn [disk]. destruct (disk w path); reflexivity.
Qed.

Create HintDb appends.
#[local] Hint Resolve appends_ret appends_throw appends_emit appends_await
  appends_set_session appends_writeFileSync : appends.

(** Decompose a computation along its binds, handlers and branches. *)
Ltac appends_step :=
  match goal with
  | |- appends (bind _ _) => apply appends_bind; [|intro]
  | |- appends (try_catch _ _) => apply appends_try_catch; [|intro]
  | |- appends (try_finally _ _) => apply appends_try_finally
  | |- appends (Sys.log _) => apply appends_emit
  | |- appends (Sys.error _) => apply appends_emit
  | |- appends (Sys.error_object _ _) => apply appends_emit
  | |- appends (Sys.table _) => apply appends_emit
  | |- appends (if ?b then _ else _) => destruct b
  | |- appends (match ?x with _ => _ end) => destruct x
  | |- appends get_session => apply (appends_pure (fun w => Normal (session w)))
  | |- appends Date_now => apply (appends_pure (fun w => Normal (clock w)))
  | |- appends _ => solve [auto with appends]
  end.
Ltac appends_auto := repeat appends_step.

Lemma appends_existsSync path : appends (existsSync path).
Proof.
  unfold existsSync. appends_auto.
  apply (appends_pure (fun w => Normal (match files w path with Absent => false | _ => true end))).
Qed.

Lemma appends_readFileSync_parse path : appends (readFileSync_parse path).
Proof.
  unfold readFileSync_parse. appends_auto.
  intro w. exists []. rewrite app_nil_r.
  destruct (files w path) as [| |[| |c]]; reflexivity.
Qed.

#[local] Hint Resolve appends_existsSync appends_readFileSync_parse : appends.

Lemma appends_cli_loadCache options : appends (ValidatorCli.loadCache options).
Proof. unfold ValidatorCli.loadCache. appends_auto. Qed.

Lemma appends_script_loadCache : appends ValidatorScript.loadCache.
Proof. unfold ValidatorScript.loadCache. appends_auto. Qed.

Lemma appends_saveCache rows : appends (ValidatorCli.saveCache rows).
Proof. unfold ValidatorCli.saveCache. appends_auto. Qed.

Lemma appends_connect_each net endpoints : appends (ValidatorCli.connect_each net endpoints).
Proof.
  induction endpoints as [|endpoint rest IH]; cbn [ValidatorCli.connect_each];
    appends_auto.
Qed.

Lemma appends_disconnect : appends ValidatorCli.disconnect.
Proof.
  unfold ValidatorCli.disconnect, ValidatorCli.disconnect_answering. appends_auto.
Qed.

Lemma appends_activeEraNumber api : appends (ValidatorCli.activeEraNumber api).
Proof. unfold ValidatorCli.activeEraNumber. appends_auto. Qed.

#[local] Hint Resolve appends_cli_loadCache appends_script_loadCache appends_saveCache
  appends_connect_each appends_disconnect appends_activeEraNumber : appends.

Lemma appends_of_run {A} (c : M A) :
  (forall w, exists a evs, c w = (a, append_trace w evs)) -> appends c.
Proof. intros H w. destruct (H w) as (a & evs & ->). now exists evs. Qed.

Lemma appends_cli_batch api validators eraNumber nominatorsMap :
  appends (ValidatorCli.processValidatorsBatch api validators eraNumber nominatorsMap).
Proof.
  apply appends_of_run. intro w.
  destruct (cli_processValidatorsBatch_run api eraNumber nominatorsMap validators w)
    as (evs & H & _). eauto.
Qed.

Lemma appends_script_batch api validators eraNumber nominatorsMap :
  appends (ValidatorScript.processValidatorsBatch api validators eraNumber nominatorsMap).
Proof.
  apply appends_of_run. intro w.
  destruct (script_processValidatorsBatch_run api eraNumber nominatorsMap validators w)
    as (evs & H & _). eauto.
Qed.

Lemma appends_cli_batches api pv eraNumber nominatorsMap fuel : forall i results,
  appends (ValidatorCli.batches fuel api pv eraNumber nominatorsMap i results).
Proof.
  induction fuel as [|fuel IH]; intros i results; cbn [ValidatorCli.batches];
    appends_auto; auto using appends_cli_batch.
Qed.

Lemma appends_script_batches api pv eraNumber nominatorsMap fuel : forall i results,
  appends (ValidatorScript.batches fuel api pv eraNumber nominatorsMap i results).
Proof.
  induction fuel as [|fuel IH]; intros i results; cbn [ValidatorScript.batches];
    appends_auto; auto using appends_script_batch.
Qed.

#[local] Hint Resolve appends_cli_batch appends_script_batch appends_cli_batches
  appends_script_batches : appends.

Lemma appends_cli_getValidators options net : appends (ValidatorCli.getValidators options net).
Proof.
  unfold ValidatorCli.getValidators, ValidatorCli.fetch, ValidatorCli.fromCache, ValidatorCli.connectToNetwork,
    ValidatorCli.singleValidator, ValidatorCli.validatorSet.
  appends_auto.
Qed.

Lemma appends_script_getValidators net : appends (ValidatorScript.getValidators net).
Proof.
  unfold ValidatorScript.getValidators, ValidatorScript.fetch, ValidatorScript.connectToNetwork,
    ValidatorCli.connectToNetwork, ValidatorScript.validatorSet, ValidatorScript.saveCache.
  appends_auto.
Qed.

(* ===================================================================== *)
(** * The claims on the cache and on whole runs *)
(* ===================================================================== *)

(** ** C4: how [saveCache] writes *)

(** C4, as stated, fails: saving on a fresh machine performs one
    [writeFileSync] on the cache file itself; no other path is written and
    nothing is renamed. *)
Lemma saveCache_no_temp_no_rename :
  let w' := snd (ValidatorCli.saveCache [] fresh_world) in
  trace w' =
    [fs_writeFileSync ValidatorCli.cacheFile
       {| timestamp := Some 1700000000000%Z; data := Some [] |};
     console_log "Cache saved successfully"] /\
  (forall path c, In (fs_writeFileSync path c) (trace w') -> path = ValidatorCli.cacheFile) /\
  (forall tmp target, ~ In (fs_renameSync tmp target) (trace w')).
Proof.
  cbv zeta. split; [reflexivity|]. split.
  - intros path c [Hin|[Hin|[]]]; [|discriminate Hin].
    now injection Hin as <- _.
  - intros tmp target [Hin|[Hin|[]]]; discriminate Hin.
Qed.

(** C4, amended: [saveCache] never throws and writes the complete
    [{timestamp, data}] record, stamped with the clock of the call, by a
    single [writeFileSync] on the cache file itself; nothing is written under
    another path and nothing is renamed.  When the write succeeds the file
    holds exactly that record; when it is refused the file is as it was;
    when it fails after the file was truncated the file holds a part of the
    text, which does not parse.  So a later [loadCache] gets the saved rows,
    or a miss, or what the old file gave: never the rows of one record under
    the timestamp of another.  The earlier script saves the same way. *)
Theorem saveCache_single_write_in_place (rows : list Row) (w : World) :
  exists w',
    ValidatorCli.saveCache rows w = (Normal tt, w') /\
    ValidatorScript.saveCache rows w = (Normal tt, w') /\
    files w' ValidatorCli.cacheFile =
      match disk w ValidatorCli.cacheFile with
      | Stored => Present (JsonObject {| timestamp := Some (clock w); data := Some rows |})
      | Denied => files w ValidatorCli.cacheFile
      | Torn => Present Malformed
      end /\
    (forall later,
       fresh_entry (elapse later w') ValidatorCli.cacheFile ValidatorCli.cacheTimeout
         = Some rows \/
       fresh_entry (elapse later w') ValidatorCli.cacheFile ValidatorCli.cacheTimeout
         = None \/
       fresh_entry (elapse later w') ValidatorCli.cacheFile ValidatorCli.cacheTimeout
         = fresh_entry (elapse later w) ValidatorCli.cacheFile ValidatorCli.cacheTimeout) /\
    exists evs,
      trace w' = (trace w ++ evs)%list /\
      writes evs = [(ValidatorCli.cacheFile,
                     {| timestamp := Some (clock w); data := Some rows |})] /\
      renames evs = [].
Proof.
  exists (after_save rows w).
  destruct (after_save_fields rows w)
    as (Hclock & _ & _ & Hfile & evs & Htrace & Hw & _ & Hr & _).
  unfold ValidatorScript.saveCache. rewrite saveCache_run.
  split; [reflexivity|]. split; [reflexivity|]. split; [exact Hfile|]. split.
  - intros later. unfold fresh_entry. cbn [files clock elapse].
    rewrite Hfile, Hclock. unfold file_after_write, cache_record.
    destruct (disk w ValidatorCli.cacheFile); cbn [timestamp data].
    + destruct (clock w + later - clock w <? ValidatorCli.cacheTimeout)%Z; auto.
    + right; right; reflexivity.
    + right; left; reflexivity.
  - exists evs. repeat split; assumption.
Qed.

(** ** C9: [loadCache] never throws *)

Lemma connect_outcome_first net endpoint rest :
  exists tail,
    fst (connect_outcome net (endpoint :: rest)) =
      console_log ("Attempting to connect to " ++ endpoint ++ "...")
      :: ws_create endpoint :: tail.
Proof.
  cbn [connect_outcome]. destruct (net endpoint); [eexists; reflexivity|].
  destruct (connect_outcome net rest). eexists; reflexivity.
Qed.

(** After a miss the run of validator-cli.js goes on to the first provider. *)
Lemma cli_miss_goes_live options net w :
  (if ValidatorCli.refresh options then None
   else fresh_entry w ValidatorCli.cacheFile ValidatorCli.cacheTimeout) = None ->
  exists rest,
    trace (snd (ValidatorCli.getValidators options net w)) =
      (trace w ++ load_events w ValidatorCli.cacheFile (ValidatorCli.refresh options) ++
       console_log "Attempting to connect to wss://rpc.polkadot.io..."
       :: ws_create "wss://rpc.polkadot.io" :: rest)%list.
Proof.
  intros Hmiss.
  set (handler := fun message : string =>
         Sys.error_object "Error fetching validators:" message).
  set (live := fun api : Api =>
    if truthy_string (ValidatorCli.validator options)
    then ValidatorCli.singleValidator api
           (match ValidatorCli.validator options with Some v => v | None => EmptyString end)
    else ValidatorCli.validatorSet api options).
  assert (E : ValidatorCli.getValidators options net w =
    match connect_outcome net ValidatorCli.providers with
    | (cevs, Some api) =>
        try_finally (try_catch (live api) handler) ValidatorCli.disconnect
          (with_session (Some api)
             (append_trace w
                (load_events w ValidatorCli.cacheFile (ValidatorCli.refresh options) ++ cevs)))
    | (cevs, None) =>
        try_finally (handler "Failed to connect to any Polkadot endpoint")
          ValidatorCli.disconnect
          (append_trace w
             (load_events w ValidatorCli.cacheFile (ValidatorCli.refresh options) ++ cevs))
    end).
  { unfold ValidatorCli.getValidators, ValidatorCli.fetch, try_finally, try_catch.
    rewrite bind_run, cli_loadCache_run, Hmiss, bind_run.
    unfold ValidatorCli.connectToNetwork. rewrite connect_each_run.
    destruct (connect_outcome net ValidatorCli.providers) as [cevs [api|]];
      rewrite append_trace_app; reflexivity. }
  rewrite E.
  destruct (connect_outcome_first net "wss://rpc.polkadot.io"
              ["wss://polkadot-rpc.dwellir.com"; "wss://polkadot.api.onfinality.io/public-ws"])
    as (tail & Hfirst).
  change (connect_outcome net ValidatorCli.providers) with
    (connect_outcome net ("wss://rpc.polkadot.io" ::
       ["wss://polkadot-rpc.dwellir.com"; "wss://polkadot.api.onfinality.io/public-ws"])).
  destruct (connect_outcome net _) as [cevs [api|]]; cbn [fst] in Hfirst; subst cevs.
  - assert (Happ : appends (try_finally (try_catch (live api) handler) ValidatorCli.disconnect)).
    { unfold live, handler, ValidatorCli.singleValidator, ValidatorCli.validatorSet.
      appends_auto. }
    match goal with |- context [try_finally _ _ ?w0] => destruct (Happ w0) as (evs & Hevs) end.
    rewrite Hevs. cbn [trace with_session append_trace].
    exists (tail ++ evs)%list. rewrite <- !app_assoc. reflexivity.
  - assert (Happ : appends (try_finally (handler "Failed to connect to any Polkadot endpoint")
                              ValidatorCli.disconnect)).
    { unfold handler. appends_auto. }
    match goal with |- context [try_finally _ _ ?w0] => destruct (Happ w0) as (evs & Hevs) end.
    rewrite Hevs. cbn [trace with_session append_trace].
    exists (tail ++ evs)%list. rewrite <- !app_assoc. reflexivity.
Qed.

(** C9: [loadCache] returns, and never throws, in every state of the cache
    file.  It returns the miss value when the file is absent, cannot be
    read, does not parse (or parses to [null]), or holds an entry whose age
    has reached the time-to-live; after a miss the run goes on to connect to
    the first provider.  With the refresh flag it returns a miss without
    reading the file.  The earlier script, which has no flag, behaves the
    same way on the file. *)
Theorem loadCache_never_throws (options : ValidatorCli.Options) (w : World) :
  exists r evs r' evs',
    ValidatorCli.loadCache options w = (Normal r, append_trace w evs) /\
    ValidatorScript.loadCache w = (Normal r', append_trace w evs') /\
    (files w ValidatorCli.cacheFile = Absent \/
     files w ValidatorCli.cacheFile = Unreadable \/
     files w ValidatorCli.cacheFile = Present Malformed \/
     files w ValidatorCli.cacheFile = Present JsonNull \/
     (exists c t, files w ValidatorCli.cacheFile = Present (JsonObject c) /\
                  timestamp c = Some t /\ (ValidatorCli.cacheTimeout <= clock w - t)%Z) ->
     r = None /\ r' = None) /\
    (ValidatorCli.refresh options = true -> r = None /\ reads evs = []) /\
    (r = None ->
     forall net, exists rest,
       trace (snd (ValidatorCli.getValidators options net w)) =
         (trace w ++ evs ++
          console_log "Attempting to connect to wss://rpc.polkadot.io..."
          :: ws_create "wss://rpc.polkadot.io" :: rest)%list).
Proof.
  do 4 eexists.
  split; [apply cli_loadCache_run|]. split; [apply script_loadCache_at|].
  split; [|split].
  - unfold fresh_entry.
    change ValidatorScript.cacheFile with ValidatorCli.cacheFile.
    change ValidatorScript.cacheTimeout with ValidatorCli.cacheTimeout.
    intros [H|[H|[H|[H|(c & t & H & Ht & Hage)]]]]; rewrite H;
      try (destruct (ValidatorCli.refresh options); split; reflexivity).
    rewrite Ht. apply Z.ltb_ge in Hage. rewrite Hage.
    destruct (ValidatorCli.refresh options); split; reflexivity.
  - intros ->. split; [reflexivity|].
    unfold load_events. rewrite andb_false_r. reflexivity.
  - intros Hnone net. now apply cli_miss_goes_live.
Qed.

(** ** C3: one cache entry for every scope *)

Definition always_up : Network := fun _ => Resolved scenario_api.

Definition lookup_V : ValidatorCli.Options :=
  {| ValidatorCli.limit := None; ValidatorCli.validator := Some "V";
     ValidatorCli.refresh := false; ValidatorCli.help := false |}.

Definition full_set : ValidatorCli.Options :=
  {| ValidatorCli.limit := None; ValidatorCli.validator := None;
     ValidatorCli.refresh := false; ValidatorCli.help := false |}.

(** C3, as stated, fails: on a fresh machine a lookup of validator [V] saves
    its one row as the cache entry; a run over the validator set one second
    later opens no connection and shows that one row as its result, although
    the session has two validators. *)
Lemma full_set_run_served_from_single_entry :
  let w1 := snd (ValidatorCli.getValidators lookup_V always_up fresh_world) in
  let run2 := ValidatorCli.getValidators full_set always_up (elapse 1000 w1) in
  let shown := skipn (List.length (trace w1)) (trace (snd run2)) in
  exists row,
    Validator row = "V" /\
    writes (trace w1) =
      [(ValidatorCli.cacheFile,
        {| timestamp := Some 1700000000000%Z; data := Some [row] |})] /\
    query_session_validators scenario_api = Resolved [ValidatorScript.testValidator; "V"] /\
    fst run2 = Normal tt /\
    tables shown = [[row]] /\
    contacts shown = [].
Proof.
  cbv zeta.
  exists (ValidatorCli.report "V"
            (ValidatorCli.estimate
               (Some {| commission := 50000000 |})
               (Some {| stakingLedger := Some {| total := 1000000000000 |} |})
               {| exposure_total := 11000000000000; own := 1000000000000;
                  others := [ {| who := "n1"; value := 10000000000000 |} ] |}
               ["n1"; "n2"; "n3"])).
  split; [reflexivity|].
  split; [vm_compute; reflexivity|].
  split; [reflexivity|].
  split; [vm_compute; reflexivity|].
  split; vm_compute; reflexivity.
Qed.

(** C3, amended: the cache file holds one entry with no scope key.  A run
    for one validator that the cache does not answer and whose queries for
    the era and the nominators resolve saves its one row as the entry, and
    the entry stays fresh until the time-to-live has passed.  A fresh entry,
    whichever run wrote it, answers every run without the refresh flag, and
    no connection is opened: a run over the validator set shows the cached
    rows (cut to the limit, if one is given), a run for one validator shows
    the first cached row of that validator, or reports that it is not in the
    cache. *)
Theorem cached_entry_answers_every_scope
    (net : Network) (api : Api) (index : N) (nominatorsData : list NominatorEntry)
    (single : ValidatorCli.Options) (wanted : string) (w : World) (later : Z) :
  session w = None ->
  (if ValidatorCli.refresh single then None
   else fresh_entry w ValidatorCli.cacheFile ValidatorCli.cacheTimeout) = None ->
  ValidatorCli.validator single = Some wanted ->
  truthy_string (Some wanted) = true ->
  snd (connect_outcome net ValidatorCli.providers) = Some api ->
  query_staking_activeEra api = Resolved (Some index) ->
  query_staking_nominators_entries api = Resolved nominatorsData ->
  disk w ValidatorCli.cacheFile = Stored ->
  (later < ValidatorCli.cacheTimeout)%Z ->
  let row := cli_row api (digits index) (ValidatorCli.buildNominatorsMap nominatorsData)
               wanted in
  (exists w1,
     ValidatorCli.getValidators single net w = (Normal tt, w1) /\
     session w1 = None /\
     files w1 ValidatorCli.cacheFile =
       Present (JsonObject {| timestamp := Some (clock w); data := Some [row] |}) /\
     fresh_entry (elapse later w1) ValidatorCli.cacheFile ValidatorCli.cacheTimeout
       = Some [row]) /\
  (forall (w0 : World) (rows : list Row) (next : ValidatorCli.Options) (net' : Network),
     session w0 = None ->
     ValidatorCli.refresh next = false ->
     fresh_entry w0 ValidatorCli.cacheFile ValidatorCli.cacheTimeout = Some rows ->
     exists shown,
       ValidatorCli.getValidators next net' w0 =
         (Normal tt,
          append_trace w0
            (fs_existsSync ValidatorCli.cacheFile
             :: fs_readFileSync ValidatorCli.cacheFile
             :: console_log "Using cached validator data" :: shown)) /\
       contacts shown = [] /\ writes shown = [] /\
       (truthy_string (ValidatorCli.validator next) = false ->
        tables shown =
          [match ValidatorCli.limit next with
           | Some n => if truthy_int (ValidatorCli.limit next) then slice0 rows n else rows
           | None => rows
           end]) /\
       (truthy_string (ValidatorCli.validator next) = true ->
        tables shown =
          match find (fun v => String.eqb (Validator v)
                        (match ValidatorCli.validator next with
                         | Some v => v | None => EmptyString end)) rows with
          | Some validatorData => [[validatorData]]
          | None => []
          end)).
Proof.
  intros Hsession Hmiss Hwanted Htruthy Hup Hera Hentries Hstored Hlater row.
  split.
  - destruct (cli_getValidators_single net api index nominatorsData Hup Hera Hentries
                single w wanted Hsession Hmiss Hwanted Htruthy)
      as (w1 & Hrun & Hclock & Hs1 & _ & Hfile & _).
    fold row in Hfile. unfold file_after_write in Hfile. rewrite Hstored in Hfile.
    exists w1. split; [exact Hrun|]. split; [exact Hs1|]. split; [exact Hfile|].
    unfold fresh_entry. cbn [files clock elapse]. rewrite Hfile, Hclock.
    unfold cache_record. cbn [timestamp data].
    replace (clock w + later - clock w)%Z with later by lia.
    apply Z.ltb_lt in Hlater. now rewrite Hlater.
  - intros w0 rows next net' Hs0 Hrefresh Hentry.
    exists (cache_display next rows).
    split.
    + rewrite (cli_getValidators_cached next net' w0 rows); auto.
      unfold load_events, exists_file, read_failure.
      unfold fresh_entry in Hentry.
      destruct (files w0 ValidatorCli.cacheFile) as [| |[| |c]]; try discriminate Hentry.
      reflexivity.
    + unfold cache_display.
      destruct (truthy_string (ValidatorCli.validator next)).
      * destruct (find _ rows);
          repeat split; intros; try discriminate; reflexivity.
      * repeat split; intros; try discriminate; reflexivity.
Qed.

Lemma cached_entry_answers_every_scope_witness :
  session fresh_world = None /\
  snd (connect_outcome always_up ValidatorCli.providers) = Some scenario_api /\
  disk fresh_world ValidatorCli.cacheFile = Stored /\
  (1000 < ValidatorCli.cacheTimeout)%Z /\
  exists w1,
    ValidatorCli.getValidators lookup_V always_up fresh_world = (Normal tt, w1) /\
    fresh_entry (elapse 1000 w1) ValidatorCli.cacheFile ValidatorCli.cacheTimeout
      = Some [cli_row scenario_api (digits 1500)
                (ValidatorCli.buildNominatorsMap
                   [ {| key_arg := Some "n1";
                        nominations := Some [ValidatorScript.testValidator; "V"] |};
                     {| key_arg := Some "n2";
                        nominations := Some [ValidatorScript.testValidator; "V"] |};
                     {| key_arg := Some "n3";
                        nominations := Some ["V"; ValidatorScript.testValidator] |} ])
                "V"].
Proof.
  split; [reflexivity|]. split; [reflexivity|]. split; [reflexivity|].
  split; [reflexivity|].
  destruct (proj1 (cached_entry_answers_every_scope always_up scenario_api 1500 _ lookup_V
              "V" fresh_world 1000 eq_refl eq_refl eq_refl eq_refl eq_refl eq_refl eq_refl
              eq_refl eq_refl)) as (w1 & Hrun & _ & _ & Hfresh).
  exists w1. split; [exact Hrun | exact Hfresh].
Defined.

(** ** C8: a failing validator does not stop the others *)

Lemma cli_row_validator api eraNumber nominatorsMap v :
  Validator (cli_row api eraNumber nominatorsMap v) = v.
Proof. unfold cli_row. destruct (answers api eraNumber v) as [[[p s] x]|m]; reflexivity. Qed.

Lemma script_row_validator api eraNumber nominatorsMap v :
  Validator (script_row api eraNumber nominatorsMap v) = v.
Proof. unfold script_row. destruct (answers api eraNumber v) as [[[p s] x]|m]; reflexivity. Qed.

Lemma map_validator_rows (f : AccountId -> Row) (l : list AccountId) :
  (forall v, Validator (f v) = v) -> map Validator (map f l) = l.
Proof. intros H. rewrite map_map. rewrite <- (map_id l) at 2. now apply map_ext. Qed.

(** C8: a batch of N validators always returns, with exactly N rows in the
    order of the input; the row of a validator is the zero row
    (every amount [0.00], nominators [0/0]) as soon as one of its queries
    rejects, and the computed report otherwise.  The loop over the batches
    ends by its own test and returns the same rows for the whole list, so a
    failure stops neither its batch nor the batches after it.  Both scripts
    behave this way. *)
Theorem failures_are_isolated
    (api : Api) (eraNumber : string) (nominatorsMap : Dict (list string))
    (validators : list AccountId) (w : World) :
  exists rows rows' w1 w2 w3 w4,
    ValidatorCli.processValidatorsBatch api validators eraNumber nominatorsMap w
      = (Normal rows, w1) /\
    ValidatorCli.batches (List.length validators) api validators eraNumber nominatorsMap
      0 [] w = (Normal rows, w2) /\
    ValidatorScript.processValidatorsBatch api validators eraNumber nominatorsMap w
      = (Normal rows', w3) /\
    ValidatorScript.batches (List.length validators) api validators eraNumber nominatorsMap
      0 [] w = (Normal rows', w4) /\
    List.length rows = List.length validators /\
    List.length rows' = List.length validators /\
    map Validator rows = validators /\
    map Validator rows' = validators /\
    (forall i v, nth_error validators i = Some v ->
       match answers api eraNumber v with
       | inr _ =>
           nth_error rows i = Some (ValidatorCli.fallback v) /\
           nth_error rows' i = Some (ValidatorCli.fallback v)
       | inl (prefs, stakingInfo, exposure) =>
           let targeting := ValidatorCli.targetingNominators nominatorsMap v in
           nth_error rows i =
             Some (ValidatorCli.report v
                     (ValidatorCli.estimate prefs stakingInfo exposure targeting)) /\
           nth_error rows' i =
             Some (ValidatorCli.report v
                     (ValidatorScript.estimate (String.eqb v ValidatorScript.testValidator)
                        prefs stakingInfo exposure targeting))
       end) /\
    (forall v,
       Forall (fun amount => amount = "0.00" /\ parseFloat amount = of_Z 0)
              (monetary_fields (ValidatorCli.fallback v)) /\
       Nominators_Active_Total (ValidatorCli.fallback v) = "0/0").
Proof.
  destruct (cli_processValidatorsBatch_run api eraNumber nominatorsMap validators w)
    as (e1 & H1 & _).
  destruct (cli_batches_run api eraNumber nominatorsMap validators
              (List.length validators) 0 [] w) as (e2 & H2 & _); [lia|].
  destruct (script_processValidatorsBatch_run api eraNumber nominatorsMap validators w)
    as (e3 & H3 & _).
  destruct (script_batches_run api eraNumber nominatorsMap validators
              (List.length validators) 0 [] w) as (e4 & H4 & _); [lia|].
  cbn [skipn app] in H2, H4.
  do 6 eexists.
  split; [exact H1|]. split; [exact H2|]. split; [exact H3|]. split; [exact H4|].
  split; [apply length_map|]. split; [apply length_map|].
  split; [apply map_validator_rows, cli_row_validator|].
  split; [apply map_validator_rows, script_row_validator|].
  split.
  - intros i v Hnth. rewrite !nth_error_map, Hnth. cbn [option_map].
    unfold cli_row, script_row.
    destruct (answers api eraNumber v) as [[[p s] x]|m]; split; reflexivity.
  - intros v. split; [|reflexivity].
    repeat constructor; vm_compute; reflexivity.
Qed.

(** ** C10: a run over the validator set stops at the first hundred *)



(** A machine whose cache was just filled with one row. *)
Definition cached_world : World :=
  snd (ValidatorCli.saveCache [ValidatorCli.fallback "V"] fresh_world).

(** The options of [--refresh] alone. *)
Definition refresh_all : ValidatorCli.Options :=
  {| ValidatorCli.limit := None; ValidatorCli.validator := None;
     ValidatorCli.refresh := true; ValidatorCli.help := false |}.


(** ** C7: how many decimals a row shows *)

(** The number of characters after the point of a decimal text
    ([-]digits[.digits]); [None] for any other text. *)
Fixpoint all_digits (s : string) : bool :=
  match s with
  | EmptyString => true
  | String c r => andb (is_digit c) (all_digits r)
  end.

Fixpoint after_point (s : string) : option (string * string) :=
  match s with
  | EmptyString => None
  | String c r =>
      if Ascii.eqb c "." then Some (EmptyString, r)
      else match after_point r with
           | Some (a, b) => Some (String c a, b)
           | None => None
           end
  end.

Definition decimal_places (s : string) : option nat :=
  let body := match s with String "-" r => r | _ => s end in
  match after_point body with
  | Some (a, b) =>
      if andb (negb (String.eqb a EmptyString)) (andb (all_digits a) (all_digits b))
      then Some (String.length b) else None
  | None => if andb (negb (String.eqb body EmptyString)) (all_digits body) then Some 0%nat else None
  end.

Lemma all_digits_app a b : all_digits (a ++ b) = andb (all_digits a) (all_digits b).
Proof. induction a as [|c a IH]; cbn; [reflexivity|]. now rewrite IH, andb_assoc. Qed.

Lemma all_digits_zeros n : all_digits (zeros n) = true.
Proof. induction n; cbn; auto. Qed.

Lemma all_digits_substring s : forall n m,
  all_digits s = true -> all_digits (substring n m s) = true.
Proof.
  induction s as [|c s IH]; intros [|n] [|m] H; cbn in *; auto;
    apply andb_true_iff in H as [Hc Hs]; auto.
  now rewrite Hc, IH.
Qed.

Lemma length_substring s : forall n m,
  (n + m <= String.length s)%nat -> String.length (substring n m s) = m.
Proof.
  induction s as [|c s IH]; intros [|n] [|m] H; cbn in *; try lia; auto.
  - rewrite IH; lia.
  - apply IH; lia.
  - apply IH; lia.
Qed.

Lemma string_length_app a b : String.length (a ++ b) = (String.length a + String.length b)%nat.
Proof. induction a; cbn; auto. Qed.

Lemma string_length_zeros n : String.length (zeros n) = n.
Proof. induction n; cbn; auto. Qed.

Lemma all_digits_uint d : all_digits (NilEmpty.string_of_uint d) = true.
Proof. induction d; cbn; auto. Qed.

Lemma digits_all n : all_digits (digits n) = true.
Proof. apply all_digits_uint. Qed.

Lemma digits_nonempty n : (1 <= String.length (digits n))%nat.
Proof.
  unfold digits.
  assert (H : N.to_uint n <> Nil).
  { destruct n; cbn; [discriminate|apply Unsigned.to_uint_nonnil]. }
  destruct (N.to_uint n); cbn; try lia. contradiction.
Qed.

Lemma after_point_digits a b :
  all_digits a = true -> after_point (a ++ String "." b) = Some (a, b).
Proof.
  induction a as [|c a IH]; cbn; intros H; [reflexivity|].
  apply andb_true_iff in H as [Hc Ha].
  destruct (Ascii.eqb c ".") eqn:E.
  - apply Ascii.eqb_eq in E. subst c. discriminate.
  - now rewrite IH.
Qed.

Lemma decimal_places_point a b :
  (1 <= String.length a)%nat -> all_digits a = true -> all_digits b = true ->
  decimal_places (a ++ "." ++ b) = Some (String.length b) /\
  decimal_places ("-" ++ a ++ "." ++ b) = Some (String.length b).
Proof.
  intros Hlen Ha Hb.
  change (a ++ "." ++ b) with (a ++ String "." b).
  assert (Hbody :
            match after_point (a ++ String "." b) with
            | Some (x, y) =>
                if andb (negb (String.eqb x EmptyString)) (andb (all_digits x) (all_digits y))
                then Some (String.length y) else None
            | None => if andb (negb (String.eqb (a ++ String "." b) EmptyString))
                              (all_digits (a ++ String "." b))
                      then Some 0%nat else None
            end = Some (String.length b)).
  { rewrite after_point_digits by assumption.
    rewrite Ha, Hb. destruct a; [cbn in Hlen; lia|]. reflexivity. }
  split; [|exact Hbody].
  unfold decimal_places. destruct a as [|c a]; [cbn in Hlen; lia|].
  cbn [all_digits] in Ha. apply andb_true_iff in Ha as [Hc _].
  cbn [append] in *.
  destruct (Ascii.eqb c "-") eqn:E.
  - apply Ascii.eqb_eq in E. subst c. discriminate.
  - destruct c as [[] [] [] [] [] [] [] []]; try exact Hbody. discriminate.
Qed.

Lemma toFixed_places x f :
  is_finite x = true ->
  (fst (magnitude x) < 10 ^ 21 * snd (magnitude x))%N ->
  (0 < f)%nat ->
  decimal_places (toFixed x f) = Some f.
Proof.
  intros Hfin Hbelow Hf. unfold toFixed. rewrite Hfin. cbn [negb].
  destruct (magnitude x) as [p q]. cbn [fst snd] in Hbelow.
  apply N.leb_gt in Hbelow. rewrite Hbelow.
  destruct (Nat.eqb_spec f 0) as [->|_]; [lia|].
  set (n := ((2 * p * 10 ^ N.of_nat f + q) / (2 * q))%N).
  set (m := if (String.length (digits n) <=? f)%nat
            then zeros (f + 1 - String.length (digits n)) ++ digits n
            else digits n).
  assert (Hm : all_digits m = true).
  { unfold m. destruct (_ <=? _)%nat; [rewrite all_digits_app, all_digits_zeros|];
      now rewrite digits_all. }
  assert (Hk : (f + 1 <= String.length m)%nat).
  { unfold m. destruct (Nat.leb_spec (String.length (digits n)) f).
    - rewrite string_length_app, string_length_zeros. lia.
    - lia. }
  assert (Hb : String.length (substring (String.length m - f) f m) = f)
    by (apply length_substring; lia).
  assert (Ha : String.length (substring 0 (String.length m - f) m) = (String.length m - f)%nat)
    by (apply length_substring; lia).
  destruct (decimal_places_point (substring 0 (String.length m - f) m)
              (substring (String.length m - f) f m)) as [H1 H2];
    try (now apply all_digits_substring); [lia|].
  rewrite Hb in H1, H2.
  destruct (negative x); [exact H2 | exact H1].
Qed.

(** An amount [toFixed] writes in fixed notation: finite and below [10^21]. *)
Definition below_cutoff (x : number) : Prop :=
  is_finite x = true /\ (fst (magnitude x) < 10 ^ 21 * snd (magnitude x))%N.

(** The rows of the [try] branch show four decimals for every amount in fixed
    notation, and two for the commission. *)
Lemma report_shows_four_decimals validatorAddress (e : ValidatorCli.Estimate) :
  Forall below_cutoff
    [ValidatorCli.ownStake e; ValidatorCli.activeStake e; ValidatorCli.inactiveStake e;
     ValidatorCli.totalNomination e; ValidatorCli.totalActiveStake e] ->
  below_cutoff (ValidatorCli.commissionPct e) ->
  Forall (fun amount => decimal_places amount = Some 4%nat)
         (monetary_fields (ValidatorCli.report validatorAddress e)) /\
  decimal_places (Commission_pct (ValidatorCli.report validatorAddress e)) = Some 2%nat.
Proof.
  intros Hamounts [Hc1 Hc2].
  split; [|apply toFixed_places; auto].
  unfold monetary_fields, ValidatorCli.report; cbn [Self_Bond_DOT Active_Nomination_DOT
    Inactive_Nomination_DOT Total_Nomination_DOT Total_Active_Stake_DOT].
  repeat match goal with
         | H : Forall _ (_ :: _) |- _ => inversion H as [|? ? [? ?] ?]; subst; clear H
         end.
  repeat constructor; apply toFixed_places; auto.
Qed.

(** From [10^21] tokens on, [toFixed] answers in exponent notation. *)
Example toFixed_exponent_notation : toFixed (of_Z (10 ^ 21)) 4 = "1e+21".
Proof. vm_compute. reflexivity. Qed.

(** A node on which every query about a validator rejects. *)
Definition failing_api : Api :=
  {| query_session_validators := Resolved ["V"];
     query_staking_activeEra := Resolved (Some 1500%N);
     query_staking_validators := fun _ => Rejected "disconnected";
     derive_staking_account := fun _ => Rejected "disconnected";
     query_staking_erasStakers := fun _ _ => Rejected "disconnected";
     query_staking_nominators_entries := Resolved [] |}.

(** C7 at the failing input: when a query of validator [V] rejects, both
    scripts return the row of the [catch] branch, whose five amounts are the
    literal [0.00]: two decimals, not four.  The row computed for the same
    validator when its queries resolve shows four decimals for every amount
    and two for the commission. *)
Theorem fallback_row_shows_two_decimals :
  let row := ValidatorCli.fallback "V" in
  fst (ValidatorCli.processValidator failing_api "1500" [] "V" fresh_world) = Normal row /\
  fst (ValidatorScript.processValidator failing_api "1500" [] "V" fresh_world) = Normal row /\
  monetary_fields row = ["0.00"; "0.00"; "0.00"; "0.00"; "0.00"] /\
  Forall (fun amount => decimal_places amount = Some 2%nat) (monetary_fields row) /\
  decimal_places (Commission_pct row) = Some 2%nat /\
  (exists row',
     fst (ValidatorCli.processValidator scenario_api "1500" scenario_registry "V" fresh_world)
       = Normal row' /\
     Forall (fun amount => decimal_places amount = Some 4%nat) (monetary_fields row') /\
     decimal_places (Commission_pct row') = Some 2%nat).
Proof.
  cbv zeta. repeat split; try (repeat constructor; fail).
  eexists. split; [vm_compute; reflexivity|].
  split; [repeat constructor|reflexivity].
Qed.

(* ===================================================================== *)
(** * Further properties of the two scripts *)
(* ===================================================================== *)

(** ** Every run returns, and closes the connection it opened *)

Definition disconnects (evs : list Event) : list unit :=
  flat_map (fun e => match e with api_disconnect => [tt] | _ => [] end) evs.

Lemma disconnects_app a b : disconnects (a ++ b) = (disconnects a ++ disconnects b)%list.
Proof. apply flat_map_app. Qed.

(** A computation that leaves the session as it is and closes nothing. *)
Definition holds_session {A} (c : M A) : Prop :=
  forall w,
    session (snd (c w)) = session w /\
    exists evs, trace (snd (c w)) = (trace w ++ evs)%list /\ disconnects evs = [].

Lemma holds_ret {A} (a : A) : holds_session (ret a).
Proof. intro w. split; [reflexivity|]. exists []. cbn. now rewrite app_nil_r. Qed.

Lemma holds_throw {A} m : holds_session (@throw A m).
Proof. intro w. split; [reflexivity|]. exists []. cbn. now rewrite app_nil_r. Qed.

Lemma holds_pure {A} (f : World -> completion A) : holds_session (fun w => (f w, w)).
Proof. intro w. split; [reflexivity|]. exists []. cbn. now rewrite app_nil_r. Qed.

Lemma holds_await {A} (p : response A) : holds_session (await p).
Proof. destruct p; [apply holds_ret | apply holds_throw]. Qed.

Lemma holds_bind {A B} (c : M A) (k : A -> M B) :
  holds_session c -> (forall a, holds_session (k a)) -> holds_session (bind c k).
Proof.
  intros Hc Hk w. destruct (Hc w) as (S1 & e1 & H1 & D1). unfold bind.
  destruct (c w) as [[a|m] w1]; cbn [snd] in *.
  - destruct (Hk a w1) as (S2 & e2 & H2 & D2). split; [congruence|].
    exists (e1 ++ e2)%list. rewrite H2, H1, app_assoc, disconnects_app, D1, D2. now split.
  - split; [exact S1|]. now exists e1.
Qed.

Lemma holds_try_catch {A} (c : M A) (h : string -> M A) :
  holds_session c -> (forall m, holds_session (h m)) -> holds_session (try_catch c h).
Proof.
  intros Hc Hh w. destruct (Hc w) as (S1 & e1 & H1 & D1). unfold try_catch.
  destruct (c w) as [[a|m] w1]; cbn [snd] in *.
  - split; [exact S1|]. now exists e1.
  - destruct (Hh m w1) as (S2 & e2 & H2 & D2). split; [congruence|].
    exists (e1 ++ e2)%list. rewrite H2, H1, app_assoc, disconnects_app, D1, D2. now split.
Qed.

Lemma holds_of_run {A} (c : M A) :
  (forall w, exists a evs, c w = (a, append_trace w evs) /\ Forall console_text evs) ->
  holds_session c.
Proof.
  intros H w. destruct (H w) as (a & evs & -> & Hevs). split; [reflexivity|].
  exists evs. split; [reflexivity|].
  induction Hevs as [|e evs He _ IH]; [reflexivity|].
  destruct e; cbn in He; try contradiction; exact IH.
Qed.

Lemma holds_emit e : e <> api_disconnect -> holds_session (emit e).
Proof.
  intros He w. split; [reflexivity|]. exists [e]. split; [reflexivity|].
  destruct e; try reflexivity. now contradiction He.
Qed.

Lemma holds_saveCache rows : holds_session (ValidatorCli.saveCache rows).
Proof.
  intro w. rewrite saveCache_run. cbn [snd].
  destruct (after_save_fields rows w) as (_ & Hs & _ & _ & evs & Ht & _).
  split; [exact Hs|]. exists evs. split; [exact Ht|].
  unfold after_save in Ht.
  destruct (disk w ValidatorCli.cacheFile); cbn [trace append_trace with_file] in Ht;
    apply app_inv_head in Ht; subst evs; reflexivity.
Qed.

Lemma holds_activeEraNumber api : holds_session (ValidatorCli.activeEraNumber api).
Proof.
  unfold ValidatorCli.activeEraNumber. apply holds_bind; [apply holds_await|].
  intros [index|]; [apply holds_ret | apply holds_throw].
Qed.

Lemma holds_cli_batch api validators eraNumber nominatorsMap :
  holds_session (ValidatorCli.processValidatorsBatch api validators eraNumber nominatorsMap).
Proof.
  apply holds_of_run. intro w.
  destruct (cli_processValidatorsBatch_run api eraNumber nominatorsMap validators w)
    as (evs & H & T). eauto.
Qed.

Lemma holds_script_batch api validators eraNumber nominatorsMap :
  holds_session (ValidatorScript.processValidatorsBatch api validators eraNumber nominatorsMap).
Proof.
  apply holds_of_run. intro w.
  destruct (script_processValidatorsBatch_run api eraNumber nominatorsMap validators w)
    as (evs & H & T). eauto.
Qed.

Create HintDb holds.
#[local] Hint Resolve holds_ret holds_throw holds_await holds_saveCache holds_activeEraNumber
  holds_cli_batch holds_script_batch : holds.

Ltac holds_step :=
  match goal with
  | |- holds_session (bind _ _) => apply holds_bind; [|intro]
  | |- holds_session (try_catch _ _) => apply holds_try_catch; [|intro]
  | |- holds_session (Sys.log _) => apply holds_emit; discriminate
  | |- holds_session (Sys.error _) => apply holds_emit; discriminate
  | |- holds_session (Sys.error_object _ _) => apply holds_emit; discriminate
  | |- holds_session (Sys.table _) => apply holds_emit; discriminate
  | |- holds_session (if ?b then _ else _) => destruct b
  | |- holds_session (match ?x with _ => _ end) => destruct x
  | |- holds_session _ => solve [auto with holds]
  end.
Ltac holds_auto := repeat holds_step.

Lemma holds_cli_batches api pv eraNumber nominatorsMap fuel : forall i results,
  holds_session (ValidatorCli.batches fuel api pv eraNumber nominatorsMap i results).
Proof.
  induction fuel as [|fuel IH]; intros i results; cbn [ValidatorCli.batches]; holds_auto.
Qed.

Lemma holds_script_batches api pv eraNumber nominatorsMap fuel : forall i results,
  holds_session (ValidatorScript.batches fuel api pv eraNumber nominatorsMap i results).
Proof.
  induction fuel as [|fuel IH]; intros i results; cbn [ValidatorScript.batches]; holds_auto.
Qed.

#[local] Hint Resolve holds_cli_batches holds_script_batches : holds.

(** What [getValidators] does with an open connection, before its handlers. *)
Definition cli_live (options : ValidatorCli.Options) (api : Api) : M unit :=
  if truthy_string (ValidatorCli.validator options) then
    ValidatorCli.singleValidator api
      (match ValidatorCli.validator options with Some v => v | None => EmptyString end)
  else ValidatorCli.validatorSet api options.

Definition fetch_handler (message : string) : M unit :=
  Sys.error_object "Error fetching validators:" message.

Lemma holds_cli_live options api : holds_session (cli_live options api).
Proof.
  unfold cli_live, ValidatorCli.singleValidator, ValidatorCli.validatorSet. holds_auto.
Qed.

Lemma holds_script_live api : holds_session (ValidatorScript.validatorSet api).
Proof.
  unfold ValidatorScript.validatorSet, ValidatorScript.saveCache. holds_auto.
Qed.

(** How a run ends that has to close its connection: as [api.disconnect()]
    answers. *)
Definition closed (closing : response unit) : completion unit :=
  match closing with
  | Resolved _ => Normal tt
  | Rejected message => Thrown message
  end.

(** With an open session, the guarded body followed by the [finally] block
    asks the node to disconnect, once, and ends as the node answers. *)
Lemma guarded_body_closes (closing : response unit) (body : M unit) api w :
  holds_session body ->
  session w = Some api ->
  exists w' evs,
    try_finally (try_catch body fetch_handler) (ValidatorCli.disconnect_answering closing) w
      = (closed closing, w') /\
    session w' = match closing with Resolved _ => None | Rejected _ => Some api end /\
    files w' = files (snd (try_catch body fetch_handler w)) /\
    trace w' = (trace w ++ evs)%list /\
    disconnects evs = [tt].
Proof.
  intros Hbody Hsession.
  assert (Hguard : holds_session (try_catch body fetch_handler)).
  { apply holds_try_catch; [exact Hbody|]. intro m. apply holds_emit. discriminate. }
  destruct (Hguard w) as (Hs & evs & Ht & Hd).
  assert (Hnormal : fst (try_catch body fetch_handler w) = Normal tt).
  { unfold try_catch. destruct (body w) as [[[]|m] w1]; reflexivity. }
  unfold try_finally.
  destruct (try_catch body fetch_handler w) as [r w1]. cbn [fst snd] in *. subst r.
  rewrite disconnect_answering_run, Hs, Hsession.
  destruct closing as [u|message]; cbn [closed].
  - do 2 eexists. split; [reflexivity|].
    cbn [session files trace with_session append_trace].
    split; [reflexivity|]. split; [reflexivity|].
    rewrite Ht, <- app_assoc. split; [reflexivity|].
    rewrite disconnects_app, Hd. reflexivity.
  - do 2 eexists. split; [reflexivity|].
    cbn [session files trace with_session append_trace].
    split; [congruence|]. split; [reflexivity|].
    rewrite Ht, <- app_assoc. split; [reflexivity|].
    rewrite disconnects_app, Hd. reflexivity.
Qed.

(** The run of validator-cli.js, unfolded up to the connection. *)
Lemma cli_getValidators_unfold closing options net w :
  ValidatorCli.getValidators_closing closing options net w =
  let load := load_events w ValidatorCli.cacheFile (ValidatorCli.refresh options) in
  let final := ValidatorCli.disconnect_answering closing in
  match (if ValidatorCli.refresh options then None
         else fresh_entry w ValidatorCli.cacheFile ValidatorCli.cacheTimeout) with
  | Some cachedData =>
      try_finally (ret tt) final
        (append_trace w (load ++ console_log "Using cached validator data"
                                  :: cache_display options cachedData))
  | None =>
      match connect_outcome net ValidatorCli.providers with
      | (cevs, Some api) =>
          try_finally (try_catch (cli_live options api) fetch_handler) final
            (with_session (Some api) (append_trace w (load ++ cevs)))
      | (cevs, None) =>
          try_finally (fetch_handler "Failed to connect to any Polkadot endpoint")
            final (append_trace w (load ++ cevs))
      end
  end.
Proof.
  cbv zeta. unfold ValidatorCli.getValidators_closing, ValidatorCli.fetch, try_finally,
    try_catch.
  rewrite bind_run, cli_loadCache_run.
  destruct (if ValidatorCli.refresh options then None else _) as [cachedData|].
  - rewrite fromCache_run, append_trace_app. reflexivity.
  - rewrite bind_run. unfold ValidatorCli.connectToNetwork. rewrite connect_each_run.
    destruct (connect_outcome net ValidatorCli.providers) as [cevs [api|]];
      rewrite append_trace_app; reflexivity.
Qed.

Lemma script_getValidators_unfold closing net w :
  ValidatorScript.getValidators_closing closing net w =
  let final := ValidatorCli.disconnect_answering closing in
  match fresh_entry w ValidatorScript.cacheFile ValidatorScript.cacheTimeout with
  | Some cachedData =>
      try_finally (ret tt) final
        (append_trace w (script_load_events w ++
                         [console_log "Using cached validator data";
                          console_table cachedData]))
  | None =>
      match connect_outcome net ValidatorCli.providers with
      | (cevs, Some api) =>
          try_finally (try_catch (ValidatorScript.validatorSet api) fetch_handler) final
            (with_session (Some api) (append_trace w (script_load_events w ++ cevs)))
      | (cevs, None) =>
          try_finally (fetch_handler "Failed to connect to any Polkadot endpoint")
            final (append_trace w (script_load_events w ++ cevs))
      end
  end.
Proof.
  cbv zeta. unfold ValidatorScript.getValidators_closing, ValidatorScript.fetch, try_finally,
    try_catch.
  rewrite bind_run, script_loadCache_at.
  destruct (fresh_entry w ValidatorScript.cacheFile ValidatorScript.cacheTimeout)
    as [cachedData|].
  - run. rewrite !append_trace_app. reflexivity.
  - rewrite bind_run. unfold ValidatorScript.connectToNetwork, ValidatorCli.connectToNetwork.
    rewrite connect_each_run.
    destruct (connect_outcome net ValidatorCli.providers) as [cevs [api|]];
      rewrite append_trace_app; reflexivity.
Qed.

Lemma load_events_no_disconnect w path refresh :
  disconnects (load_events w path refresh) = [].
Proof.
  unfold load_events. destruct (andb _ _); [destruct (read_failure w path)|]; reflexivity.
Qed.

Lemma script_load_events_no_disconnect w : disconnects (script_load_events w) = [].
Proof.
  unfold script_load_events. rewrite disconnects_app, load_events_no_disconnect.
  destruct (files w ValidatorScript.cacheFile) as [| |[| |c]]; try reflexivity.
  destruct (timestamp c) as [t|]; [destruct (clock w - t <? _)%Z|]; reflexivity.
Qed.

Lemma connect_outcome_no_disconnect net endpoints :
  disconnects (fst (connect_outcome net endpoints)) = [].
Proof.
  induction endpoints as [|endpoint rest IH]; cbn [connect_outcome]; [reflexivity|].
  destruct (net endpoint); [reflexivity|].
  destruct (connect_outcome net rest) as [evs r]. exact IH.
Qed.

Lemma cache_display_no_disconnect options rows :
  disconnects (cache_display options rows) = [].
Proof.
  unfold cache_display. destruct (truthy_string _); [destruct (find _ rows)|]; reflexivity.
Qed.

(** When no endpoint answers, the run reports it and stops: there is no
    connection to close. *)
Lemma unreachable_run closing w evs :
  session w = None ->
  try_finally (fetch_handler "Failed to connect to any Polkadot endpoint")
    (ValidatorCli.disconnect_answering closing) (append_trace w evs) =
  (Normal tt,
   append_trace w
     (evs ++ [console_error_object "Error fetching validators:"
                "Failed to connect to any Polkadot endpoint"])).
Proof.
  intros Hs. unfold try_finally, fetch_handler.
  rewrite error_object_run, disconnect_answering_run.
  cbn [session append_trace]. rewrite Hs, append_trace_app. reflexivity.
Qed.

Lemma cached_run closing w evs :
  session w = None ->
  try_finally (ret tt) (ValidatorCli.disconnect_answering closing) (append_trace w evs) =
  (Normal tt, append_trace w evs).
Proof.
  intros Hs. unfold try_finally, ret. rewrite disconnect_answering_run.
  cbn [session append_trace]. now rewrite Hs.
Qed.

(** Whether a run goes live and finds an endpoint. *)
Definition opens_connection (cached : option (list Row)) (net : Network) : bool :=
  match cached, snd (connect_outcome net ValidatorCli.providers) with
  | None, Some _ => true
  | _, _ => false
  end.

(** How a run ends, what it asked the node, and in what state it leaves the
    session. *)
Definition run_ends (opens : bool) (closing : response unit) (w : World)
    (outcome : completion unit * World) : Prop :=
  fst outcome = (if opens then closed closing else Normal tt) /\
  (exists evs,
     trace (snd outcome) = (trace w ++ evs)%list /\
     disconnects evs = (if opens then [tt] else [])) /\
  (fst outcome = Normal tt -> session (snd outcome) = None).

Lemma cli_run_ends closing options net w :
  session w = None ->
  run_ends (opens_connection
              (if ValidatorCli.refresh options then None
               else fresh_entry w ValidatorCli.cacheFile ValidatorCli.cacheTimeout) net)
           closing w (ValidatorCli.getValidators_closing closing options net w).
Proof.
  intros Hs. rewrite cli_getValidators_unfold. cbv zeta. unfold opens_connection, run_ends.
  pose proof (connect_outcome_no_disconnect net ValidatorCli.providers) as Hc.
  destruct (if ValidatorCli.refresh options then None else _) as [rows|].
  - rewrite cached_run by exact Hs. cbn [fst snd].
    split; [reflexivity|]. split; [|intros _; exact Hs].
    eexists. split; [reflexivity|].
    rewrite disconnects_app, load_events_no_disconnect. cbn [app].
    apply cache_display_no_disconnect.
  - destruct (connect_outcome net ValidatorCli.providers) as [cevs [api|]];
      cbn [fst snd] in *.
    + destruct (guarded_body_closes closing (cli_live options api) api
                  (with_session (Some api)
                     (append_trace w
                        (load_events w ValidatorCli.cacheFile
                           (ValidatorCli.refresh options) ++ cevs)))
                  (holds_cli_live options api) eq_refl)
        as (w1 & evs & Hrun & Hs1 & _ & Ht & Hd).
      rewrite Hrun. cbn [fst snd]. split; [reflexivity|]. split.
      * cbn [trace with_session append_trace] in Ht. rewrite Ht, <- !app_assoc.
        eexists. split; [reflexivity|].
        now rewrite !disconnects_app, load_events_no_disconnect, Hc, Hd.
      * destruct closing; cbn [closed]; [intros _; exact Hs1 | discriminate].
    + rewrite unreachable_run by exact Hs. cbn [fst snd].
      split; [reflexivity|]. split; [|intros _; exact Hs].
      eexists. split; [reflexivity|].
      now rewrite !disconnects_app, load_events_no_disconnect, Hc.
Qed.

Lemma script_run_ends closing net w :
  session w = None ->
  run_ends (opens_connection
              (fresh_entry w ValidatorScript.cacheFile ValidatorScript.cacheTimeout) net)
           closing w (ValidatorScript.getValidators_closing closing net w).
Proof.
  intros Hs. rewrite script_getValidators_unfold. cbv zeta. unfold opens_connection, run_ends.
  pose proof (connect_outcome_no_disconnect net ValidatorCli.providers) as Hc.
  destruct (fresh_entry w ValidatorScript.cacheFile ValidatorScript.cacheTimeout)
    as [rows|].
  - rewrite cached_run by exact Hs. cbn [fst snd].
    split; [reflexivity|]. split; [|intros _; exact Hs].
    eexists. split; [reflexivity|].
    now rewrite disconnects_app, script_load_events_no_disconnect.
  - destruct (connect_outcome net ValidatorCli.providers) as [cevs [api|]];
      cbn [fst snd] in *.
    + destruct (guarded_body_closes closing (ValidatorScript.validatorSet api) api
                  (with_session (Some api)
                     (append_trace w (script_load_events w ++ cevs)))
                  (holds_script_live api) eq_refl)
        as (w2 & evs & Hrun & Hs2 & _ & Ht & Hd).
      rewrite Hrun. cbn [fst snd]. split; [reflexivity|]. split.
      * cbn [trace with_session append_trace] in Ht. rewrite Ht, <- !app_assoc.
        eexists. split; [reflexivity|].
        now rewrite !disconnects_app, script_load_events_no_disconnect, Hc, Hd.
      * destruct closing; cbn [closed]; [intros _; exact Hs2 | discriminate].
    + rewrite unreachable_run by exact Hs. cbn [fst snd].
      split; [reflexivity|]. split; [|intros _; exact Hs].
      eexists. split; [reflexivity|].
      now rewrite !disconnects_app, script_load_events_no_disconnect, Hc.
Qed.

(** X1: a run of either script started without a session cannot fail on the
    cache file, the endpoints or the chain queries.  When it went past the
    cache and an endpoint answered it asks the node to disconnect, exactly
    once, and ends as [api.disconnect()] answers: normally when that
    resolves, with its error when that rejects, for the [finally] block has
    no handler.  Otherwise it asks for no disconnect and returns normally.
    A run that returns normally leaves no session behind. *)
Theorem run_returns_and_closes
    (closing : response unit) (options : ValidatorCli.Options) (net : Network) (w : World) :
  session w = None ->
  run_ends (opens_connection
              (if ValidatorCli.refresh options then None
               else fresh_entry w ValidatorCli.cacheFile ValidatorCli.cacheTimeout) net)
           closing w (ValidatorCli.getValidators_closing closing options net w) /\
  run_ends (opens_connection
              (fresh_entry w ValidatorScript.cacheFile ValidatorScript.cacheTimeout) net)
           closing w (ValidatorScript.getValidators_closing closing net w).
Proof.
  intros Hs. split; [now apply cli_run_ends | now apply script_run_ends].
Qed.

Lemma run_returns_and_closes_witness :
  session fresh_world = None /\
  opens_connection
    (if ValidatorCli.refresh full_set then None
     else fresh_entry fresh_world ValidatorCli.cacheFile ValidatorCli.cacheTimeout)
    always_up = true /\
  fst (ValidatorCli.getValidators_closing (Rejected "socket closed") full_set always_up
         fresh_world) = Thrown "socket closed" /\
  fst (ValidatorCli.getValidators_closing (Resolved tt) full_set always_up fresh_world)
    = Normal tt /\
  session (snd (ValidatorCli.getValidators_closing (Resolved tt) full_set always_up
                  fresh_world)) = None.
Proof.
  split; [reflexivity|]. split; [reflexivity|].
  destruct (run_returns_and_closes (Rejected "socket closed") full_set always_up fresh_world
              eq_refl) as [(Hrejected & _) _].
  destruct (run_returns_and_closes (Resolved tt) full_set always_up fresh_world eq_refl)
    as [(Hresolved & _ & Hsession) _].
  split; [exact Hrejected|]. split; [exact Hresolved|]. exact (Hsession Hresolved).
Defined.

(** ** [connectToNetwork]: the endpoints in their order *)

Lemma connect_outcome_all_rejected net endpoints :
  (forall e, In e endpoints -> exists m, net e = Rejected m) ->
  snd (connect_outcome net endpoints) = None /\
  contacts (fst (connect_outcome net endpoints)) = endpoints.
Proof.
  induction endpoints as [|endpoint rest IH]; intros Hall; cbn [connect_outcome];
    [split; reflexivity|].
  destruct (Hall endpoint (or_introl eq_refl)) as (m & ->).
  destruct IH as (IH1 & IH2); [intros e He; apply Hall; now right|].
  destruct (connect_outcome net rest) as [evs r]. cbn [fst snd] in *.
  split; [exact IH1|]. unfold contacts in *. cbn [flat_map List.app]. now rewrite IH2.
Qed.

Lemma connect_outcome_first_up net pre endpoint post api :
  (forall e, In e pre -> exists m, net e = Rejected m) ->
  net endpoint = Resolved api ->
  snd (connect_outcome net (pre ++ endpoint :: post)) = Some api /\
  contacts (fst (connect_outcome net (pre ++ endpoint :: post))) = (pre ++ [endpoint])%list.
Proof.
  intros Hpre Hup. induction pre as [|e pre IH]; cbn [List.app connect_outcome].
  - rewrite Hup. split; reflexivity.
  - destruct (Hpre e (or_introl eq_refl)) as (m & ->).
    destruct IH as (IH1 & IH2); [intros e' He'; apply Hpre; now right|].
    destruct (connect_outcome net (pre ++ endpoint :: post)) as [evs r].
    cbn [fst snd] in *. split; [exact IH1|].
    unfold contacts in *. cbn [flat_map List.app]. now rewrite IH2.
Qed.

(** X2: [connectToNetwork] tries the configured endpoints in their order and
    returns the connection of the first one that answers: every endpoint
    before it was tried once, none after it is tried, and the session is the
    one returned. *)
Theorem connect_returns_first_answer
    (net : Network) (pre post : list string) (endpoint : string) (api : Api) (w : World) :
  ValidatorCli.providers = (pre ++ endpoint :: post)%list ->
  (forall e, In e pre -> exists m, net e = Rejected m) ->
  net endpoint = Resolved api ->
  exists w' evs,
    ValidatorCli.connectToNetwork net w = (Normal api, w') /\
    ValidatorScript.connectToNetwork net w = (Normal api, w') /\
    session w' = Some api /\
    files w' = files w /\
    trace w' = (trace w ++ evs)%list /\
    contacts evs = (pre ++ [endpoint])%list.
Proof.
  intros Hproviders Hpre Hup.
  destruct (connect_outcome_first_up net pre endpoint post api Hpre Hup) as (Hsnd & Hcontacts).
  rewrite <- Hproviders in Hsnd, Hcontacts.
  unfold ValidatorScript.connectToNetwork, ValidatorCli.connectToNetwork.
  rewrite connect_each_run.
  destruct (connect_outcome net ValidatorCli.providers) as [evs r]. cbn [fst snd] in *.
  subst r. do 2 eexists. repeat split. exact Hcontacts.
Qed.

Lemma connect_returns_first_answer_witness :
  ValidatorCli.providers =
    (["wss://rpc.polkadot.io"] ++ "wss://polkadot-rpc.dwellir.com"
       :: ["wss://polkadot.api.onfinality.io/public-ws"])%list /\
  exists w' evs,
    ValidatorCli.connectToNetwork
      (fun e => if String.eqb e "wss://rpc.polkadot.io" then Rejected "timeout"
                else Resolved scenario_api) fresh_world = (Normal scenario_api, w') /\
    trace w' = (trace fresh_world ++ evs)%list /\
    contacts evs = ["wss://rpc.polkadot.io"; "wss://polkadot-rpc.dwellir.com"].
Proof.
  split; [reflexivity|].
  destruct (connect_returns_first_answer
              (fun e => if String.eqb e "wss://rpc.polkadot.io" then Rejected "timeout"
                        else Resolved scenario_api)
              ["wss://rpc.polkadot.io"] ["wss://polkadot.api.onfinality.io/public-ws"]
              "wss://polkadot-rpc.dwellir.com" scenario_api fresh_world eq_refl)
    as (w' & evs & Hrun & _ & _ & _ & Ht & Hc).
  - intros e [<-|[]]. exists "timeout". reflexivity.
  - reflexivity.
  - exists w', evs. repeat split; assumption.
Defined.

(** What a run did that found no endpoint: it tried every endpoint once, in
    the configured order, passed the error to [console.error], showed no
    table and wrote nothing. *)
Definition gave_up (evs : list Event) : Prop :=
  contacts evs = ValidatorCli.providers /\
  tables evs = [] /\ writes evs = [] /\
  In (console_error_object "Error fetching validators:"
        "Failed to connect to any Polkadot endpoint") evs.

(** X3: when the cache does not answer (the file gives no fresh entry, or,
    in the later script, the refresh flag is set) and every endpoint
    rejects, a run tries each endpoint once, in order, passes the error
    [Failed to connect to any Polkadot endpoint] to [console.error] and
    returns normally, whatever [api.disconnect()] would answer: it shows no
    table and writes nothing. *)
Theorem unreachable_network_leaves_cache
    (closing : response unit) (options : ValidatorCli.Options) (net : Network) (w : World) :
  session w = None ->
  (forall e, In e ValidatorCli.providers -> exists m, net e = Rejected m) ->
  ((if ValidatorCli.refresh options then None
    else fresh_entry w ValidatorCli.cacheFile ValidatorCli.cacheTimeout) = None ->
   exists evs,
     ValidatorCli.getValidators_closing closing options net w
       = (Normal tt, append_trace w evs) /\
     gave_up evs) /\
  (fresh_entry w ValidatorScript.cacheFile ValidatorScript.cacheTimeout = None ->
   exists evs,
     ValidatorScript.getValidators_closing closing net w = (Normal tt, append_trace w evs) /\
     gave_up evs).
Proof.
  intros Hs Hdown.
  destruct (connect_outcome_all_rejected net ValidatorCli.providers Hdown) as (Hnone & Hc).
  destruct (connect_outcome_silent net ValidatorCli.providers) as (Ht & Hw & _).
  split; intro Hmiss.
  - rewrite cli_getValidators_unfold. cbv zeta. rewrite Hmiss.
    destruct (connect_outcome net ValidatorCli.providers) as [cevs r]. cbn [fst snd] in *.
    subst r. rewrite unreachable_run by exact Hs.
    destruct (load_events_silent w ValidatorCli.cacheFile (ValidatorCli.refresh options))
      as (L1 & L2 & _ & L4).
    eexists. split; [reflexivity|]. unfold gave_up.
    rewrite !contacts_app, !tables_app, !writes_app, L1, L2, L4, Ht, Hw, Hc.
    cbn [List.app]. rewrite ?app_nil_r.
    do 3 (split; [reflexivity|]). apply in_or_app; right; now left.
  - rewrite script_getValidators_unfold. cbv zeta. rewrite Hmiss.
    destruct (connect_outcome net ValidatorCli.providers) as [cevs r]. cbn [fst snd] in *.
    subst r. rewrite unreachable_run by exact Hs.
    assert (Hscript : tables (script_load_events w) = [] /\
                      writes (script_load_events w) = [] /\
                      contacts (script_load_events w) = []).
    { unfold script_load_events.
      destruct (load_events_silent w ValidatorScript.cacheFile false) as (H1 & H2 & _ & H4).
      rewrite tables_app, writes_app, contacts_app, H1, H2, H4.
      destruct (files w ValidatorScript.cacheFile) as [| |[| |c]]; try (repeat split; fail).
      destruct (timestamp c) as [t|]; [destruct (clock w - t <? _)%Z|]; repeat split. }
    destruct Hscript as (S1 & S2 & S4).
    eexists. split; [reflexivity|]. unfold gave_up.
    rewrite !contacts_app, !tables_app, !writes_app, S1, S2, S4, Ht, Hw, Hc.
    cbn [List.app]. rewrite ?app_nil_r.
    do 3 (split; [reflexivity|]). apply in_or_app; right; now left.
Qed.

Lemma unreachable_network_leaves_cache_witness :
  session cached_world = None /\
  fresh_entry cached_world ValidatorCli.cacheFile ValidatorCli.cacheTimeout
    = Some [ValidatorCli.fallback "V"] /\
  (exists evs,
     ValidatorCli.getValidators_closing (Rejected "socket closed") refresh_all
       (fun _ => Rejected "down") cached_world = (Normal tt, append_trace cached_world evs) /\
     gave_up evs) /\
  (exists evs,
     ValidatorScript.getValidators_closing (Resolved tt) (fun _ => Rejected "down") fresh_world
       = (Normal tt, append_trace fresh_world evs) /\
     gave_up evs).
Proof.
  split; [reflexivity|]. split; [reflexivity|].
  assert (Hdown : forall e, In e ValidatorCli.providers ->
                    exists m, (fun _ : string => @Rejected Api "down") e = Rejected m)
    by (intros e _; exists "down"; reflexivity).
  split.
  - exact (proj1 (unreachable_network_leaves_cache (Rejected "socket closed") refresh_all
                    (fun _ => Rejected "down") cached_world eq_refl Hdown) eq_refl).
  - exact (proj2 (unreachable_network_leaves_cache (Resolved tt) refresh_all
                    (fun _ => Rejected "down") fresh_world eq_refl Hdown) eq_refl).
Defined.

(** ** The cache: what is saved is what is loaded, until it expires *)

(** X4: after [saveCache] stored its record, [loadCache] without the
    refresh flag returns exactly the saved rows as long as less than the
    time-to-live (3 600 000 ms) has passed since the save, and a miss from
    then on; the earlier script's [loadCache] does the same. *)
Theorem saved_rows_are_loaded_until_expiry
    (rows : list Row) (w : World) (later : Z) (options : ValidatorCli.Options) :
  disk w ValidatorCli.cacheFile = Stored ->
  ValidatorCli.refresh options = false ->
  let w1 := elapse later (snd (ValidatorCli.saveCache rows w)) in
  fst (ValidatorCli.loadCache options w1) =
    Normal (if (later <? 3600000)%Z then Some rows else None) /\
  fst (ValidatorScript.loadCache w1) =
    Normal (if (later <? 3600000)%Z then Some rows else None).
Proof.
  intros Hstored Hrefresh w1.
  assert (Hentry : fresh_entry w1 ValidatorCli.cacheFile ValidatorCli.cacheTimeout
                   = if (later <? 3600000)%Z then Some rows else None).
  { unfold w1. rewrite saveCache_run. cbn [snd].
    destruct (after_save_fields rows w) as (Hclock & _ & _ & Hfile & _).
    unfold fresh_entry. cbn [files clock elapse]. rewrite Hfile, Hclock.
    unfold file_after_write. rewrite Hstored. unfold cache_record. cbn [timestamp data].
    replace (clock w + later - clock w)%Z with later by lia. reflexivity. }
  rewrite cli_loadCache_run, script_loadCache_at, Hrefresh. cbn [fst].
  change ValidatorScript.cacheFile with ValidatorCli.cacheFile.
  change ValidatorScript.cacheTimeout with ValidatorCli.cacheTimeout.
  rewrite Hentry. split; reflexivity.
Qed.

Lemma saved_rows_are_loaded_until_expiry_witness :
  disk fresh_world ValidatorCli.cacheFile = Stored /\
  fst (ValidatorCli.loadCache full_set
         (elapse 3599999 (snd (ValidatorCli.saveCache [ValidatorCli.fallback "V"] fresh_world))))
    = Normal (Some [ValidatorCli.fallback "V"]) /\
  fst (ValidatorCli.loadCache full_set
         (elapse 3600000 (snd (ValidatorCli.saveCache [ValidatorCli.fallback "V"] fresh_world))))
    = Normal None.
Proof.
  split; [reflexivity|]. split.
  - exact (proj1 (saved_rows_are_loaded_until_expiry [ValidatorCli.fallback "V"] fresh_world
                    3599999 full_set eq_refl eq_refl)).
  - exact (proj1 (saved_rows_are_loaded_until_expiry [ValidatorCli.fallback "V"] fresh_world
                    3600000 full_set eq_refl eq_refl)).
Defined.

(** X5: a run answered from the cache touches nothing: the files are as
    before, nothing is written and no endpoint is contacted, so the entry is
    never renewed by being read.  A second run with the same options, while
    the entry is still fresh, performs exactly the same events and shows
    the same output. *)
Theorem cached_runs_repeat
    (options : ValidatorCli.Options) (net net' : Network) (w : World)
    (rows : list Row) (later : Z) :
  session w = None ->
  ValidatorCli.refresh options = false ->
  fresh_entry w ValidatorCli.cacheFile ValidatorCli.cacheTimeout = Some rows ->
  fresh_entry (elapse later w) ValidatorCli.cacheFile ValidatorCli.cacheTimeout = Some rows ->
  exists evs,
    ValidatorCli.getValidators options net w = (Normal tt, append_trace w evs) /\
    ValidatorCli.getValidators options net' (elapse later (append_trace w evs)) =
      (Normal tt, append_trace (elapse later (append_trace w evs)) evs) /\
    writes evs = [] /\ contacts evs = [] /\ renames evs = [].
Proof.
  intros Hs Hrefresh Hfresh Hlater.
  exists (load_events w ValidatorCli.cacheFile false ++
          console_log "Using cached validator data" :: cache_display options rows)%list.
  split; [now apply cli_getValidators_cached|].
  split.
  - rewrite (cli_getValidators_cached options net' _ rows); auto.
  - destruct (load_events_silent w ValidatorCli.cacheFile false) as (_ & L2 & L3 & L4).
    rewrite writes_app, contacts_app, renames_app, L2, L3, L4.
    unfold cache_display.
    destruct (truthy_string _); [destruct (find _ rows)|]; repeat split.
Qed.

Lemma cached_runs_repeat_witness :
  session cached_world = None /\
  fresh_entry cached_world ValidatorCli.cacheFile ValidatorCli.cacheTimeout
    = Some [ValidatorCli.fallback "V"] /\
  fresh_entry (elapse 60000 cached_world) ValidatorCli.cacheFile ValidatorCli.cacheTimeout
    = Some [ValidatorCli.fallback "V"] /\
  exists evs,
    ValidatorCli.getValidators full_set always_up cached_world
      = (Normal tt, append_trace cached_world evs) /\
    contacts evs = [].
Proof.
  split; [reflexivity|]. split; [reflexivity|]. split; [reflexivity|].
  destruct (cached_runs_repeat full_set always_up always_up cached_world
              [ValidatorCli.fallback "V"] 60000 eq_refl eq_refl eq_refl eq_refl)
    as (evs & Hrun & _ & _ & Hc & _).
  exists evs. split; [exact Hrun | exact Hc].
Defined.

(** ** What a live run leaves in the cache *)

(** X6: a lookup of one validator whose queries fail is saved like any
    other: the run shows the zero row and stores it as the cache entry, so
    until the entry expires every run without the refresh flag is answered
    with that zero row. *)
Theorem failed_lookup_is_cached
    (net : Network) (api : Api) (index : N) (nominatorsData : list NominatorEntry)
    (single : ValidatorCli.Options) (wanted message : string) (w : World) (later : Z) :
  session w = None ->
  (if ValidatorCli.refresh single then None
   else fresh_entry w ValidatorCli.cacheFile ValidatorCli.cacheTimeout) = None ->
  ValidatorCli.validator single = Some wanted ->
  truthy_string (Some wanted) = true ->
  snd (connect_outcome net ValidatorCli.providers) = Some api ->
  query_staking_activeEra api = Resolved (Some index) ->
  query_staking_nominators_entries api = Resolved nominatorsData ->
  answers api (digits index) wanted = inr message ->
  disk w ValidatorCli.cacheFile = Stored ->
  (later < ValidatorCli.cacheTimeout)%Z ->
  exists w1 evs,
    ValidatorCli.getValidators single net w = (Normal tt, w1) /\
    trace w1 = (trace w ++ evs)%list /\
    tables evs = [[ValidatorCli.fallback wanted]] /\
    fresh_entry (elapse later w1) ValidatorCli.cacheFile ValidatorCli.cacheTimeout
      = Some [ValidatorCli.fallback wanted].
Proof.
  intros Hs Hmiss Hwanted Htruthy Hup Hera Hentries Hfail Hstored Hlater.
  destruct (cli_getValidators_single net api index nominatorsData Hup Hera Hentries
              single w wanted Hs Hmiss Hwanted Htruthy)
    as (w1 & Hrun & Hclock & _ & _ & Hfile & evs & Ht & Htab & _).
  assert (Hrow : cli_row api (digits index) (ValidatorCli.buildNominatorsMap nominatorsData)
                   wanted = ValidatorCli.fallback wanted).
  { unfold cli_row. now rewrite Hfail. }
  rewrite Hrow in Hfile, Htab.
  exists w1, evs. split; [exact Hrun|]. split; [exact Ht|]. split; [exact Htab|].
  unfold fresh_entry. cbn [files clock elapse]. rewrite Hfile, Hclock.
  unfold file_after_write. rewrite Hstored. unfold cache_record. cbn [timestamp data].
  replace (clock w + later - clock w)%Z with later by lia.
  apply Z.ltb_lt in Hlater. now rewrite Hlater.
Qed.

(** The node of [failing_api] behind every endpoint. *)
Definition failing_net : Network := fun _ => Resolved failing_api.

Lemma failed_lookup_is_cached_witness :
  session fresh_world = None /\
  snd (connect_outcome failing_net ValidatorCli.providers) = Some failing_api /\
  answers failing_api (digits 1500) "V" = inr "disconnected" /\
  exists w1,
    ValidatorCli.getValidators lookup_V failing_net fresh_world = (Normal tt, w1) /\
    fresh_entry (elapse 1000 w1) ValidatorCli.cacheFile ValidatorCli.cacheTimeout
      = Some [ValidatorCli.fallback "V"].
Proof.
  split; [reflexivity|]. split; [reflexivity|]. split; [reflexivity|].
  destruct (failed_lookup_is_cached failing_net failing_api 1500 [] lookup_V "V"
              "disconnected" fresh_world 1000 eq_refl eq_refl eq_refl eq_refl eq_refl
              eq_refl eq_refl eq_refl eq_refl eq_refl)
    as (w1 & evs & Hrun & _ & _ & Hfresh).
  exists w1. split; [exact Hrun | exact Hfresh].
Defined.

(** X7: a live run over the validator set with a limit [n >= 0] processes
    the first [n] validators of the session, or the first 100 when [n] is 0:
    the table shown and the record saved hold the same rows, one for each of
    them.  A later run answered from that entry therefore cannot show more,
    whatever its own limit. *)
Theorem limit_bounds_what_is_cached
    (net net' : Network) (api : Api) (index : N) (nominatorsData : list NominatorEntry)
    (validators : list AccountId) (options next : ValidatorCli.Options)
    (n : Z) (w : World) (later : Z) :
  session w = None ->
  (if ValidatorCli.refresh options then None
   else fresh_entry w ValidatorCli.cacheFile ValidatorCli.cacheTimeout) = None ->
  ValidatorCli.limit options = Some n ->
  (0 <= n)%Z ->
  truthy_string (ValidatorCli.validator options) = false ->
  snd (connect_outcome net ValidatorCli.providers) = Some api ->
  query_session_validators api = Resolved validators ->
  query_staking_activeEra api = Resolved (Some index) ->
  query_staking_nominators_entries api = Resolved nominatorsData ->
  disk w ValidatorCli.cacheFile = Stored ->
  (later < ValidatorCli.cacheTimeout)%Z ->
  ValidatorCli.refresh next = false ->
  truthy_string (ValidatorCli.validator next) = false ->
  let processed := firstn (if (n =? 0)%Z then 100 else Z.to_nat n) validators in
  exists rows w1 evs,
    ValidatorCli.getValidators options net w = (Normal tt, w1) /\
    live_outcome w w1 rows rows /\
    Permutation (map Validator rows) processed /\
    ValidatorCli.getValidators next net' (elapse later w1) =
      (Normal tt, append_trace (elapse later w1) evs) /\
    contacts evs = [] /\
    exists shown, tables evs = [shown] /\ (List.length shown <= List.length processed)%nat.
Proof.
  intros Hs Hmiss Hlimit Hn Hfalsy Hup Hvalidators Hera Hentries Hstored Hlater
    Hrefresh Hnext processed.
  destruct (cli_getValidators_set net api index nominatorsData Hup Hera Hentries
              validators Hvalidators options w Hs Hmiss Hfalsy) as (w1 & Hrun & Hout).
  rewrite Hlimit in Hout. unfold truthy_int in Hout.
  set (rows := sort ValidatorCli.byTotalActiveStake
                 (map (cli_row api (digits index)
                         (ValidatorCli.buildNominatorsMap nominatorsData)) processed)).
  assert (Hprocessed :
            slice0 validators (if negb (n =? 0)%Z then n else ValidatorCli.maxValidators)
            = processed).
  { unfold processed, slice0. destruct (n =? 0)%Z eqn:E; cbn [negb]; [reflexivity|].
    destruct (n <? 0)%Z eqn:E'; [apply Z.ltb_lt in E'; lia | reflexivity]. }
  rewrite Hprocessed in Hout. fold rows in Hout.
  assert (Hlen : List.length rows = List.length processed)
    by (unfold rows; now rewrite sort_length, length_map).
  assert (Hdisplay : (if negb (n =? 0)%Z then slice0 rows n else rows) = rows).
  { destruct (n =? 0)%Z eqn:E; cbn [negb]; [reflexivity|].
    unfold slice0. destruct (n <? 0)%Z eqn:E'; [apply Z.ltb_lt in E'; lia|].
    apply firstn_all2. rewrite Hlen. unfold processed. rewrite ?E, length_firstn. lia. }
  rewrite Hdisplay in Hout.
  exists rows, w1.
  pose proof Hout as (Hclock & Hs1 & _ & Hfile & _).
  unfold file_after_write in Hfile. rewrite Hstored in Hfile.
  assert (Hentry : fresh_entry (elapse later w1) ValidatorCli.cacheFile
                     ValidatorCli.cacheTimeout = Some rows).
  { unfold fresh_entry. cbn [files clock elapse]. rewrite Hfile, Hclock.
    unfold cache_record. cbn [timestamp data].
    replace (clock w + later - clock w)%Z with later by lia.
    apply Z.ltb_lt in Hlater. now rewrite Hlater. }
  eexists. split; [exact Hrun|]. split; [exact Hout|].
  split.
  { unfold rows. rewrite <- (map_validator_rows _ processed
      (cli_row_validator api (digits index)
         (ValidatorCli.buildNominatorsMap nominatorsData))) at 2.
    apply Permutation_map, Permutation_sym, sort_perm. }
  split; [apply (cli_getValidators_cached next net' (elapse later w1) rows); auto|].
  destruct (load_events_silent (elapse later w1) ValidatorCli.cacheFile false)
    as (L1 & _ & _ & L4).
  rewrite contacts_app, tables_app, L1, L4. unfold cache_display. rewrite Hnext.
  split; [reflexivity|].
  eexists. split; [reflexivity|]. rewrite <- Hlen.
  destruct (ValidatorCli.limit next) as [k|]; [|lia].
  destruct (truthy_int (Some k)); [|lia].
  unfold slice0. destruct (k <? 0)%Z; rewrite length_firstn; lia.
Qed.

Definition limit_one : ValidatorCli.Options :=
  {| ValidatorCli.limit := Some 1%Z; ValidatorCli.validator := None;
     ValidatorCli.refresh := false; ValidatorCli.help := false |}.

Lemma limit_bounds_what_is_cached_witness :
  session fresh_world = None /\
  ValidatorCli.limit limit_one = Some 1%Z /\ (0 <= 1)%Z /\
  snd (connect_outcome always_up ValidatorCli.providers) = Some scenario_api /\
  disk fresh_world ValidatorCli.cacheFile = Stored /\
  (1000 < ValidatorCli.cacheTimeout)%Z /\
  exists rows w1,
    ValidatorCli.getValidators limit_one always_up fresh_world = (Normal tt, w1) /\
    Permutation (map Validator rows) [ValidatorScript.testValidator].
Proof.
  split; [reflexivity|]. split; [reflexivity|]. split; [lia|]. split; [reflexivity|].
  split; [reflexivity|]. split; [reflexivity|].
  destruct (limit_bounds_what_is_cached always_up always_up scenario_api 1500 _ _
              limit_one full_set 1 fresh_world 1000 eq_refl eq_refl eq_refl Z.le_0_1
              eq_refl eq_refl eq_refl eq_refl eq_refl eq_refl eq_refl eq_refl eq_refl)
    as (rows & w1 & evs & Hrun & _ & Hperm & _).
  exists rows, w1. split; [exact Hrun | exact Hperm].
Defined.

(** X8: a live run over the validator set with a negative limit [-k] leaves
    out the last [k] validators of the session, saves the rows of the others,
    and shows them without their last [k] rows: the table is [k] rows shorter
    than the record saved. *)
Theorem negative_limit_cuts_twice
    (net : Network) (api : Api) (index : N) (nominatorsData : list NominatorEntry)
    (validators : list AccountId) (options : ValidatorCli.Options)
    (k : nat) (w : World) :
  session w = None ->
  (if ValidatorCli.refresh options then None
   else fresh_entry w ValidatorCli.cacheFile ValidatorCli.cacheTimeout) = None ->
  ValidatorCli.limit options = Some (- Z.of_nat (S k))%Z ->
  truthy_string (ValidatorCli.validator options) = false ->
  snd (connect_outcome net ValidatorCli.providers) = Some api ->
  query_session_validators api = Resolved validators ->
  query_staking_activeEra api = Resolved (Some index) ->
  query_staking_nominators_entries api = Resolved nominatorsData ->
  let processed := firstn (List.length validators - S k) validators in
  exists rows w1,
    ValidatorCli.getValidators options net w = (Normal tt, w1) /\
    live_outcome w w1 (firstn (List.length rows - S k) rows) rows /\
    Permutation (map Validator rows) processed /\
    List.length rows = (List.length validators - S k)%nat.
Proof.
  intros Hs Hmiss Hlimit Hfalsy Hup Hvalidators Hera Hentries processed.
  destruct (cli_getValidators_set net api index nominatorsData Hup Hera Hentries
              validators Hvalidators options w Hs Hmiss Hfalsy) as (w1 & Hrun & Hout).
  rewrite Hlimit in Hout.
  change (truthy_int (Some (- Z.of_nat (S k))%Z)) with true in Hout. cbv iota in Hout.
  assert (Hslice : forall (A : Type) (l : list A),
            slice0 l (- Z.of_nat (S k)) = firstn (List.length l - S k) l).
  { intros A l. unfold slice0.
    assert (E : (- Z.of_nat (S k) <? 0)%Z = true) by (apply Z.ltb_lt; lia).
    rewrite E. f_equal. lia. }
  rewrite !Hslice in Hout. fold processed in Hout.
  eexists. exists w1. split; [exact Hrun|]. split; [exact Hout|].
  split.
  - rewrite <- (map_validator_rows _ processed
      (cli_row_validator api (digits index)
         (ValidatorCli.buildNominatorsMap nominatorsData))) at 2.
    apply Permutation_map, Permutation_sym, sort_perm.
  - rewrite sort_length, length_map. unfold processed. rewrite length_firstn. lia.
Qed.

Definition limit_minus_one : ValidatorCli.Options :=
  {| ValidatorCli.limit := Some (-1)%Z; ValidatorCli.validator := None;
     ValidatorCli.refresh := false; ValidatorCli.help := false |}.

Lemma negative_limit_cuts_twice_witness :
  session fresh_world = None /\
  ValidatorCli.limit limit_minus_one = Some (- Z.of_nat 1)%Z /\
  snd (connect_outcome always_up ValidatorCli.providers) = Some scenario_api /\
  exists rows w1,
    ValidatorCli.getValidators limit_minus_one always_up fresh_world = (Normal tt, w1) /\
    live_outcome fresh_world w1 (firstn (List.length rows - 1) rows) rows /\
    List.length rows = 1%nat.
Proof.
  split; [reflexivity|]. split; [reflexivity|]. split; [reflexivity|].
  destruct (negative_limit_cuts_twice always_up scenario_api 1500 _ _ limit_minus_one 0
              fresh_world eq_refl eq_refl eq_refl eq_refl eq_refl eq_refl eq_refl eq_refl)
    as (rows & w1 & Hrun & Hout & _ & Hlen).
  exists rows, w1. split; [exact Hrun|]. split; [exact Hout | exact Hlen].
Defined.

(** The rows a live run of validator-cli.js computes and saves: the row of
    the validator asked for, or the sorted rows of the validators of the
    session up to the limit (100 when there is none). *)
Definition live_rows (api : Api) (index : N) (nominatorsData : list NominatorEntry)
    (validators : list AccountId) (options : ValidatorCli.Options) : list Row :=
  let row := cli_row api (digits index) (ValidatorCli.buildNominatorsMap nominatorsData) in
  match ValidatorCli.validator options with
  | Some (String _ _ as wanted) => [row wanted]
  | _ =>
      let maxValidators :=
        match ValidatorCli.limit options with
        | Some n => if truthy_int (ValidatorCli.limit options) then n
                    else ValidatorCli.maxValidators
        | None => ValidatorCli.maxValidators
        end in
      sort ValidatorCli.byTotalActiveStake (map row (slice0 validators maxValidators))
  end.

(** X9: a live run with the refresh flag, over the validator set with any
    limit or for one validator, replaces whatever the cache file held, an
    entry that is still fresh included: when the write is stored, the file
    holds the rows of this run under the time of this run, and a load
    answers with these rows for the whole time-to-live. *)
Theorem refresh_replaces_entry
    (net : Network) (api : Api) (index : N) (nominatorsData : list NominatorEntry)
    (validators : list AccountId) (options : ValidatorCli.Options)
    (w : World) (later : Z) :
  session w = None ->
  ValidatorCli.refresh options = true ->
  snd (connect_outcome net ValidatorCli.providers) = Some api ->
  query_staking_activeEra api = Resolved (Some index) ->
  query_staking_nominators_entries api = Resolved nominatorsData ->
  (truthy_string (ValidatorCli.validator options) = false ->
   query_session_validators api = Resolved validators) ->
  disk w ValidatorCli.cacheFile = Stored ->
  (later < ValidatorCli.cacheTimeout)%Z ->
  let rows := live_rows api index nominatorsData validators options in
  exists w1,
    ValidatorCli.getValidators options net w = (Normal tt, w1) /\
    files w1 ValidatorCli.cacheFile =
      Present (JsonObject {| timestamp := Some (clock w); data := Some rows |}) /\
    fresh_entry (elapse later w1) ValidatorCli.cacheFile ValidatorCli.cacheTimeout
      = Some rows.
Proof.
  intros Hs Hrefresh Hup Hera Hentries Hvalidators Hstored Hlater rows.
  assert (Hmiss : (if ValidatorCli.refresh options then None
                   else fresh_entry w ValidatorCli.cacheFile ValidatorCli.cacheTimeout)
                  = None) by (now rewrite Hrefresh).
  assert (Hlive : exists w1 shown,
            ValidatorCli.getValidators options net w = (Normal tt, w1) /\
            live_outcome w w1 shown rows).
  { unfold rows, live_rows.
    destruct (truthy_string (ValidatorCli.validator options)) eqn:Htruthy.
    - destruct (ValidatorCli.validator options) as [[|c wanted]|] eqn:Hwanted;
        try discriminate.
      destruct (cli_getValidators_single net api index nominatorsData Hup Hera Hentries
                  options w (String c wanted) Hs Hmiss Hwanted eq_refl)
        as (w1 & Hrun & Hout).
      exists w1. eexists. split; [exact Hrun | exact Hout].
    - destruct (cli_getValidators_set net api index nominatorsData Hup Hera Hentries
                  validators (Hvalidators eq_refl) options w Hs Hmiss Htruthy)
        as (w1 & Hrun & Hout).
      exists w1. eexists. split; [exact Hrun|].
      destruct (ValidatorCli.validator options) as [[|c wanted]|]; try discriminate;
        exact Hout. }
  destruct Hlive as (w1 & shown & Hrun & Hclock & _ & _ & Hfile & _).
  unfold file_after_write in Hfile. rewrite Hstored in Hfile.
  exists w1. split; [exact Hrun|]. split; [exact Hfile|].
  unfold fresh_entry. cbn [files clock elapse]. rewrite Hfile, Hclock.
  unfold cache_record. cbn [timestamp data].
  replace (clock w + later - clock w)%Z with later by lia.
  apply Z.ltb_lt in Hlater. now rewrite Hlater.
Qed.

(** [--refresh --limit 1]. *)
Definition refresh_one : ValidatorCli.Options :=
  {| ValidatorCli.limit := Some 1%Z; ValidatorCli.validator := None;
     ValidatorCli.refresh := true; ValidatorCli.help := false |}.

(** [--refresh --validator V]. *)
Definition refresh_single : ValidatorCli.Options :=
  {| ValidatorCli.limit := None; ValidatorCli.validator := Some "V";
     ValidatorCli.refresh := true; ValidatorCli.help := false |}.

Lemma refresh_replaces_entry_witness :
  session cached_world = None /\
  fresh_entry cached_world ValidatorCli.cacheFile ValidatorCli.cacheTimeout
    = Some [ValidatorCli.fallback "V"] /\
  disk cached_world ValidatorCli.cacheFile = Stored /\
  (exists w1,
     ValidatorCli.getValidators refresh_one always_up cached_world = (Normal tt, w1) /\
     fresh_entry (elapse 1000 w1) ValidatorCli.cacheFile ValidatorCli.cacheTimeout
       = Some [cli_row scenario_api "1500" scenario_registry ValidatorScript.testValidator]) /\
  (exists w1,
     ValidatorCli.getValidators refresh_single always_up cached_world = (Normal tt, w1) /\
     fresh_entry (elapse 1000 w1) ValidatorCli.cacheFile ValidatorCli.cacheTimeout
       = Some [cli_row scenario_api "1500" scenario_registry "V"]).
Proof.
  split; [reflexivity|]. split; [reflexivity|]. split; [reflexivity|].
  split.
  - destruct (refresh_replaces_entry always_up scenario_api 1500 _
                [ValidatorScript.testValidator; "V"] refresh_one cached_world
                1000 eq_refl eq_refl eq_refl eq_refl eq_refl (fun _ => eq_refl) eq_refl
                eq_refl) as (w1 & Hrun & _ & Hfresh).
    exists w1. split; [exact Hrun | exact Hfresh].
  - destruct (refresh_replaces_entry always_up scenario_api 1500 _ [] refresh_single
                cached_world 1000 eq_refl eq_refl eq_refl eq_refl eq_refl
                (fun H => match Bool.diff_true_false H with end) eq_refl eq_refl)
      as (w1 & Hrun & _ & Hfresh).
    exists w1. split; [exact Hrun | exact Hfresh].
Defined.

(** ** The two scripts side by side *)

Lemma estimate_uncalibrated prefs stakingInfo exposure targeting :
  ValidatorScript.estimate false prefs stakingInfo exposure targeting =
  ValidatorCli.estimate prefs stakingInfo exposure targeting.
Proof. reflexivity. Qed.

Lemma processValidator_off_test api eraNumber nominatorsMap validator w :
  validator <> ValidatorScript.testValidator ->
  ValidatorScript.processValidator api eraNumber nominatorsMap validator w =
  ValidatorCli.processValidator api eraNumber nominatorsMap validator w.
Proof.
  intro Hv. apply String.eqb_neq in Hv.
  rewrite script_processValidator_run, cli_processValidator_run, Hv.
  destruct (answers api eraNumber validator) as [[[p s] x]|m]; [|reflexivity].
  cbv zeta. now rewrite estimate_uncalibrated, append_trace_nil.
Qed.

(** X10: on a batch that does not hold the test validator the earlier script
    does what the later one does: the same rows, the same console lines,
    the same world afterwards. *)
Theorem scripts_agree_off_test_validator
    (api : Api) (validators : list AccountId) (eraNumber : string)
    (nominatorsMap : Dict (list string)) (w : World) :
  ~ In ValidatorScript.testValidator validators ->
  ValidatorScript.processValidatorsBatch api validators eraNumber nominatorsMap w =
  ValidatorCli.processValidatorsBatch api validators eraNumber nominatorsMap w.
Proof.
  intro Hnot.
  unfold ValidatorScript.processValidatorsBatch, ValidatorCli.processValidatorsBatch.
  rewrite !bind_run, !log_run.
  generalize (append_trace w
    [console_log ("Processing batch of " ++ show_nat (List.length validators)
                  ++ " validators...")]).
  induction validators as [|v rest IH]; intro w0; [reflexivity|].
  cbn [ValidatorScript.all ValidatorCli.all].
  rewrite !bind_run, processValidator_off_test
    by (intro E; apply Hnot; now left).
  destruct (ValidatorCli.processValidator api eraNumber nominatorsMap v w0) as [[row|m] w1];
    [|reflexivity].
  rewrite !bind_run, IH by (intro H; apply Hnot; now right).
  reflexivity.
Qed.

Lemma scripts_agree_off_test_validator_witness :
  ~ In ValidatorScript.testValidator ["V"] /\
  ValidatorScript.processValidatorsBatch scenario_api ["V"] "1500" scenario_registry
    fresh_world =
  ValidatorCli.processValidatorsBatch scenario_api ["V"] "1500" scenario_registry
    fresh_world.
Proof.
  assert (H : ~ In ValidatorScript.testValidator ["V"])
    by (cbn; intros [E|[]]; discriminate E).
  split; [exact H|].
  exact (scripts_agree_off_test_validator scenario_api ["V"] "1500" scenario_registry
           fresh_world H).
Defined.

(** X11: whatever the validator, the test validator included, the rows of
    the two scripts differ at most in the inactive and the total nomination:
    the calibration of the earlier script leaves the address, the self bond,
    the active nomination, the total active stake, the commission and the
    nominator counts as the later script has them. *)
Theorem calibration_changes_two_columns
    (api : Api) (eraNumber : string) (nominatorsMap : Dict (list string))
    (validator : AccountId) (w : World) :
  exists later earlier,
    fst (ValidatorCli.processValidator api eraNumber nominatorsMap validator w)
      = Normal later /\
    fst (ValidatorScript.processValidator api eraNumber nominatorsMap validator w)
      = Normal earlier /\
    Validator earlier = Validator later /\
    Self_Bond_DOT earlier = Self_Bond_DOT later /\
    Active_Nomination_DOT earlier = Active_Nomination_DOT later /\
    Total_Active_Stake_DOT earlier = Total_Active_Stake_DOT later /\
    Commission_pct earlier = Commission_pct later /\
    Nominators_Active_Total earlier = Nominators_Active_Total later.
Proof.
  rewrite script_processValidator_run, cli_processValidator_run.
  destruct (answers api eraNumber validator) as [[[p s] x]|m].
  - eexists. eexists. split; [reflexivity|]. split; [reflexivity|].
    unfold ValidatorCli.report, ValidatorScript.estimate, ValidatorCli.estimate.
    destruct (andb _ _); cbn; repeat split; reflexivity.
  - eexists. eexists. repeat split; reflexivity.
Qed.

(** ** The nominator map *)

(** The entries of the storage map that decode, in the order they arrive. *)
Definition decoded (nominatorsData : list NominatorEntry) : Dict (list string) :=
  flat_map (fun entry =>
              match key_arg entry, nominations entry with
              | Some nominator, Some targets => [(nominator, targets)]
              | _, _ => []
              end) nominatorsData.

(** [nominatorsMap[nominator]]. *)
Definition dict_get {V} (d : Dict V) (k : string) : option V :=
  option_map snd (find (fun entry => String.eqb (fst entry) k) d).

Definition assign_all {V} (d : Dict V) (entries : list (string * V)) : Dict V :=
  fold_left (fun d entry => dict_set d (fst entry) (snd entry)) entries d.

Lemma fold_entries_assigns nominatorsData : forall d : Dict (list string),
  fold_left
    (fun nominatorsMap entry =>
       match key_arg entry, nominations entry with
       | Some nominator, Some targets => dict_set nominatorsMap nominator targets
       | _, _ => nominatorsMap
       end)
    nominatorsData d = assign_all d (decoded nominatorsData).
Proof.
  unfold assign_all, decoded.
  induction nominatorsData as [|entry rest IH]; intro d; [reflexivity|].
  cbn [fold_left flat_map]. rewrite fold_left_app, IH.
  destruct (key_arg entry), (nominations entry); reflexivity.
Qed.

Lemma buildNominatorsMap_assigns nominatorsData :
  ValidatorCli.buildNominatorsMap nominatorsData = assign_all [] (decoded nominatorsData).
Proof. apply fold_entries_assigns. Qed.

Lemma dict_set_keys {V} (d : Dict V) k v :
  map fst (dict_set d k v) =
  if existsb (String.eqb k) (map fst d) then map fst d else (map fst d ++ [k])%list.
Proof.
  induction d as [|[k' v'] rest IH]; cbn [dict_set map fst existsb List.app]; [reflexivity|].
  rewrite (String.eqb_sym k k').
  destruct (String.eqb_spec k' k) as [->|Hne]; cbn [orb map fst]; [reflexivity|].
  rewrite IH. now destruct (existsb _ _).
Qed.

Lemma existsb_key (keys : list string) k :
  existsb (String.eqb k) keys = true <-> In k keys.
Proof.
  rewrite existsb_exists. split.
  - intros (x & Hin & E). apply String.eqb_eq in E. now subst.
  - intro Hin. exists k. split; [exact Hin | apply String.eqb_refl].
Qed.

Lemma dict_set_nodup {V} (d : Dict V) k v :
  NoDup (map fst d) -> NoDup (map fst (dict_set d k v)).
Proof.
  intro Hd. rewrite dict_set_keys.
  destruct (existsb (String.eqb k) (map fst d)) eqn:E; [exact Hd|].
  apply NoDup_app; [exact Hd | repeat constructor; intros [] |].
  intros x Hx [<-|[]]. apply existsb_key in Hx. congruence.
Qed.

Lemma dict_get_set {V} (d : Dict V) k v k' :
  dict_get (dict_set d k v) k' = if String.eqb k k' then Some v else dict_get d k'.
Proof.
  unfold dict_get.
  induction d as [|[k0 v0] rest IH]; cbn [dict_set find fst snd option_map].
  - now destruct (String.eqb k k').
  - destruct (String.eqb_spec k0 k) as [->|Hne]; cbn [find fst snd option_map].
    + now destruct (String.eqb k k').
    + destruct (String.eqb_spec k0 k') as [->|Hne'].
      * cbn [option_map snd]. destruct (String.eqb_spec k k'); congruence.
      * exact IH.
Qed.

Lemma assign_all_nodup {V} (entries : list (string * V)) : forall d,
  NoDup (map fst d) -> NoDup (map fst (assign_all d entries)).
Proof.
  induction entries as [|[k v] rest IH]; intros d Hd; [exact Hd|].
  apply IH, dict_set_nodup, Hd.
Qed.

Lemma assign_all_keys {V} (entries : list (string * V)) : forall d k,
  In k (map fst (assign_all d entries)) <-> In k (map fst d) \/ In k (map fst entries).
Proof.
  induction entries as [|[k0 v0] rest IH]; intros d k; cbn [assign_all fold_left map fst].
  - cbn. tauto.
  - change (fold_left _ rest ?d0) with (assign_all d0 rest).
    rewrite IH, dict_set_keys.
    destruct (existsb (String.eqb k0) (map fst d)) eqn:E.
    + apply existsb_key in E. cbn [In]. split; [tauto|].
      intros [H|[<-|H]]; auto.
    + rewrite in_app_iff. cbn [In]. tauto.
Qed.

Lemma find_append {A} (f : A -> bool) (a b : list A) :
  find f (a ++ b)%list = match find f a with Some x => Some x | None => find f b end.
Proof. induction a as [|x a IH]; cbn; [reflexivity|]. now destruct (f x). Qed.

Lemma dict_get_app {V} (a b : Dict V) k :
  dict_get (a ++ b)%list k =
  match dict_get a k with Some v => Some v | None => dict_get b k end.
Proof.
  unfold dict_get. rewrite find_append.
  now destruct (find (fun entry => String.eqb (fst entry) k) a).
Qed.

Lemma assign_all_get {V} (entries : list (string * V)) : forall d k,
  dict_get (assign_all d entries) k =
  match dict_get (List.rev entries) k with
  | Some v => Some v
  | None => dict_get d k
  end.
Proof.
  induction entries as [|[k0 v0] rest IH]; intros d k; cbn [assign_all fold_left List.rev].
  - reflexivity.
  - change (fold_left _ rest ?d0) with (assign_all d0 rest).
    rewrite IH. cbn [fst snd]. rewrite dict_get_set, dict_get_app.
    destruct (dict_get (List.rev rest) k); [reflexivity|].
    unfold dict_get at 2. cbn [find fst snd option_map].
    now destruct (String.eqb k0 k).
Qed.

(** X12: the nominator map built from the storage entries holds every
    nominator once, holds exactly the nominators of the entries that decode,
    and gives each the targets of its last such entry: an entry that fails to
    decode is skipped, a repeated nominator is overwritten. *)
Theorem nominators_map_last_entry_wins (nominatorsData : list NominatorEntry) :
  let nominatorsMap := ValidatorCli.buildNominatorsMap nominatorsData in
  NoDup (map fst nominatorsMap) /\
  (forall nominator,
     In nominator (map fst nominatorsMap) <->
     In nominator (map fst (decoded nominatorsData))) /\
  (forall nominator,
     dict_get nominatorsMap nominator = dict_get (List.rev (decoded nominatorsData)) nominator).
Proof.
  cbv zeta. rewrite buildNominatorsMap_assigns. split; [|split].
  - apply assign_all_nodup. constructor.
  - intro k. rewrite assign_all_keys. cbn. tauto.
  - intro k. rewrite assign_all_get.
    now destruct (dict_get (List.rev (decoded nominatorsData)) k).
Qed.

Lemma assign_all_fresh {V} (entries : list (string * V)) : forall d,
  NoDup (map fst d ++ map fst entries) -> assign_all d entries = (d ++ entries)%list.
Proof.
  induction entries as [|[k v] rest IH]; intros d Hd; cbn [assign_all fold_left].
  - now rewrite app_nil_r.
  - change (fold_left _ rest ?d0) with (assign_all d0 rest).
    cbn [map fst] in Hd.
    assert (Hk : ~ In k (map fst d)).
    { intro Hin. apply NoDup_remove_2 in Hd. apply Hd, in_or_app. now left. }
    assert (Hset : dict_set d k v = (d ++ [(k, v)])%list).
    { clear - Hk. induction d as [|[k' v'] d IH]; [reflexivity|].
      cbn [dict_set List.app]. cbn [map fst In] in Hk.
      destruct (String.eqb_spec k' k) as [->|_]; [tauto|].
      rewrite IH by tauto. reflexivity. }
    cbn [fst snd]. rewrite Hset, IH.
    + now rewrite <- app_assoc.
    + rewrite map_app, <- app_assoc. exact Hd.
Qed.

(** X13: when no nominator comes twice among the entries that decode, as in
    a storage map, the nominator map holds exactly these entries, so the
    total nominator count of a validator is the number of entries that
    decode and whose targets include it. *)
Theorem nominators_map_of_distinct_entries
    (nominatorsData : list NominatorEntry) (validatorAddress : string) :
  NoDup (map fst (decoded nominatorsData)) ->
  Permutation (ValidatorCli.buildNominatorsMap nominatorsData) (decoded nominatorsData) /\
  List.length (ValidatorCli.targetingNominators
                 (ValidatorCli.buildNominatorsMap nominatorsData) validatorAddress) =
  List.length (filter (fun entry => includes (snd entry) validatorAddress)
                      (decoded nominatorsData)).
Proof.
  intro Hd.
  assert (E : ValidatorCli.buildNominatorsMap nominatorsData = decoded nominatorsData)
    by (rewrite buildNominatorsMap_assigns; now apply assign_all_fresh).
  rewrite E. split; [apply Permutation_refl|].
  unfold ValidatorCli.targetingNominators. apply length_map.
Qed.

Lemma nominators_map_of_distinct_entries_witness :
  let nominatorsData :=
    [ {| key_arg := Some "n1"; nominations := Some ["V"] |};
      {| key_arg := None; nominations := Some ["V"] |};
      {| key_arg := Some "n2"; nominations := Some ["W"] |};
      {| key_arg := Some "n3"; nominations := Some ["W"; "V"] |} ] in
  NoDup (map fst (decoded nominatorsData)) /\
  List.length (ValidatorCli.targetingNominators
                 (ValidatorCli.buildNominatorsMap nominatorsData) "V") = 2%nat.
Proof.
  intro nominatorsData.
  assert (H : NoDup (map fst (decoded nominatorsData))).
  { cbn. repeat constructor; cbn; intuition discriminate. }
  split; [exact H|].
  destruct (nominators_map_of_distinct_entries nominatorsData "V" H) as [_ E].
  rewrite E. reflexivity.
Defined.

(** ** The order of the table *)

(** The rounding of a negative integer is never above zero. *)
Lemma round_negative_not_above_zero m e :
  SFltb (S754_zero false) (binary_round prec emax true m e) = false.
Proof.
  unfold binary_round, binary_round_aux.
  destruct (shl_align m e _) as [mz ez].
  destruct (shr_fexp prec emax (Z.pos mz) ez loc_Exact) as [mrs e'].
  destruct (shr_fexp prec emax _ e' loc_Exact) as [mrs' e''].
  destruct (shr_m mrs'); [reflexivity | | reflexivity].
  now destruct (e'' <=? emax - prec)%Z.
Qed.

Lemma normalize_opposites m e :
  SFltb (S754_zero false) (binary_normalize prec emax m e false) = true ->
  SFltb (S754_zero false) (binary_normalize prec emax (- m) e false) = false.
Proof.
  destruct m as [|p|p]; cbn [binary_normalize Z.opp]; intro H.
  - reflexivity.
  - apply round_negative_not_above_zero.
  - now rewrite round_negative_not_above_zero in H.
Qed.

(** The comparator never ranks two amounts both ways. *)
Lemma difference_one_way (x y : number) :
  gtb (sub x y) (of_Z 0) = true -> gtb (sub y x) (of_Z 0) = false.
Proof.
  unfold gtb, sub. change (of_Z 0) with (S754_zero false).
  destruct x as [sx|sx| |sx mx ex], y as [sy|sy| |sy my ey];
    try solve [repeat match goal with s : bool |- _ => destruct s end; cbn; congruence].
  unfold SFsub. change IntDef.Z.min with Z.min. cbv zeta.
  rewrite (Z.min_comm ey ex).
  set (a := cond_Zopp sx (Z.pos (fst (shl_align mx ex (Z.min ex ey))))).
  set (b := cond_Zopp sy (Z.pos (fst (shl_align my ey (Z.min ex ey))))).
  intro H. replace (b - a)%Z with (- (a - b))%Z by lia.
  now apply normalize_opposites.
Qed.

(** No row is directly followed by one the comparator puts before it. *)
Fixpoint ranked (rows : list Row) : Prop :=
  match rows with
  | a :: (b :: _) as rest => ValidatorCli.byTotalActiveStake a b = false /\ ranked rest
  | _ => True
  end.

Lemma byTotalActiveStake_one_way a b :
  ValidatorCli.byTotalActiveStake a b = true -> ValidatorCli.byTotalActiveStake b a = false.
Proof. apply difference_one_way. Qed.

Lemma sort_insert_ranked x : forall sorted,
  ranked sorted -> ranked (sort_insert ValidatorCli.byTotalActiveStake x sorted).
Proof.
  induction sorted as [|y rest IH]; intro H; [exact I|].
  cbn [sort_insert].
  destruct (ValidatorCli.byTotalActiveStake x y) eqn:E.
  - assert (Hrest : ranked rest) by (destruct rest; [exact I | apply H]).
    specialize (IH Hrest).
    destruct rest as [|z rest'].
    + cbn. split; [now apply byTotalActiveStake_one_way | exact I].
    + cbn [sort_insert] in *.
      destruct (ValidatorCli.byTotalActiveStake x z).
      * split; [apply H | exact IH].
      * split; [now apply byTotalActiveStake_one_way | exact IH].
  - split; [exact E | exact H].
Qed.

Lemma sort_ranked rows : ranked (sort ValidatorCli.byTotalActiveStake rows).
Proof.
  induction rows as [|x rest IH]; [exact I|]. cbn [sort]. now apply sort_insert_ranked.
Qed.

Lemma ranked_tail a rest : ranked (a :: rest) -> ranked rest.
Proof. destruct rest; [intros; exact I | intros [_ H]; exact H]. Qed.

Lemma ranked_firstn : forall k rows, ranked rows -> ranked (firstn k rows).
Proof.
  induction k as [|k IH]; intros [|a rest] H; try exact I.
  cbn [firstn]. specialize (IH rest (ranked_tail _ _ H)).
  destruct rest as [|b rest']; [destruct k; exact I|].
  destruct k as [|k']; [exact I|].
  cbn [firstn] in *. split; [apply H | exact IH].
Qed.

Lemma ranked_slice0 rows n : ranked rows -> ranked (slice0 rows n).
Proof. intro H. unfold slice0. destruct (n <? 0)%Z; now apply ranked_firstn. Qed.

(** *** The value of a binary64 number, and the sign of a difference

    A finite number [m * 2^e] with its sign is the fraction [num / den]; the
    difference of two finite numbers, rounded, is above zero exactly when
    the first is the larger: a difference that is not zero never rounds to
    zero. *)
Section Values.
Local Open Scope Z_scope.

Definition num (x : number) : Z :=
  match x with
  | S754_finite s m e => cond_Zopp s (Z.pos m) * 2 ^ Z.max e 0
  | _ => 0
  end.

Definition den (x : number) : Z :=
  match x with
  | S754_finite _ _ e => 2 ^ Z.max (- e) 0
  | _ => 1
  end.

(** [x <= y], as fractions. *)
Definition value_le (x y : number) : Prop := num x * den y <= num y * den x.

(** A finite binary64: a zero, or [m * 2^e] with [e] not below the least
    exponent, -1074. *)
Definition regular (x : number) : bool :=
  match x with
  | S754_zero _ => true
  | S754_finite _ _ e => emin prec emax <=? e
  | _ => false
  end.

Lemma digits2_pos_lower p : 2 ^ (Z.pos (digits2_pos p) - 1) <= Z.pos p.
Proof.
  induction p as [p IH|p IH|]; cbn [digits2_pos]; [| |cbn; lia];
    rewrite Pos2Z.inj_succ;
    replace (Z.succ (Z.pos (digits2_pos p)) - 1) with (Z.succ (Z.pos (digits2_pos p) - 1))
      by lia;
    rewrite Z.pow_succ_r by lia; lia.
Qed.

Lemma shr_1_keeps (r : shr_record) (k : Z) :
  2 * k <= shr_m r -> k <= shr_m (shr_1 r).
Proof.
  destruct r as [m rb sb]. cbn [shr_m].
  destruct m as [|[p|p|]|[p|p|]]; cbn [shr_1 shr_m]; lia.
Qed.

Lemma iter_shr_1_keeps (q : positive) : forall (r : shr_record) (k : Z),
  2 ^ Z.pos q * k <= shr_m r -> k <= shr_m (iter_pos shr_1 q r).
Proof.
  induction q as [q IH|q IH|]; intros r k H; cbn [iter_pos].
  - apply IH, IH, shr_1_keeps.
    replace (Z.pos q~1) with (Z.pos q + Z.pos q + 1) in H by lia.
    rewrite !Z.pow_add_r in H by lia. lia.
  - apply IH, IH.
    replace (Z.pos q~0) with (Z.pos q + Z.pos q) in H by lia.
    rewrite Z.pow_add_r in H by lia. lia.
  - apply shr_1_keeps. exact H.
Qed.

Lemma shr_fexp_positive (p : positive) (e : Z) (l : location) :
  emin prec emax <= e ->
  0 < shr_m (fst (shr_fexp prec emax (Z.pos p) e l)) /\
  emin prec emax <= snd (shr_fexp prec emax (Z.pos p) e l).
Proof.
  intro He. unfold shr_fexp, shr. cbn [Zdigits2].
  assert (Hm : shr_m (shr_record_of_loc (Z.pos p) l) = Z.pos p)
    by (destruct l as [|[]]; reflexivity).
  destruct (fexp prec emax (Z.pos (digits2_pos p) + e) - e) as [|q|q] eqn:Hn;
    cbn [fst snd]; try (rewrite Hm; split; lia).
  assert (Hq : Z.pos q = Z.pos (digits2_pos p) - prec).
  { unfold fexp in Hn. lia. }
  split; [|lia].
  apply Z.lt_le_pred. cbn [Z.pred]. change (Z.pred 0) with (-1). 
  assert (H1 : 1 <= shr_m (iter_pos shr_1 q (shr_record_of_loc (Z.pos p) l))).
  { apply iter_shr_1_keeps. rewrite Hm, Z.mul_1_r.
    pose proof (digits2_pos_lower p) as Hd.
    assert (Hle : 2 ^ Z.pos q <= 2 ^ (Z.pos (digits2_pos p) - 1)).
    { apply Z.pow_le_mono_r; [lia|]. rewrite Hq. unfold prec. lia. }
    lia. }
  lia.
Qed.

Lemma round_nearest_even_positive m l : 0 < m -> 0 < round_nearest_even m l.
Proof. intro H. destruct l as [|[]]; cbn; try lia. destruct (Z.even m); lia. Qed.

Lemma binary_round_aux_positive (p : positive) (e : Z) (l : location) :
  emin prec emax <= e ->
  SFltb (S754_zero false) (binary_round_aux prec emax false (Z.pos p) e l) = true.
Proof.
  intro He. unfold binary_round_aux.
  destruct (shr_fexp_positive p e l He) as [H1 H2].
  destruct (shr_fexp prec emax (Z.pos p) e l) as [mrs' e']. cbn [fst snd] in *.
  pose proof (round_nearest_even_positive (shr_m mrs') (loc_of_shr_record mrs') H1) as Hr.
  destruct (round_nearest_even (shr_m mrs') (loc_of_shr_record mrs')) as [|p'|p'];
    try lia.
  destruct (shr_fexp_positive p' e' loc_Exact H2) as [H3 _].
  destruct (shr_fexp prec emax (Z.pos p') e' loc_Exact) as [mrs'' e'']. cbn [fst snd] in *.
  destruct (shr_m mrs'') as [|m|m]; try lia.
  now destruct (e'' <=? emax - prec).
Qed.

Lemma binary_round_positive (m : positive) (e : Z) :
  emin prec emax <= e ->
  SFltb (S754_zero false) (binary_round prec emax false m e) = true.
Proof.
  intro He. unfold binary_round.
  destruct (shl_align m e (fexp prec emax (Z.pos (digits2_pos m) + e))) as [mz ez] eqn:Hs.
  apply binary_round_aux_positive.
  unfold shl_align in Hs.
  destruct (fexp prec emax (Z.pos (digits2_pos m) + e) - e) eqn:Hd;
    injection Hs as <- <-; try exact He.
  unfold fexp. lia.
Qed.

Lemma iter_xO (d m : positive) : Z.pos (Pos.iter xO m d) = Z.pos m * 2 ^ Z.pos d.
Proof.
  induction d as [|d IH] using Pos.peano_ind.
  - cbn. lia.
  - rewrite Pos.iter_succ, Pos2Z.inj_xO, IH, Pos2Z.inj_succ, Z.pow_succ_r by lia. lia.
Qed.

Lemma shl_align_value (m : positive) (e ez : Z) :
  ez <= e -> Z.pos (fst (shl_align m e ez)) = Z.pos m * 2 ^ (e - ez).
Proof.
  intro H. unfold shl_align.
  destruct (ez - e) as [|d|d] eqn:Hd; cbn [fst]; try lia.
  - replace (e - ez) with 0 by lia. cbn. lia.
  - rewrite iter_xO. f_equal. f_equal. lia.
Qed.

Lemma cond_Zopp_mul s a b : cond_Zopp s (a * b) = cond_Zopp s a * b.
Proof. destruct s; cbn; lia. Qed.

Lemma aligned_value (s : bool) (m : positive) (e other : Z) :
  let ez := Z.min e other in
  let c := Z.max (- e) 0 + Z.max (- other) 0 + ez in
  0 <= c /\
  cond_Zopp s (Z.pos m) * 2 ^ Z.max e 0 * 2 ^ Z.max (- other) 0 =
  cond_Zopp s (Z.pos (fst (shl_align m e ez))) * 2 ^ c.
Proof.
  intros ez c. assert (Hc : 0 <= c) by (unfold c, ez; lia).
  split; [exact Hc|].
  rewrite shl_align_value, cond_Zopp_mul by (unfold ez; lia).
  rewrite <- !Z.mul_assoc, <- !Z.pow_add_r by (unfold ez; lia).
  replace (e - ez + c) with (Z.max e 0 + Z.max (- other) 0) by (unfold c; lia).
  reflexivity.
Qed.

Lemma difference_sign (x y : number) :
  regular x = true -> regular y = true ->
  SFltb (S754_zero false) (SFsub prec emax y x) = false ->
  value_le y x.
Proof.
  unfold value_le.
  destruct x as [sx|sx| |sx mx ex], y as [sy|sy| |sy my ey];
    intros Hx Hy H; cbn [regular] in Hx, Hy; try discriminate.
  - cbn [SFsub] in H. cbn [num den]. destruct sy; [|discriminate].
    cbn [cond_Zopp]. pose proof (Z.pow_pos_nonneg 2 (Z.max ey 0)). lia.
  - cbn [SFsub] in H. cbn [num den]. destruct sx; [discriminate|].
    cbn [cond_Zopp]. pose proof (Z.pow_pos_nonneg 2 (Z.max ex 0)). lia.
  - apply Z.leb_le in Hx, Hy.
    unfold SFsub in H. change IntDef.Z.min with Z.min in H. cbv zeta in H.
    cbn [num den].
    destruct (aligned_value sy my ey ex) as [Hc Ey].
    destruct (aligned_value sx mx ex ey) as [_ Ex].
    cbv zeta in Hc, Ey, Ex. rewrite (Z.min_comm ex ey) in Ex.
    rewrite Ey, Ex.
    replace (Z.max (- ex) 0 + Z.max (- ey) 0 + Z.min ey ex)
      with (Z.max (- ey) 0 + Z.max (- ex) 0 + Z.min ey ex) by lia.
    set (c := Z.max (- ey) 0 + Z.max (- ex) 0 + Z.min ey ex) in *.
    set (Y := cond_Zopp sy (Z.pos (fst (shl_align my ey (Z.min ey ex))))) in *.
    set (X := cond_Zopp sx (Z.pos (fst (shl_align mx ex (Z.min ey ex))))) in *.
    assert (HYX : Y <= X).
    { destruct (Y - X) as [|d|d] eqn:Hd; try lia.
      cbn [binary_normalize] in H.
      rewrite binary_round_positive in H by lia. discriminate. }
    apply Z.mul_le_mono_nonneg_r; [apply Z.pow_nonneg; lia | exact HYX].
Qed.

End Values.

(** The amount a row is sorted by. *)
Definition total_of (row : Row) : number := parseFloat (Total_Active_Stake_DOT row).

(** No row is directly followed by a row with a larger total. *)
Fixpoint falling (rows : list Row) : Prop :=
  match rows with
  | a :: (b :: _) as rest => value_le (total_of b) (total_of a) /\ falling rest
  | _ => True
  end.

Lemma Forall_prefix {A} (P : A -> Prop) : forall k (xs : list A),
  Forall P xs -> Forall P (firstn k xs).
Proof.
  induction k as [|k IH]; intros [|x xs] H; cbn [firstn]; try constructor.
  - now inversion H.
  - apply IH. now inversion H.
Qed.

Lemma ranked_falling : forall rows,
  Forall (fun row => regular (total_of row) = true) rows -> ranked rows -> falling rows.
Proof.
  induction rows as [|a rest IH]; intros Hregular Hranked; [exact I|].
  destruct rest as [|b rest']; [exact I|].
  inversion Hregular as [|? ? Ha Hrest]; subst.
  inversion Hrest as [|? ? Hb _]; subst.
  destruct Hranked as [Hab Hranked].
  split; [|now apply IH].
  apply difference_sign; [exact Ha | exact Hb | exact Hab].
Qed.

(** X14: a live run over the validator set shows its rows by falling total
    active stake.  Where the total of every row reads back as a finite
    number, no row of the record saved, nor of the table shown, is directly
    followed by a row whose total is larger; a limit cuts the table without
    disturbing the order. *)
Theorem live_table_is_ranked
    (net : Network) (api : Api) (index : N) (nominatorsData : list NominatorEntry)
    (validators : list AccountId) (options : ValidatorCli.Options) (w : World) :
  session w = None ->
  (if ValidatorCli.refresh options then None
   else fresh_entry w ValidatorCli.cacheFile ValidatorCli.cacheTimeout) = None ->
  truthy_string (ValidatorCli.validator options) = false ->
  snd (connect_outcome net ValidatorCli.providers) = Some api ->
  query_session_validators api = Resolved validators ->
  query_staking_activeEra api = Resolved (Some index) ->
  query_staking_nominators_entries api = Resolved nominatorsData ->
  let maxValidators :=
    match ValidatorCli.limit options with
    | Some n => if truthy_int (ValidatorCli.limit options) then n
                else ValidatorCli.maxValidators
    | None => ValidatorCli.maxValidators
    end in
  let rows :=
    sort ValidatorCli.byTotalActiveStake
         (map (cli_row api (digits index) (ValidatorCli.buildNominatorsMap nominatorsData))
              (slice0 validators maxValidators)) in
  let shown :=
    match ValidatorCli.limit options with
    | Some n => if truthy_int (ValidatorCli.limit options) then slice0 rows n else rows
    | None => rows
    end in
  Forall (fun row => regular (total_of row) = true) rows ->
  exists w1,
    ValidatorCli.getValidators options net w = (Normal tt, w1) /\
    live_outcome w w1 shown rows /\
    falling rows /\ falling shown.
Proof.
  intros Hs Hmiss Hfalsy Hup Hvalidators Hera Hentries maxValidators rows shown Hregular.
  destruct (cli_getValidators_set net api index nominatorsData Hup Hera Hentries
              validators Hvalidators options w Hs Hmiss Hfalsy) as (w1 & Hrun & Hout).
  exists w1. split; [exact Hrun|]. split; [exact Hout|].
  assert (Hrows : falling rows) by (apply ranked_falling; [exact Hregular | apply sort_ranked]).
  split; [exact Hrows|].
  unfold shown. destruct (ValidatorCli.limit options) as [n|]; [|exact Hrows].
  destruct (truthy_int (Some n)); [|exact Hrows].
  apply ranked_falling; [|apply ranked_slice0, sort_ranked].
  unfold slice0. destruct (n <? 0)%Z; now apply Forall_prefix.
Qed.

(** A node with three validators of 100, 300 and 200 tokens. *)
Definition uneven_api : Api :=
  {| query_session_validators := Resolved ["A"; "B"; "C"];
     query_staking_activeEra := Resolved (Some 1500%N);
     query_staking_validators := fun _ => Resolved (Some {| commission := 50000000 |});
     derive_staking_account := fun validator =>
       Resolved (Some {| stakingLedger := Some {| total :=
         if String.eqb validator "A" then 1000000000000
         else if String.eqb validator "B" then 3000000000000
         else 2000000000000 |} |});
     query_staking_erasStakers := fun _ _ =>
       Resolved {| exposure_total := 0; own := 0; others := [] |};
     query_staking_nominators_entries := Resolved [] |}.

Lemma live_table_is_ranked_witness :
  let rows := sort ValidatorCli.byTotalActiveStake
                (map (cli_row uneven_api (digits 1500) (ValidatorCli.buildNominatorsMap []))
                     (slice0 ["A"; "B"; "C"] ValidatorCli.maxValidators)) in
  session fresh_world = None /\
  snd (connect_outcome (fun _ => Resolved uneven_api) ValidatorCli.providers)
    = Some uneven_api /\
  Forall (fun row => regular (total_of row) = true) rows /\
  map Validator rows = ["B"; "C"; "A"] /\
  map Total_Active_Stake_DOT rows = ["300.0000"; "200.0000"; "100.0000"] /\
  exists w1,
    ValidatorCli.getValidators full_set (fun _ => Resolved uneven_api) fresh_world
      = (Normal tt, w1) /\
    live_outcome fresh_world w1 rows rows /\
    falling rows.
Proof.
  intro rows.
  assert (Hrows : rows =
            [cli_row uneven_api (digits 1500) (ValidatorCli.buildNominatorsMap []) "B";
             cli_row uneven_api (digits 1500) (ValidatorCli.buildNominatorsMap []) "C";
             cli_row uneven_api (digits 1500) (ValidatorCli.buildNominatorsMap []) "A"])
    by (vm_compute; reflexivity).
  assert (Hregular : Forall (fun row => regular (total_of row) = true) rows)
    by (rewrite Hrows; repeat constructor; vm_compute; reflexivity).
  split; [reflexivity|]. split; [reflexivity|]. split; [exact Hregular|].
  split; [rewrite Hrows; vm_compute; reflexivity|].
  split; [rewrite Hrows; vm_compute; reflexivity|].
  destruct (live_table_is_ranked (fun _ => Resolved uneven_api) uneven_api 1500 []
              ["A"; "B"; "C"] full_set fresh_world
              eq_refl eq_refl eq_refl eq_refl eq_refl eq_refl eq_refl Hregular)
    as (w1 & Hrun & Hout & Hfalling & _).
  exists w1. split; [exact Hrun|]. split; [exact Hout | exact Hfalling].
Defined.

(** ** The decimals of a computed row *)

(** X15: when the three queries of a validator resolve and the amounts of
    its estimate are finite and below [10^21], the row the later script
    returns for it shows every amount with four decimals and the commission
    with two. *)
Theorem computed_row_shows_four_decimals
    (api : Api) (eraNumber : string) (nominatorsMap : Dict (list string))
    (validator : AccountId) (w : World)
    (prefs : option ValidatorPrefs) (stakingInfo : option StakingAccount)
    (exposure : Exposure) :
  answers api eraNumber validator = inl (prefs, stakingInfo, exposure) ->
  let e := ValidatorCli.estimate prefs stakingInfo exposure
             (ValidatorCli.targetingNominators nominatorsMap validator) in
  Forall below_cutoff
    [ValidatorCli.ownStake e; ValidatorCli.activeStake e; ValidatorCli.inactiveStake e;
     ValidatorCli.totalNomination e; ValidatorCli.totalActiveStake e] ->
  below_cutoff (ValidatorCli.commissionPct e) ->
  exists row,
    ValidatorCli.processValidator api eraNumber nominatorsMap validator w = (Normal row, w) /\
    Forall (fun amount => decimal_places amount = Some 4%nat) (monetary_fields row) /\
    decimal_places (Commission_pct row) = Some 2%nat.
Proof.
  intros Hanswers e Hamounts Hcommission.
  rewrite cli_processValidator_run, Hanswers.
  eexists. split; [reflexivity|].
  now apply report_shows_four_decimals.
Qed.

Lemma computed_row_shows_four_decimals_witness :
  let prefs := Some {| commission := 50000000 |} in
  let stakingInfo := Some {| stakingLedger := Some {| total := 1000000000000 |} |} in
  let exposure := {| exposure_total := 11000000000000; own := 1000000000000;
                     others := [ {| who := "n1"; value := 10000000000000 |} ] |} in
  let e := ValidatorCli.estimate prefs stakingInfo exposure
             (ValidatorCli.targetingNominators scenario_registry "V") in
  answers scenario_api "1500" "V" = inl (prefs, stakingInfo, exposure) /\
  Forall below_cutoff
    [ValidatorCli.ownStake e; ValidatorCli.activeStake e; ValidatorCli.inactiveStake e;
     ValidatorCli.totalNomination e; ValidatorCli.totalActiveStake e] /\
  below_cutoff (ValidatorCli.commissionPct e) /\
  exists row,
    ValidatorCli.processValidator scenario_api "1500" scenario_registry "V" fresh_world
      = (Normal row, fresh_world) /\
    Forall (fun amount => decimal_places amount = Some 4%nat) (monetary_fields row) /\
    decimal_places (Commission_pct row) = Some 2%nat.
Proof.
  intros prefs stakingInfo exposure e.
  assert (Hamounts : Forall below_cutoff
    [ValidatorCli.ownStake e; ValidatorCli.activeStake e; ValidatorCli.inactiveStake e;
     ValidatorCli.totalNomination e; ValidatorCli.totalActiveStake e])
    by (repeat constructor; vm_compute; reflexivity).
  assert (Hcommission : below_cutoff (ValidatorCli.commissionPct e))
    by (split; vm_compute; reflexivity).
  split; [reflexivity|]. split; [exact Hamounts|]. split; [exact Hcommission|].
  exact (computed_row_shows_four_decimals scenario_api "1500" scenario_registry "V"
           fresh_world prefs stakingInfo exposure eq_refl Hamounts Hcommission).
Defined.

(** ** The command line *)

Import ValidatorCliMain.

(** The flags that take the next argument as their value. *)
Definition takes_value (arg : string) : bool :=
  orb (is_flag arg "--limit" "-l") (is_flag arg "--validator" "-v").

Definition asks_help (arg : string) : bool := is_flag arg "--help" "-h".

Lemma flag_cases arg :
  asks_help arg = true \/
  (asks_help arg = false /\ takes_value arg = true) \/
  (asks_help arg = false /\ takes_value arg = false).
Proof. destruct (asks_help arg), (takes_value arg); auto. Qed.

Lemma help_kept_upto n : forall args options,
  (List.length args <= n)%nat ->
  ValidatorCli.help options = true ->
  ValidatorCli.help (parseArguments args options) = true.
Proof.
  induction n as [|n IH]; intros [|arg rest] o Hlen Ho; cbn in Hlen; try lia;
    try exact Ho.
  cbn [parseArguments].
  destruct (is_flag arg "--help" "-h"); [apply IH; [lia | reflexivity]|].
  destruct (is_flag arg "--limit" "-l").
  { destruct rest as [|v rest']; [exact Ho|]. apply IH; [cbn in Hlen; lia | exact Ho]. }
  destruct (is_flag arg "--validator" "-v").
  { destruct rest as [|v rest']; [exact Ho|]. apply IH; [cbn in Hlen; lia | exact Ho]. }
  destruct (is_flag arg "--refresh" "-r"); apply IH; try lia; exact Ho.
Qed.

Lemma help_kept args options :
  ValidatorCli.help options = true ->
  ValidatorCli.help (parseArguments args options) = true.
Proof. apply (help_kept_upto (List.length args)). lia. Qed.

Lemma help_unset_upto n : forall args options,
  (List.length args <= n)%nat ->
  Forall (fun arg => asks_help arg = false) args ->
  ValidatorCli.help options = false ->
  ValidatorCli.help (parseArguments args options) = false.
Proof.
  induction n as [|n IH]; intros [|arg rest] o Hlen Hargs Ho; cbn in Hlen; try lia;
    try exact Ho.
  cbn [parseArguments]. inversion Hargs as [|? ? Harg Hrest]; subst.
  unfold asks_help in Harg. rewrite Harg.
  destruct (is_flag arg "--limit" "-l").
  { destruct rest as [|v rest']; [exact Ho|].
    inversion Hrest; subst. apply IH; [cbn in Hlen; lia | assumption | exact Ho]. }
  destruct (is_flag arg "--validator" "-v").
  { destruct rest as [|v rest']; [exact Ho|].
    inversion Hrest; subst. apply IH; [cbn in Hlen; lia | assumption | exact Ho]. }
  destruct (is_flag arg "--refresh" "-r"); apply IH; try lia; assumption.
Qed.

Lemma help_unset args options :
  Forall (fun arg => asks_help arg = false) args ->
  ValidatorCli.help options = false ->
  ValidatorCli.help (parseArguments args options) = false.
Proof. apply (help_unset_upto (List.length args)). lia. Qed.

(** The loop, started at the first argument of [pre], steps exactly to the
    end of [pre]: the argument after [pre] is read as a flag, not taken as a
    value. *)
Fixpoint lands (pre : list string) : bool :=
  match pre with
  | [] => true
  | arg :: rest =>
      if takes_value arg then
        match rest with
        | _ :: rest' => lands rest'
        | [] => false
        end
      else lands rest
  end.

Lemma help_takes_no_value arg : asks_help arg = true -> takes_value arg = false.
Proof.
  unfold asks_help, takes_value, is_flag. intro H.
  apply orb_true_iff in H as [H|H]; apply String.eqb_eq in H; subst arg; reflexivity.
Qed.

Lemma parse_prefix_upto n : forall pre tail options,
  (List.length pre <= n)%nat ->
  lands pre = true ->
  parseArguments (pre ++ tail) options = parseArguments tail (parseArguments pre options).
Proof.
  induction n as [|n IH]; intros [|arg rest] tail o Hlen Hlands; cbn in Hlen; try lia;
    try reflexivity.
  cbn [lands] in Hlands. cbn [List.app parseArguments].
  destruct (is_flag arg "--help" "-h") eqn:Eh.
  { rewrite (help_takes_no_value arg Eh) in Hlands. apply IH; [lia | exact Hlands]. }
  unfold takes_value in Hlands.
  destruct (is_flag arg "--limit" "-l").
  { cbn [orb] in Hlands. destruct rest as [|v rest']; [discriminate|].
    cbn [List.app]. apply IH; [cbn in Hlen; lia | exact Hlands]. }
  destruct (is_flag arg "--validator" "-v").
  { cbn [orb] in Hlands. destruct rest as [|v rest']; [discriminate|].
    cbn [List.app]. apply IH; [cbn in Hlen; lia | exact Hlands]. }
  cbn [orb] in Hlands.
  destruct (is_flag arg "--refresh" "-r"); apply IH; try lia; exact Hlands.
Qed.

Lemma parse_prefix pre tail options :
  lands pre = true ->
  parseArguments (pre ++ tail) options = parseArguments tail (parseArguments pre options).
Proof. apply (parse_prefix_upto (List.length pre)). lia. Qed.

(** X16: a [--help] or [-h] argument that the loop reads as a flag, that is,
    one that is not taken as the value of the [--limit] or [--validator]
    before it, ends the run at once, whatever else is on the command line:
    the script prints its usage and does nothing more; it reads no cache,
    contacts no endpoint and writes no file. *)
Theorem help_prints_usage_only
    (closing : response unit) (pre post : list string) (flag : string)
    (net : Network) (w : World) :
  lands pre = true ->
  asks_help flag = true ->
  main closing (pre ++ flag :: post) net w
    = (Normal tt, append_trace w [console_log usage]).
Proof.
  intros Hpre Hflag. unfold main.
  rewrite (parse_prefix pre (flag :: post) options Hpre).
  cbn [parseArguments]. unfold asks_help in Hflag. rewrite Hflag.
  rewrite help_kept by reflexivity.
  apply log_run.
Qed.

Lemma help_prints_usage_only_witness :
  lands ["--limit"; "5"; "-r"; "-v"; "--help"; "x"] = true /\
  asks_help "-h" = true /\
  main (Resolved tt) ["--limit"; "5"; "-r"; "-v"; "--help"; "x"; "-h"; "--limit"]
    always_up fresh_world =
    (Normal tt, append_trace fresh_world [console_log usage]).
Proof.
  split; [reflexivity|]. split; [reflexivity|].
  exact (help_prints_usage_only (Resolved tt) ["--limit"; "5"; "-r"; "-v"; "--help"; "x"]
           ["--limit"] "-h" always_up fresh_world eq_refl eq_refl).
Defined.

(** X17: a flag that takes a value and is read as a flag takes the next
    argument whatever it is.  A help flag right after [--limit] or
    [--validator] is read as that value: when no other argument of the
    command line is a help flag the usage is not printed and the run goes
    on to [getValidators] with the options parsed. *)
Theorem value_flag_swallows_help
    (closing : response unit) (pre post : list string) (flag value : string)
    (net : Network) :
  lands pre = true ->
  Forall (fun arg => asks_help arg = false) pre ->
  takes_value flag = true ->
  Forall (fun arg => asks_help arg = false) post ->
  main closing (pre ++ flag :: value :: post) net =
  ValidatorCli.getValidators_closing closing
    (parseArguments (pre ++ flag :: value :: post) options) net.
Proof.
  intros Hlands Hpre Hflag Hpost. unfold main.
  assert (Hhelp : ValidatorCli.help
                    (parseArguments (pre ++ flag :: value :: post) options) = false).
  { rewrite (parse_prefix pre _ options Hlands).
    pose proof (help_unset pre options Hpre eq_refl) as Hbefore.
    cbn [parseArguments].
    destruct (is_flag flag "--help" "-h") eqn:Eh.
    { rewrite (help_takes_no_value flag Eh) in Hflag. discriminate. }
    unfold takes_value in Hflag.
    destruct (is_flag flag "--limit" "-l"); [now apply help_unset|].
    cbn [orb] in Hflag. rewrite Hflag. now apply help_unset. }
  now rewrite Hhelp.
Qed.

Lemma value_flag_swallows_help_witness :
  lands ["--limit"; "5"] = true /\
  Forall (fun arg => asks_help arg = false) ["--limit"; "5"] /\
  takes_value "--validator" = true /\
  Forall (fun arg => asks_help arg = false) ["-r"] /\
  main (Resolved tt) ["--limit"; "5"; "--validator"; "--help"; "-r"] always_up =
  ValidatorCli.getValidators_closing (Resolved tt)
    {| ValidatorCli.limit := Some 5%Z; ValidatorCli.validator := Some "--help";
       ValidatorCli.refresh := true; ValidatorCli.help := false |} always_up.
Proof.
  assert (H1 : Forall (fun arg => asks_help arg = false) ["--limit"; "5"])
    by (repeat constructor).
  assert (H2 : Forall (fun arg => asks_help arg = false) ["-r"])
    by (repeat constructor).
  split; [reflexivity|]. split; [exact H1|]. split; [reflexivity|]. split; [exact H2|].
  exact (value_flag_swallows_help (Resolved tt) ["--limit"; "5"] ["-r"] "--validator"
           "--help" always_up eq_refl H1 eq_refl H2).
Defined.

(** X18: a limit that is not a truthy number counts as no limit.  With
    [--limit 0], with a limit that holds no digit, or with [--limit] as the
    last argument, a run does what it does without the flag: it processes
    the first hundred validators and shows every row. *)
Theorem falsy_limit_is_no_limit
    (options : ValidatorCli.Options) (net : Network) (w : World) :
  truthy_int (ValidatorCli.limit options) = false ->
  ValidatorCli.getValidators options net w =
  ValidatorCli.getValidators
    {| ValidatorCli.limit := None;
       ValidatorCli.validator := ValidatorCli.validator options;
       ValidatorCli.refresh := ValidatorCli.refresh options;
       ValidatorCli.help := ValidatorCli.help options |} net w.
Proof.
  destruct options as [[z|] v r h]; cbn [ValidatorCli.limit ValidatorCli.validator
    ValidatorCli.refresh ValidatorCli.help truthy_int]; intro H; [|reflexivity].
  apply negb_false_iff, Z.eqb_eq in H. subst z.
  unfold ValidatorCli.getValidators, ValidatorCli.fetch, ValidatorCli.loadCache, ValidatorCli.fromCache,
    ValidatorCli.validatorSet.
  cbn [ValidatorCli.limit ValidatorCli.validator ValidatorCli.refresh ValidatorCli.help
       truthy_int negb Z.eqb].
  reflexivity.
Qed.

Lemma falsy_limit_is_no_limit_witness :
  truthy_int (ValidatorCli.limit (parseArguments ["-r"; "--limit"; "none"] options)) = false /\
  truthy_int (ValidatorCli.limit (parseArguments ["--limit"; " 0"] options)) = false /\
  truthy_int (ValidatorCli.limit (parseArguments ["--limit"] options)) = false /\
  ValidatorCli.getValidators (parseArguments ["--limit"; " 0"] options) always_up fresh_world =
  ValidatorCli.getValidators full_set always_up fresh_world.
Proof.
  split; [reflexivity|]. split; [reflexivity|]. split; [reflexivity|].
  exact (falsy_limit_is_no_limit (parseArguments ["--limit"; " 0"] options) always_up
           fresh_world eq_refl).
Defined.

(** ** A chain query that fails *)

(** The message of the first chain-wide query of the validator-set path
    that fails, in the order the run makes them: the session validators,
    the active era (which must hold a value), the nominator entries. *)
Definition set_failure (api : Api) : option string :=
  match query_session_validators api with
  | Rejected m => Some m
  | Resolved _ =>
      match query_staking_activeEra api with
      | Rejected m => Some m
      | Resolved None => Some "Option: unwrapping a None value"
      | Resolved (Some _) =>
          match query_staking_nominators_entries api with
          | Rejected m => Some m
          | Resolved _ => None
          end
      end
  end.

Lemma cli_validatorSet_fails api options message w :
  set_failure api = Some message ->
  exists pre,
    Forall console_text pre /\
    ValidatorCli.validatorSet api options w = (Thrown message, append_trace w pre).
Proof.
  unfold set_failure, ValidatorCli.validatorSet, ValidatorCli.activeEraNumber. intro H.
  rewrite bind_run.
  destruct (query_session_validators api) as [validators|m]; cbn [await].
  2:{ injection H as <-. exists []. split; [constructor|]. now rewrite append_trace_nil. }
  unfold ret at 1. rewrite bind_run, log_run, bind_run, bind_run.
  destruct (query_staking_activeEra api) as [[index|]|m]; cbn [await].
  - unfold ret at 1 2. rewrite bind_run, log_run, bind_run, log_run, bind_run.
    destruct (query_staking_nominators_entries api) as [entries|m]; cbn [await];
      [discriminate|].
    injection H as <-. eexists. split; [|unfold throw; rewrite !append_trace_app; reflexivity].
    repeat constructor.
  - unfold ret at 1. injection H as <-.
    eexists. split; [|unfold throw; reflexivity]. repeat constructor.
  - injection H as <-. eexists. split; [|unfold throw; reflexivity]. repeat constructor.
Qed.

Lemma script_validatorSet_fails api message w :
  set_failure api = Some message ->
  exists pre,
    Forall console_text pre /\
    ValidatorScript.validatorSet api w = (Thrown message, append_trace w pre).
Proof.
  unfold set_failure, ValidatorScript.validatorSet, ValidatorCli.activeEraNumber. intro H.
  rewrite bind_run.
  destruct (query_session_validators api) as [validators|m]; cbn [await].
  2:{ injection H as <-. exists []. split; [constructor|]. now rewrite append_trace_nil. }
  unfold ret at 1. rewrite bind_run, log_run, bind_run, bind_run.
  destruct (query_staking_activeEra api) as [[index|]|m]; cbn [await].
  - unfold ret at 1 2. rewrite bind_run, log_run, bind_run, log_run, bind_run.
    destruct (query_staking_nominators_entries api) as [entries|m]; cbn [await];
      [discriminate|].
    injection H as <-. eexists. split; [|unfold throw; rewrite !append_trace_app; reflexivity].
    repeat constructor.
  - unfold ret at 1. injection H as <-.
    eexists. split; [|unfold throw; reflexivity]. repeat constructor.
  - injection H as <-. eexists. split; [|unfold throw; reflexivity]. repeat constructor.
Qed.

(** What the [finally] block adds to the trace of a run that holds a
    connection. *)
Definition closing_events (closing : response unit) : list Event :=
  match closing with
  | Resolved _ =>
      [console_log "Disconnecting from network..."; api_disconnect;
       console_log "Disconnected successfully"]
  | Rejected _ => [console_log "Disconnecting from network..."; api_disconnect]
  end.

Lemma failed_run_events (closing : response unit) (load cevs pre : list Event)
    (message : string) :
  tables load = [] -> writes load = [] -> disconnects load = [] ->
  tables cevs = [] -> writes cevs = [] -> disconnects cevs = [] ->
  Forall console_text pre ->
  let evs := (load ++ cevs ++ pre ++
              console_error_object "Error fetching validators:" message
              :: closing_events closing)%list in
  tables evs = [] /\ writes evs = [] /\ disconnects evs = [tt] /\
  In (console_error_object "Error fetching validators:" message) evs.
Proof.
  intros Ht1 Hw1 Hd1 Ht2 Hw2 Hd2 Hpre evs.
  destruct (console_text_silent pre Hpre) as (Ht3 & Hw3 & _).
  assert (Hd3 : disconnects pre = []).
  { clear - Hpre. induction Hpre as [|e evs He _ IH]; [reflexivity|].
    unfold disconnects in *. destruct e; cbn in He; try contradiction; exact IH. }
  unfold evs.
  rewrite !tables_app, !writes_app, !disconnects_app, Ht1, Ht2, Ht3, Hw1, Hw2, Hw3,
    Hd1, Hd2, Hd3.
  split; [now destruct closing|]. split; [now destruct closing|].
  split; [now destruct closing|].
  apply in_or_app. right. apply in_or_app. right. apply in_or_app. right. now left.
Qed.

(** What a run that failed after connecting has done: it passed the error to
    [console.error], showed and wrote nothing, left the files as they were
    and asked the node to disconnect, once; it has closed its session when
    the node answered that. *)
Definition failed_outcome (closing : response unit) (message : string)
    (w w' : World) : Prop :=
  files w' = files w /\
  (closed closing = Normal tt -> session w' = None) /\
  exists evs,
    trace w' = (trace w ++ evs)%list /\
    tables evs = [] /\ writes evs = [] /\ disconnects evs = [tt] /\
    In (console_error_object "Error fetching validators:" message) evs.

Lemma closing_run closing api w :
  session w = Some api ->
  ValidatorCli.disconnect_answering closing w =
  (closed closing,
   match closing with
   | Resolved _ => with_session None (append_trace w (closing_events closing))
   | Rejected _ => append_trace w (closing_events closing)
   end).
Proof.
  intro Hs. rewrite disconnect_answering_run, Hs. now destruct closing.
Qed.

Lemma cli_failed_query closing options net api message w :
  session w = None ->
  (if ValidatorCli.refresh options then None
   else fresh_entry w ValidatorCli.cacheFile ValidatorCli.cacheTimeout) = None ->
  truthy_string (ValidatorCli.validator options) = false ->
  snd (connect_outcome net ValidatorCli.providers) = Some api ->
  set_failure api = Some message ->
  exists w1,
    ValidatorCli.getValidators_closing closing options net w = (closed closing, w1) /\
    failed_outcome closing message w w1.
Proof.
  intros Hs Hmiss Hfalsy Hup Hfail.
  unfold ValidatorCli.getValidators_closing, ValidatorCli.fetch, try_finally, try_catch.
  rewrite bind_run, cli_loadCache_run, Hmiss.
  rewrite bind_run, (connectToNetwork_up net api Hup), Hfalsy.
  match goal with |- context [ValidatorCli.validatorSet _ _ ?w0] =>
    destruct (cli_validatorSet_fails api options message w0 Hfail) as (pre & Hpre & ->) end.
  rewrite error_object_run, (closing_run closing api) by reflexivity.
  destruct (load_events_silent w ValidatorCli.cacheFile (ValidatorCli.refresh options))
    as (Ht1 & Hw1 & _).
  pose proof (load_events_no_disconnect w ValidatorCli.cacheFile
                (ValidatorCli.refresh options)) as Hd1.
  destruct (connect_outcome_silent net ValidatorCli.providers) as (Ht2 & Hw2 & _).
  pose proof (connect_outcome_no_disconnect net ValidatorCli.providers) as Hd2.
  pose proof (failed_run_events closing _ _ _ message Ht1 Hw1 Hd1 Ht2 Hw2 Hd2 Hpre)
    as Hevents.
  cbv zeta in Hevents.
  destruct closing as [u|refusal]; cbn [closed closing_events] in *.
  - eexists. split; [reflexivity|]. split; [reflexivity|]. split; [reflexivity|].
    eexists. split; [|exact Hevents].
    cbn [trace append_trace with_session]. rewrite <- !app_assoc. reflexivity.
  - eexists. split; [reflexivity|]. split; [reflexivity|]. split; [discriminate|].
    eexists. split; [|exact Hevents].
    cbn [trace append_trace with_session]. rewrite <- !app_assoc. reflexivity.
Qed.

Lemma script_failed_query closing net api message w :
  session w = None ->
  fresh_entry w ValidatorScript.cacheFile ValidatorScript.cacheTimeout = None ->
  snd (connect_outcome net ValidatorCli.providers) = Some api ->
  set_failure api = Some message ->
  exists w1,
    ValidatorScript.getValidators_closing closing net w = (closed closing, w1) /\
    failed_outcome closing message w w1.
Proof.
  intros Hs Hmiss Hup Hfail.
  unfold ValidatorScript.getValidators_closing, ValidatorScript.fetch, try_finally, try_catch.
  rewrite bind_run, script_loadCache_at, Hmiss.
  unfold ValidatorScript.connectToNetwork.
  rewrite bind_run, (connectToNetwork_up net api Hup).
  match goal with |- context [ValidatorScript.validatorSet _ ?w0] =>
    destruct (script_validatorSet_fails api message w0 Hfail) as (pre & Hpre & ->) end.
  rewrite error_object_run, (closing_run closing api) by reflexivity.
  assert (Hload : tables (script_load_events w) = [] /\ writes (script_load_events w) = []).
  { unfold script_load_events. rewrite tables_app, writes_app.
    destruct (load_events_silent w ValidatorScript.cacheFile false) as (-> & -> & _).
    destruct (files w ValidatorScript.cacheFile) as [| |[| |c]]; try (split; reflexivity).
    destruct (timestamp c) as [t|]; [destruct (clock w - t <? _)%Z|]; split; reflexivity. }
  destruct Hload as [Ht1 Hw1].
  pose proof (script_load_events_no_disconnect w) as Hd1.
  destruct (connect_outcome_silent net ValidatorCli.providers) as (Ht2 & Hw2 & _).
  pose proof (connect_outcome_no_disconnect net ValidatorCli.providers) as Hd2.
  pose proof (failed_run_events closing _ _ _ message Ht1 Hw1 Hd1 Ht2 Hw2 Hd2 Hpre)
    as Hevents.
  cbv zeta in Hevents.
  destruct closing as [u|refusal]; cbn [closed closing_events] in *.
  - eexists. split; [reflexivity|]. split; [reflexivity|]. split; [reflexivity|].
    eexists. split; [|exact Hevents].
    cbn [trace append_trace with_session]. rewrite <- !app_assoc. reflexivity.
  - eexists. split; [reflexivity|]. split; [reflexivity|]. split; [discriminate|].
    eexists. split; [|exact Hevents].
    cbn [trace append_trace with_session]. rewrite <- !app_assoc. reflexivity.
Qed.

(** X19: when a run went past the cache, an endpoint answered, and a
    chain-wide query of the validator-set path fails (the session
    validators, the active era, an era without a value, or the nominator
    entries), the run passes the error to [console.error], shows no table,
    writes no cache record, leaves the files as they were and asks the node
    to disconnect, once.  It ends as [api.disconnect()] answers: normally
    and without a session when that resolves, with its error when that
    rejects. *)
Theorem failed_query_saves_nothing
    (closing : response unit) (options : ValidatorCli.Options) (net : Network) (api : Api)
    (message : string) (w : World) :
  session w = None ->
  snd (connect_outcome net ValidatorCli.providers) = Some api ->
  set_failure api = Some message ->
  ((if ValidatorCli.refresh options then None
    else fresh_entry w ValidatorCli.cacheFile ValidatorCli.cacheTimeout) = None ->
   truthy_string (ValidatorCli.validator options) = false ->
   exists w1,
     ValidatorCli.getValidators_closing closing options net w = (closed closing, w1) /\
     failed_outcome closing message w w1) /\
  (fresh_entry w ValidatorScript.cacheFile ValidatorScript.cacheTimeout = None ->
   exists w2,
     ValidatorScript.getValidators_closing closing net w = (closed closing, w2) /\
     failed_outcome closing message w w2).
Proof.
  intros Hs Hup Hfail. split.
  - intros Hmiss Hfalsy. now apply (cli_failed_query closing options net api).
  - intros Hmiss. now apply (script_failed_query closing net api).
Qed.

(** A node that answers the connection but has no active era. *)
Definition no_era_api : Api :=
  {| query_session_validators := Resolved ["V"];
     query_staking_activeEra := Resolved None;
     query_staking_validators := fun _ => Rejected "unused";
     derive_staking_account := fun _ => Rejected "unused";
     query_staking_erasStakers := fun _ _ => Rejected "unused";
     query_staking_nominators_entries := Resolved [] |}.

Lemma failed_query_saves_nothing_witness :
  session cached_world = None /\
  snd (connect_outcome (fun _ => Resolved no_era_api) ValidatorCli.providers)
    = Some no_era_api /\
  set_failure no_era_api = Some "Option: unwrapping a None value" /\
  (exists w1,
     ValidatorCli.getValidators_closing (Rejected "socket closed") refresh_all
       (fun _ => Resolved no_era_api) cached_world = (Thrown "socket closed", w1) /\
     failed_outcome (Rejected "socket closed") "Option: unwrapping a None value"
       cached_world w1) /\
  (exists w2,
     ValidatorScript.getValidators_closing (Resolved tt) (fun _ => Resolved no_era_api)
       fresh_world = (Normal tt, w2) /\
     failed_outcome (Resolved tt) "Option: unwrapping a None value" fresh_world w2).
Proof.
  split; [reflexivity|]. split; [reflexivity|]. split; [reflexivity|].
  split.
  - exact (proj1 (failed_query_saves_nothing (Rejected "socket closed") refresh_all
                    (fun _ => Resolved no_era_api) no_era_api
                    "Option: unwrapping a None value" cached_world eq_refl eq_refl eq_refl)
             eq_refl eq_refl).
  - exact (proj2 (failed_query_saves_nothing (Resolved tt) refresh_all
                    (fun _ => Resolved no_era_api) no_era_api
                    "Option: unwrapping a None value" fresh_world eq_refl eq_refl eq_refl)
             eq_refl).
Defined.
